(** * The gatekeeper classifier of slmnet Hybrid (gatekeeper.js)

    A shallow embedding of the classification-and-learning engine:
    the text normaliser, the Brain (knowledge base), the rule cascade
    of [classify], the online learner [learnFromFeedback] and the
    localStorage persistence of the Brain, followed by the properties
    of the engine.

    JavaScript strings are sequences of UTF-16 code units, plain
    objects are tables of own properties in front of [Object.prototype]
    together with the order of their keys, a [Set] is kept in insertion
    order, and a call either returns or throws. *)

From Stdlib Require Import NArith String Ascii Lia.
From stdpp Require Import gmap list.

Open Scope N_scope.

(** ** Unicode character data

    [String.prototype.toLowerCase] follows the Unicode default case
    conversion.  The three tables below are the data it consults
    (Unicode 14.0.0): the simple lowercase mapping of UnicodeData.txt,
    and the derived properties Cased and Case_Ignorable that decide the
    Final_Sigma context of SpecialCasing.txt. *)

Module UCD.

(** Rows [(first, last, step, image of first)]: the code points
    [first, first + step, ..., last] map to [image + (cp - first)]. *)
Definition lowercase_mapping : list (N * N * N * N) :=
  [
   (0x41, 0x5A, 1, 0x61); (0xC0, 0xD6, 1, 0xE0); (0xD8, 0xDE, 1, 0xF8);
   (0x100, 0x12E, 2, 0x101); (0x130, 0x130, 1, 0x69);
   (0x132, 0x136, 2, 0x133); (0x139, 0x147, 2, 0x13A);
   (0x14A, 0x176, 2, 0x14B); (0x178, 0x178, 1, 0xFF);
   (0x179, 0x17D, 2, 0x17A); (0x181, 0x181, 1, 0x253);
   (0x182, 0x184, 2, 0x183); (0x186, 0x186, 1, 0x254);
   (0x187, 0x187, 1, 0x188); (0x189, 0x18A, 1, 0x256);
   (0x18B, 0x18B, 1, 0x18C); (0x18E, 0x18E, 1, 0x1DD);
   (0x18F, 0x18F, 1, 0x259); (0x190, 0x190, 1, 0x25B);
   (0x191, 0x191, 1, 0x192); (0x193, 0x193, 1, 0x260);
   (0x194, 0x194, 1, 0x263); (0x196, 0x196, 1, 0x269);
   (0x197, 0x197, 1, 0x268); (0x198, 0x198, 1, 0x199);
   (0x19C, 0x19C, 1, 0x26F); (0x19D, 0x19D, 1, 0x272);
   (0x19F, 0x19F, 1, 0x275); (0x1A0, 0x1A4, 2, 0x1A1);
   (0x1A6, 0x1A6, 1, 0x280); (0x1A7, 0x1A7, 1, 0x1A8);
   (0x1A9, 0x1A9, 1, 0x283); (0x1AC, 0x1AC, 1, 0x1AD);
   (0x1AE, 0x1AE, 1, 0x288); (0x1AF, 0x1AF, 1, 0x1B0);
   (0x1B1, 0x1B2, 1, 0x28A); (0x1B3, 0x1B5, 2, 0x1B4);
   (0x1B7, 0x1B7, 1, 0x292); (0x1B8, 0x1B8, 1, 0x1B9);
   (0x1BC, 0x1BC, 1, 0x1BD); (0x1C4, 0x1C4, 1, 0x1C6);
   (0x1C5, 0x1C5, 1, 0x1C6); (0x1C7, 0x1C7, 1, 0x1C9);
   (0x1C8, 0x1C8, 1, 0x1C9); (0x1CA, 0x1CA, 1, 0x1CC);
   (0x1CB, 0x1DB, 2, 0x1CC); (0x1DE, 0x1EE, 2, 0x1DF);
   (0x1F1, 0x1F1, 1, 0x1F3); (0x1F2, 0x1F4, 2, 0x1F3);
   (0x1F6, 0x1F6, 1, 0x195); (0x1F7, 0x1F7, 1, 0x1BF);
   (0x1F8, 0x21E, 2, 0x1F9); (0x220, 0x220, 1, 0x19E);
   (0x222, 0x232, 2, 0x223); (0x23A, 0x23A, 1, 0x2C65);
   (0x23B, 0x23B, 1, 0x23C); (0x23D, 0x23D, 1, 0x19A);
   (0x23E, 0x23E, 1, 0x2C66); (0x241, 0x241, 1, 0x242);
   (0x243, 0x243, 1, 0x180); (0x244, 0x244, 1, 0x289);
   (0x245, 0x245, 1, 0x28C); (0x246, 0x24E, 2, 0x247);
   (0x370, 0x372, 2, 0x371); (0x376, 0x376, 1, 0x377);
   (0x37F, 0x37F, 1, 0x3F3); (0x386, 0x386, 1, 0x3AC);
   (0x388, 0x38A, 1, 0x3AD); (0x38C, 0x38C, 1, 0x3CC);
   (0x38E, 0x38F, 1, 0x3CD); (0x391, 0x3A1, 1, 0x3B1);
   (0x3A3, 0x3AB, 1, 0x3C3); (0x3CF, 0x3CF, 1, 0x3D7);
   (0x3D8, 0x3EE, 2, 0x3D9); (0x3F4, 0x3F4, 1, 0x3B8);
   (0x3F7, 0x3F7, 1, 0x3F8); (0x3F9, 0x3F9, 1, 0x3F2);
   (0x3FA, 0x3FA, 1, 0x3FB); (0x3FD, 0x3FF, 1, 0x37B);
   (0x400, 0x40F, 1, 0x450); (0x410, 0x42F, 1, 0x430);
   (0x460, 0x480, 2, 0x461); (0x48A, 0x4BE, 2, 0x48B);
   (0x4C0, 0x4C0, 1, 0x4CF); (0x4C1, 0x4CD, 2, 0x4C2);
   (0x4D0, 0x52E, 2, 0x4D1); (0x531, 0x556, 1, 0x561);
   (0x10A0, 0x10C5, 1, 0x2D00); (0x10C7, 0x10C7, 1, 0x2D27);
   (0x10CD, 0x10CD, 1, 0x2D2D); (0x13A0, 0x13EF, 1, 0xAB70);
   (0x13F0, 0x13F5, 1, 0x13F8); (0x1C90, 0x1CBA, 1, 0x10D0);
   (0x1CBD, 0x1CBF, 1, 0x10FD); (0x1E00, 0x1E94, 2, 0x1E01);
   (0x1E9E, 0x1E9E, 1, 0xDF); (0x1EA0, 0x1EFE, 2, 0x1EA1);
   (0x1F08, 0x1F0F, 1, 0x1F00); (0x1F18, 0x1F1D, 1, 0x1F10);
   (0x1F28, 0x1F2F, 1, 0x1F20); (0x1F38, 0x1F3F, 1, 0x1F30);
   (0x1F48, 0x1F4D, 1, 0x1F40); (0x1F59, 0x1F5F, 2, 0x1F51);
   (0x1F68, 0x1F6F, 1, 0x1F60); (0x1F88, 0x1F8F, 1, 0x1F80);
   (0x1F98, 0x1F9F, 1, 0x1F90); (0x1FA8, 0x1FAF, 1, 0x1FA0);
   (0x1FB8, 0x1FB9, 1, 0x1FB0); (0x1FBA, 0x1FBB, 1, 0x1F70);
   (0x1FBC, 0x1FBC, 1, 0x1FB3); (0x1FC8, 0x1FCB, 1, 0x1F72);
   (0x1FCC, 0x1FCC, 1, 0x1FC3); (0x1FD8, 0x1FD9, 1, 0x1FD0);
   (0x1FDA, 0x1FDB, 1, 0x1F76); (0x1FE8, 0x1FE9, 1, 0x1FE0);
   (0x1FEA, 0x1FEB, 1, 0x1F7A); (0x1FEC, 0x1FEC, 1, 0x1FE5);
   (0x1FF8, 0x1FF9, 1, 0x1F78); (0x1FFA, 0x1FFB, 1, 0x1F7C);
   (0x1FFC, 0x1FFC, 1, 0x1FF3); (0x2126, 0x2126, 1, 0x3C9);
   (0x212A, 0x212A, 1, 0x6B); (0x212B, 0x212B, 1, 0xE5);
   (0x2132, 0x2132, 1, 0x214E); (0x2160, 0x216F, 1, 0x2170);
   (0x2183, 0x2183, 1, 0x2184); (0x24B6, 0x24CF, 1, 0x24D0);
   (0x2C00, 0x2C2F, 1, 0x2C30); (0x2C60, 0x2C60, 1, 0x2C61);
   (0x2C62, 0x2C62, 1, 0x26B); (0x2C63, 0x2C63, 1, 0x1D7D);
   (0x2C64, 0x2C64, 1, 0x27D); (0x2C67, 0x2C6B, 2, 0x2C68);
   (0x2C6D, 0x2C6D, 1, 0x251); (0x2C6E, 0x2C6E, 1, 0x271);
   (0x2C6F, 0x2C6F, 1, 0x250); (0x2C70, 0x2C70, 1, 0x252);
   (0x2C72, 0x2C72, 1, 0x2C73); (0x2C75, 0x2C75, 1, 0x2C76);
   (0x2C7E, 0x2C7F, 1, 0x23F); (0x2C80, 0x2CE2, 2, 0x2C81);
   (0x2CEB, 0x2CED, 2, 0x2CEC); (0x2CF2, 0x2CF2, 1, 0x2CF3);
   (0xA640, 0xA66C, 2, 0xA641); (0xA680, 0xA69A, 2, 0xA681);
   (0xA722, 0xA72E, 2, 0xA723); (0xA732, 0xA76E, 2, 0xA733);
   (0xA779, 0xA77B, 2, 0xA77A); (0xA77D, 0xA77D, 1, 0x1D79);
   (0xA77E, 0xA786, 2, 0xA77F); (0xA78B, 0xA78B, 1, 0xA78C);
   (0xA78D, 0xA78D, 1, 0x265); (0xA790, 0xA792, 2, 0xA791);
   (0xA796, 0xA7A8, 2, 0xA797); (0xA7AA, 0xA7AA, 1, 0x266);
   (0xA7AB, 0xA7AB, 1, 0x25C); (0xA7AC, 0xA7AC, 1, 0x261);
   (0xA7AD, 0xA7AD, 1, 0x26C); (0xA7AE, 0xA7AE, 1, 0x26A);
   (0xA7B0, 0xA7B0, 1, 0x29E); (0xA7B1, 0xA7B1, 1, 0x287);
   (0xA7B2, 0xA7B2, 1, 0x29D); (0xA7B3, 0xA7B3, 1, 0xAB53);
   (0xA7B4, 0xA7C2, 2, 0xA7B5); (0xA7C4, 0xA7C4, 1, 0xA794);
   (0xA7C5, 0xA7C5, 1, 0x282); (0xA7C6, 0xA7C6, 1, 0x1D8E);
   (0xA7C7, 0xA7C9, 2, 0xA7C8); (0xA7D0, 0xA7D0, 1, 0xA7D1);
   (0xA7D6, 0xA7D8, 2, 0xA7D7); (0xA7F5, 0xA7F5, 1, 0xA7F6);
   (0xFF21, 0xFF3A, 1, 0xFF41); (0x10400, 0x10427, 1, 0x10428);
   (0x104B0, 0x104D3, 1, 0x104D8); (0x10570, 0x1057A, 1, 0x10597);
   (0x1057C, 0x1058A, 1, 0x105A3); (0x1058C, 0x10592, 1, 0x105B3);
   (0x10594, 0x10595, 1, 0x105BB); (0x10C80, 0x10CB2, 1, 0x10CC0);
   (0x118A0, 0x118BF, 1, 0x118C0); (0x16E40, 0x16E5F, 1, 0x16E60);
   (0x1E900, 0x1E921, 1, 0x1E922)
  ].

(** Ranges of code points with the property Cased. *)
Definition cased_ranges : list (N * N) :=
  [
   (0x41, 0x5A); (0x61, 0x7A); (0xAA, 0xAA); (0xB5, 0xB5); (0xBA, 0xBA);
   (0xC0, 0xD6); (0xD8, 0xF6); (0xF8, 0x1BA); (0x1BC, 0x1BF); (0x1C4, 0x293);
   (0x295, 0x2B8); (0x2C0, 0x2C1); (0x2E0, 0x2E4); (0x345, 0x345);
   (0x370, 0x373); (0x376, 0x377); (0x37A, 0x37D); (0x37F, 0x37F);
   (0x386, 0x386); (0x388, 0x38A); (0x38C, 0x38C); (0x38E, 0x3A1);
   (0x3A3, 0x3F5); (0x3F7, 0x481); (0x48A, 0x52F); (0x531, 0x556);
   (0x560, 0x588); (0x10A0, 0x10C5); (0x10C7, 0x10C7); (0x10CD, 0x10CD);
   (0x10D0, 0x10FA); (0x10FD, 0x10FF); (0x13A0, 0x13F5); (0x13F8, 0x13FD);
   (0x1C80, 0x1C88); (0x1C90, 0x1CBA); (0x1CBD, 0x1CBF); (0x1D00, 0x1DBF);
   (0x1E00, 0x1F15); (0x1F18, 0x1F1D); (0x1F20, 0x1F45); (0x1F48, 0x1F4D);
   (0x1F50, 0x1F57); (0x1F59, 0x1F59); (0x1F5B, 0x1F5B); (0x1F5D, 0x1F5D);
   (0x1F5F, 0x1F7D); (0x1F80, 0x1FB4); (0x1FB6, 0x1FBC); (0x1FBE, 0x1FBE);
   (0x1FC2, 0x1FC4); (0x1FC6, 0x1FCC); (0x1FD0, 0x1FD3); (0x1FD6, 0x1FDB);
   (0x1FE0, 0x1FEC); (0x1FF2, 0x1FF4); (0x1FF6, 0x1FFC); (0x2071, 0x2071);
   (0x207F, 0x207F); (0x2090, 0x209C); (0x2102, 0x2102); (0x2107, 0x2107);
   (0x210A, 0x2113); (0x2115, 0x2115); (0x2119, 0x211D); (0x2124, 0x2124);
   (0x2126, 0x2126); (0x2128, 0x2128); (0x212A, 0x212D); (0x212F, 0x2134);
   (0x2139, 0x2139); (0x213C, 0x213F); (0x2145, 0x2149); (0x214E, 0x214E);
   (0x2160, 0x217F); (0x2183, 0x2184); (0x24B6, 0x24E9); (0x2C00, 0x2CE4);
   (0x2CEB, 0x2CEE); (0x2CF2, 0x2CF3); (0x2D00, 0x2D25); (0x2D27, 0x2D27);
   (0x2D2D, 0x2D2D); (0xA640, 0xA66D); (0xA680, 0xA69D); (0xA722, 0xA787);
   (0xA78B, 0xA78E); (0xA790, 0xA7CA); (0xA7D0, 0xA7D1); (0xA7D3, 0xA7D3);
   (0xA7D5, 0xA7D9); (0xA7F5, 0xA7F6); (0xA7F8, 0xA7FA); (0xAB30, 0xAB5A);
   (0xAB5C, 0xAB68); (0xAB70, 0xABBF); (0xFB00, 0xFB06); (0xFB13, 0xFB17);
   (0xFF21, 0xFF3A); (0xFF41, 0xFF5A); (0x10400, 0x1044F);
   (0x104B0, 0x104D3); (0x104D8, 0x104FB); (0x10570, 0x1057A);
   (0x1057C, 0x1058A); (0x1058C, 0x10592); (0x10594, 0x10595);
   (0x10597, 0x105A1); (0x105A3, 0x105B1); (0x105B3, 0x105B9);
   (0x105BB, 0x105BC); (0x10780, 0x10780); (0x10783, 0x10785);
   (0x10787, 0x107B0); (0x107B2, 0x107BA); (0x10C80, 0x10CB2);
   (0x10CC0, 0x10CF2); (0x118A0, 0x118DF); (0x16E40, 0x16E7F);
   (0x1D400, 0x1D454); (0x1D456, 0x1D49C); (0x1D49E, 0x1D49F);
   (0x1D4A2, 0x1D4A2); (0x1D4A5, 0x1D4A6); (0x1D4A9, 0x1D4AC);
   (0x1D4AE, 0x1D4B9); (0x1D4BB, 0x1D4BB); (0x1D4BD, 0x1D4C3);
   (0x1D4C5, 0x1D505); (0x1D507, 0x1D50A); (0x1D50D, 0x1D514);
   (0x1D516, 0x1D51C); (0x1D51E, 0x1D539); (0x1D53B, 0x1D53E);
   (0x1D540, 0x1D544); (0x1D546, 0x1D546); (0x1D54A, 0x1D550);
   (0x1D552, 0x1D6A5); (0x1D6A8, 0x1D6C0); (0x1D6C2, 0x1D6DA);
   (0x1D6DC, 0x1D6FA); (0x1D6FC, 0x1D714); (0x1D716, 0x1D734);
   (0x1D736, 0x1D74E); (0x1D750, 0x1D76E); (0x1D770, 0x1D788);
   (0x1D78A, 0x1D7A8); (0x1D7AA, 0x1D7C2); (0x1D7C4, 0x1D7CB);
   (0x1DF00, 0x1DF09); (0x1DF0B, 0x1DF1E); (0x1E900, 0x1E943);
   (0x1F130, 0x1F149); (0x1F150, 0x1F169); (0x1F170, 0x1F189)
  ].

(** Ranges of code points with the property Case_Ignorable. *)
Definition case_ignorable_ranges : list (N * N) :=
  [
   (0x27, 0x27); (0x2E, 0x2E); (0x3A, 0x3A); (0x5E, 0x5E); (0x60, 0x60);
   (0xA8, 0xA8); (0xAD, 0xAD); (0xAF, 0xAF); (0xB4, 0xB4); (0xB7, 0xB8);
   (0x2B0, 0x36F); (0x374, 0x375); (0x37A, 0x37A); (0x384, 0x385);
   (0x387, 0x387); (0x483, 0x489); (0x559, 0x559); (0x55F, 0x55F);
   (0x591, 0x5BD); (0x5BF, 0x5BF); (0x5C1, 0x5C2); (0x5C4, 0x5C5);
   (0x5C7, 0x5C7); (0x5F4, 0x5F4); (0x600, 0x605); (0x610, 0x61A);
   (0x61C, 0x61C); (0x640, 0x640); (0x64B, 0x65F); (0x670, 0x670);
   (0x6D6, 0x6DD); (0x6DF, 0x6E8); (0x6EA, 0x6ED); (0x70F, 0x70F);
   (0x711, 0x711); (0x730, 0x74A); (0x7A6, 0x7B0); (0x7EB, 0x7F5);
   (0x7FA, 0x7FA); (0x7FD, 0x7FD); (0x816, 0x82D); (0x859, 0x85B);
   (0x888, 0x888); (0x890, 0x891); (0x898, 0x89F); (0x8C9, 0x902);
   (0x93A, 0x93A); (0x93C, 0x93C); (0x941, 0x948); (0x94D, 0x94D);
   (0x951, 0x957); (0x962, 0x963); (0x971, 0x971); (0x981, 0x981);
   (0x9BC, 0x9BC); (0x9C1, 0x9C4); (0x9CD, 0x9CD); (0x9E2, 0x9E3);
   (0x9FE, 0x9FE); (0xA01, 0xA02); (0xA3C, 0xA3C); (0xA41, 0xA42);
   (0xA47, 0xA48); (0xA4B, 0xA4D); (0xA51, 0xA51); (0xA70, 0xA71);
   (0xA75, 0xA75); (0xA81, 0xA82); (0xABC, 0xABC); (0xAC1, 0xAC5);
   (0xAC7, 0xAC8); (0xACD, 0xACD); (0xAE2, 0xAE3); (0xAFA, 0xAFF);
   (0xB01, 0xB01); (0xB3C, 0xB3C); (0xB3F, 0xB3F); (0xB41, 0xB44);
   (0xB4D, 0xB4D); (0xB55, 0xB56); (0xB62, 0xB63); (0xB82, 0xB82);
   (0xBC0, 0xBC0); (0xBCD, 0xBCD); (0xC00, 0xC00); (0xC04, 0xC04);
   (0xC3C, 0xC3C); (0xC3E, 0xC40); (0xC46, 0xC48); (0xC4A, 0xC4D);
   (0xC55, 0xC56); (0xC62, 0xC63); (0xC81, 0xC81); (0xCBC, 0xCBC);
   (0xCBF, 0xCBF); (0xCC6, 0xCC6); (0xCCC, 0xCCD); (0xCE2, 0xCE3);
   (0xD00, 0xD01); (0xD3B, 0xD3C); (0xD41, 0xD44); (0xD4D, 0xD4D);
   (0xD62, 0xD63); (0xD81, 0xD81); (0xDCA, 0xDCA); (0xDD2, 0xDD4);
   (0xDD6, 0xDD6); (0xE31, 0xE31); (0xE34, 0xE3A); (0xE46, 0xE4E);
   (0xEB1, 0xEB1); (0xEB4, 0xEBC); (0xEC6, 0xEC6); (0xEC8, 0xECD);
   (0xF18, 0xF19); (0xF35, 0xF35); (0xF37, 0xF37); (0xF39, 0xF39);
   (0xF71, 0xF7E); (0xF80, 0xF84); (0xF86, 0xF87); (0xF8D, 0xF97);
   (0xF99, 0xFBC); (0xFC6, 0xFC6); (0x102D, 0x1030); (0x1032, 0x1037);
   (0x1039, 0x103A); (0x103D, 0x103E); (0x1058, 0x1059); (0x105E, 0x1060);
   (0x1071, 0x1074); (0x1082, 0x1082); (0x1085, 0x1086); (0x108D, 0x108D);
   (0x109D, 0x109D); (0x10FC, 0x10FC); (0x135D, 0x135F); (0x1712, 0x1714);
   (0x1732, 0x1733); (0x1752, 0x1753); (0x1772, 0x1773); (0x17B4, 0x17B5);
   (0x17B7, 0x17BD); (0x17C6, 0x17C6); (0x17C9, 0x17D3); (0x17D7, 0x17D7);
   (0x17DD, 0x17DD); (0x180B, 0x180F); (0x1843, 0x1843); (0x1885, 0x1886);
   (0x18A9, 0x18A9); (0x1920, 0x1922); (0x1927, 0x1928); (0x1932, 0x1932);
   (0x1939, 0x193B); (0x1A17, 0x1A18); (0x1A1B, 0x1A1B); (0x1A56, 0x1A56);
   (0x1A58, 0x1A5E); (0x1A60, 0x1A60); (0x1A62, 0x1A62); (0x1A65, 0x1A6C);
   (0x1A73, 0x1A7C); (0x1A7F, 0x1A7F); (0x1AA7, 0x1AA7); (0x1AB0, 0x1ACE);
   (0x1B00, 0x1B03); (0x1B34, 0x1B34); (0x1B36, 0x1B3A); (0x1B3C, 0x1B3C);
   (0x1B42, 0x1B42); (0x1B6B, 0x1B73); (0x1B80, 0x1B81); (0x1BA2, 0x1BA5);
   (0x1BA8, 0x1BA9); (0x1BAB, 0x1BAD); (0x1BE6, 0x1BE6); (0x1BE8, 0x1BE9);
   (0x1BED, 0x1BED); (0x1BEF, 0x1BF1); (0x1C2C, 0x1C33); (0x1C36, 0x1C37);
   (0x1C78, 0x1C7D); (0x1CD0, 0x1CD2); (0x1CD4, 0x1CE0); (0x1CE2, 0x1CE8);
   (0x1CED, 0x1CED); (0x1CF4, 0x1CF4); (0x1CF8, 0x1CF9); (0x1D2C, 0x1D6A);
   (0x1D78, 0x1D78); (0x1D9B, 0x1DFF); (0x1FBD, 0x1FBD); (0x1FBF, 0x1FC1);
   (0x1FCD, 0x1FCF); (0x1FDD, 0x1FDF); (0x1FED, 0x1FEF); (0x1FFD, 0x1FFE);
   (0x200B, 0x200F); (0x2018, 0x2019); (0x2024, 0x2024); (0x2027, 0x2027);
   (0x202A, 0x202E); (0x2060, 0x2064); (0x2066, 0x206F); (0x2071, 0x2071);
   (0x207F, 0x207F); (0x2090, 0x209C); (0x20D0, 0x20F0); (0x2C7C, 0x2C7D);
   (0x2CEF, 0x2CF1); (0x2D6F, 0x2D6F); (0x2D7F, 0x2D7F); (0x2DE0, 0x2DFF);
   (0x2E2F, 0x2E2F); (0x3005, 0x3005); (0x302A, 0x302D); (0x3031, 0x3035);
   (0x303B, 0x303B); (0x3099, 0x309E); (0x30FC, 0x30FE); (0xA015, 0xA015);
   (0xA4F8, 0xA4FD); (0xA60C, 0xA60C); (0xA66F, 0xA672); (0xA674, 0xA67D);
   (0xA67F, 0xA67F); (0xA69C, 0xA69F); (0xA6F0, 0xA6F1); (0xA700, 0xA721);
   (0xA770, 0xA770); (0xA788, 0xA78A); (0xA7F2, 0xA7F4); (0xA7F8, 0xA7F9);
   (0xA802, 0xA802); (0xA806, 0xA806); (0xA80B, 0xA80B); (0xA825, 0xA826);
   (0xA82C, 0xA82C); (0xA8C4, 0xA8C5); (0xA8E0, 0xA8F1); (0xA8FF, 0xA8FF);
   (0xA926, 0xA92D); (0xA947, 0xA951); (0xA980, 0xA982); (0xA9B3, 0xA9B3);
   (0xA9B6, 0xA9B9); (0xA9BC, 0xA9BD); (0xA9CF, 0xA9CF); (0xA9E5, 0xA9E6);
   (0xAA29, 0xAA2E); (0xAA31, 0xAA32); (0xAA35, 0xAA36); (0xAA43, 0xAA43);
   (0xAA4C, 0xAA4C); (0xAA70, 0xAA70); (0xAA7C, 0xAA7C); (0xAAB0, 0xAAB0);
   (0xAAB2, 0xAAB4); (0xAAB7, 0xAAB8); (0xAABE, 0xAABF); (0xAAC1, 0xAAC1);
   (0xAADD, 0xAADD); (0xAAEC, 0xAAED); (0xAAF3, 0xAAF4); (0xAAF6, 0xAAF6);
   (0xAB5B, 0xAB5F); (0xAB69, 0xAB6B); (0xABE5, 0xABE5); (0xABE8, 0xABE8);
   (0xABED, 0xABED); (0xFB1E, 0xFB1E); (0xFBB2, 0xFBC2); (0xFE00, 0xFE0F);
   (0xFE13, 0xFE13); (0xFE20, 0xFE2F); (0xFE52, 0xFE52); (0xFE55, 0xFE55);
   (0xFEFF, 0xFEFF); (0xFF07, 0xFF07); (0xFF0E, 0xFF0E); (0xFF1A, 0xFF1A);
   (0xFF3E, 0xFF3E); (0xFF40, 0xFF40); (0xFF70, 0xFF70); (0xFF9E, 0xFF9F);
   (0xFFE3, 0xFFE3); (0xFFF9, 0xFFFB); (0x101FD, 0x101FD);
   (0x102E0, 0x102E0); (0x10376, 0x1037A); (0x10780, 0x10785);
   (0x10787, 0x107B0); (0x107B2, 0x107BA); (0x10A01, 0x10A03);
   (0x10A05, 0x10A06); (0x10A0C, 0x10A0F); (0x10A38, 0x10A3A);
   (0x10A3F, 0x10A3F); (0x10AE5, 0x10AE6); (0x10D24, 0x10D27);
   (0x10EAB, 0x10EAC); (0x10F46, 0x10F50); (0x10F82, 0x10F85);
   (0x11001, 0x11001); (0x11038, 0x11046); (0x11070, 0x11070);
   (0x11073, 0x11074); (0x1107F, 0x11081); (0x110B3, 0x110B6);
   (0x110B9, 0x110BA); (0x110BD, 0x110BD); (0x110C2, 0x110C2);
   (0x110CD, 0x110CD); (0x11100, 0x11102); (0x11127, 0x1112B);
   (0x1112D, 0x11134); (0x11173, 0x11173); (0x11180, 0x11181);
   (0x111B6, 0x111BE); (0x111C9, 0x111CC); (0x111CF, 0x111CF);
   (0x1122F, 0x11231); (0x11234, 0x11234); (0x11236, 0x11237);
   (0x1123E, 0x1123E); (0x112DF, 0x112DF); (0x112E3, 0x112EA);
   (0x11300, 0x11301); (0x1133B, 0x1133C); (0x11340, 0x11340);
   (0x11366, 0x1136C); (0x11370, 0x11374); (0x11438, 0x1143F);
   (0x11442, 0x11444); (0x11446, 0x11446); (0x1145E, 0x1145E);
   (0x114B3, 0x114B8); (0x114BA, 0x114BA); (0x114BF, 0x114C0);
   (0x114C2, 0x114C3); (0x115B2, 0x115B5); (0x115BC, 0x115BD);
   (0x115BF, 0x115C0); (0x115DC, 0x115DD); (0x11633, 0x1163A);
   (0x1163D, 0x1163D); (0x1163F, 0x11640); (0x116AB, 0x116AB);
   (0x116AD, 0x116AD); (0x116B0, 0x116B5); (0x116B7, 0x116B7);
   (0x1171D, 0x1171F); (0x11722, 0x11725); (0x11727, 0x1172B);
   (0x1182F, 0x11837); (0x11839, 0x1183A); (0x1193B, 0x1193C);
   (0x1193E, 0x1193E); (0x11943, 0x11943); (0x119D4, 0x119D7);
   (0x119DA, 0x119DB); (0x119E0, 0x119E0); (0x11A01, 0x11A0A);
   (0x11A33, 0x11A38); (0x11A3B, 0x11A3E); (0x11A47, 0x11A47);
   (0x11A51, 0x11A56); (0x11A59, 0x11A5B); (0x11A8A, 0x11A96);
   (0x11A98, 0x11A99); (0x11C30, 0x11C36); (0x11C38, 0x11C3D);
   (0x11C3F, 0x11C3F); (0x11C92, 0x11CA7); (0x11CAA, 0x11CB0);
   (0x11CB2, 0x11CB3); (0x11CB5, 0x11CB6); (0x11D31, 0x11D36);
   (0x11D3A, 0x11D3A); (0x11D3C, 0x11D3D); (0x11D3F, 0x11D45);
   (0x11D47, 0x11D47); (0x11D90, 0x11D91); (0x11D95, 0x11D95);
   (0x11D97, 0x11D97); (0x11EF3, 0x11EF4); (0x13430, 0x13438);
   (0x16AF0, 0x16AF4); (0x16B30, 0x16B36); (0x16B40, 0x16B43);
   (0x16F4F, 0x16F4F); (0x16F8F, 0x16F9F); (0x16FE0, 0x16FE1);
   (0x16FE3, 0x16FE4); (0x1AFF0, 0x1AFF3); (0x1AFF5, 0x1AFFB);
   (0x1AFFD, 0x1AFFE); (0x1BC9D, 0x1BC9E); (0x1BCA0, 0x1BCA3);
   (0x1CF00, 0x1CF2D); (0x1CF30, 0x1CF46); (0x1D167, 0x1D169);
   (0x1D173, 0x1D182); (0x1D185, 0x1D18B); (0x1D1AA, 0x1D1AD);
   (0x1D242, 0x1D244); (0x1DA00, 0x1DA36); (0x1DA3B, 0x1DA6C);
   (0x1DA75, 0x1DA75); (0x1DA84, 0x1DA84); (0x1DA9B, 0x1DA9F);
   (0x1DAA1, 0x1DAAF); (0x1E000, 0x1E006); (0x1E008, 0x1E018);
   (0x1E01B, 0x1E021); (0x1E023, 0x1E024); (0x1E026, 0x1E02A);
   (0x1E130, 0x1E13D); (0x1E2AE, 0x1E2AE); (0x1E2EC, 0x1E2EF);
   (0x1E8D0, 0x1E8D6); (0x1E944, 0x1E94B); (0x1F3FB, 0x1F3FF);
   (0xE0001, 0xE0001); (0xE0020, 0xE007F); (0xE0100, 0xE01EF)
  ].

Definition in_range (cp : N) (r : N * N) : bool :=
  (fst r <=? cp) && (cp <=? snd r).

Definition Cased (cp : N) : bool := existsb (in_range cp) cased_ranges.

Definition Case_Ignorable (cp : N) : bool :=
  existsb (in_range cp) case_ignorable_ranges.

Definition row_maps (cp : N) (row : N * N * N * N) : bool :=
  let '(first, last, step, _) := row in
  (first <=? cp) && (cp <=? last) && ((cp - first) mod step =? 0).

Definition row_image (cp : N) (row : N * N * N * N) : N :=
  let '(first, _, _, image) := row in image + (cp - first).

(** Simple_Lowercase_Mapping; code points without a row map to
    themselves. *)
Definition simple_lowercase (cp : N) : N :=
  match find (row_maps cp) lowercase_mapping with
  | Some row => row_image cp row
  | None => cp
  end.

End UCD.

(** ** JavaScript strings *)

Module JsString.

(** A string value is the sequence of its UTF-16 code units. *)
Abbreviation jsstring := (list N).

Definition is_leading_surrogate (cu : N) : bool :=
  (0xD800 <=? cu) && (cu <=? 0xDBFF).

Definition is_trailing_surrogate (cu : N) : bool :=
  (0xDC00 <=? cu) && (cu <=? 0xDFFF).

Definition is_surrogate (cu : N) : bool :=
  (0xD800 <=? cu) && (cu <=? 0xDFFF).

(** UTF16SurrogatePairToCodePoint *)
Definition surrogate_pair_to_code_point (lead trail : N) : N :=
  (lead - 0xD800) * 0x400 + (trail - 0xDC00) + 0x10000.

(** StringToCodePoints: a surrogate pair is one code point, an
    unpaired surrogate is a code point of its own. *)
Fixpoint code_points (s : jsstring) : list N :=
  match s with
  | [] => []
  | first :: rest =>
      if is_leading_surrogate first then
        match rest with
        | second :: rest' =>
            if is_trailing_surrogate second
            then surrogate_pair_to_code_point first second :: code_points rest'
            else first :: code_points rest
        | [] => [first]
        end
      else first :: code_points rest
  end.

(** UTF16EncodeCodePoint *)
Definition utf16_encode (cp : N) : jsstring :=
  if cp <? 0x10000 then [cp]
  else [0xD800 + (cp - 0x10000) / 0x400; 0xDC00 + (cp - 0x10000) mod 0x400].

(** CodePointsToString *)
Definition code_points_to_string (cps : list N) : jsstring :=
  flat_map utf16_encode cps.

(** String.prototype.isWellFormed: no unpaired surrogate. *)
Fixpoint isWellFormed (s : jsstring) : bool :=
  match s with
  | [] => true
  | first :: rest =>
      if is_leading_surrogate first then
        match rest with
        | second :: rest' => is_trailing_surrogate second && isWellFormed rest'
        | [] => false
        end
      else (first <? 0x10000) && negb (is_trailing_surrogate first)
           && isWellFormed rest
  end.

Fixpoint drop_while {A} (p : A -> bool) (l : list A) : list A :=
  match l with
  | [] => []
  | x :: l' => if p x then drop_while p l' else l
  end.

(** The Final_Sigma condition of SpecialCasing.txt: the sigma is
    preceded by a cased letter and not followed by one, case-ignorable
    code points skipped on both sides.  [before] is the text to the
    left, nearest code point first. *)
Definition final_sigma (before after : list N) : bool :=
  match drop_while UCD.Case_Ignorable before with
  | c :: _ => UCD.Cased c
  | [] => false
  end
  && match drop_while UCD.Case_Ignorable after with
     | c :: _ => negb (UCD.Cased c)
     | [] => true
     end.

(** The full lowercase mapping of one code point in its context:
    the two entries of SpecialCasing.txt that apply to lower-casing
    in every language, U+03A3 (capital sigma, by Final_Sigma) and
    U+0130 (capital I with dot above), and the simple mapping
    otherwise. *)
Definition lower_code_point (before : list N) (cp : N) (after : list N)
  : list N :=
  if cp =? 0x3A3 then
    if final_sigma before after then [0x3C2] else [0x3C3]
  else if cp =? 0x130 then [0x69; 0x307]
  else [UCD.simple_lowercase cp].

Fixpoint lower_code_points (before cps : list N) : list N :=
  match cps with
  | [] => []
  | cp :: after =>
      lower_code_point before cp after
        ++ lower_code_points (cp :: before) after
  end.

(** String.prototype.toLowerCase *)
Definition toLowerCase (s : jsstring) : jsstring :=
  code_points_to_string (lower_code_points [] (code_points s)).

(** WhiteSpace and LineTerminator: what [trim] removes and what the
    class [\s] of a regular expression matches. *)
Definition is_whitespace (cu : N) : bool :=
  ((0x9 <=? cu) && (cu <=? 0xD)) || (cu =? 0x20) || (cu =? 0xA0)
  || (cu =? 0x1680) || ((0x2000 <=? cu) && (cu <=? 0x200A))
  || (cu =? 0x2028) || (cu =? 0x2029) || (cu =? 0x202F)
  || (cu =? 0x205F) || (cu =? 0x3000) || (cu =? 0xFEFF).

Definition trimStart (s : jsstring) : jsstring := drop_while is_whitespace s.

Fixpoint trimEnd (s : jsstring) : jsstring :=
  match s with
  | [] => []
  | cu :: rest =>
      match trimEnd rest with
      | [] => if is_whitespace cu then [] else [cu]
      | kept => cu :: kept
      end
  end.

(** String.prototype.trim *)
Definition trim (s : jsstring) : jsstring := trimStart (trimEnd s).

(** [s.replace(/[.,!?;:]/g, '')]: the class holds the six code
    units . , ! ? ; : and every match is deleted. *)
Definition is_sentence_punctuation (cu : N) : bool :=
  (cu =? 0x2E) || (cu =? 0x2C) || (cu =? 0x21) || (cu =? 0x3F)
  || (cu =? 0x3B) || (cu =? 0x3A).

Definition remove_sentence_punctuation (s : jsstring) : jsstring :=
  List.filter (fun cu => negb (is_sentence_punctuation cu)) s.

(** [s.split(/\s+/)]: the pieces between maximal runs of white space.
    A run at either end leaves an empty piece there, and the empty
    string splits into one empty piece.  [piece] is the current piece
    in reverse; [in_run] tells that the previous unit was white space. *)
Fixpoint split_loop (piece : jsstring) (in_run : bool) (s : jsstring)
  : list jsstring :=
  match s with
  | [] => [rev piece]
  | cu :: rest =>
      if is_whitespace cu then
        if in_run then split_loop [] true rest
        else rev piece :: split_loop [] true rest
      else split_loop (cu :: piece) false rest
  end.

Definition split_whitespace (s : jsstring) : list jsstring :=
  split_loop [] false s.

(** Literals: the code units of a string written in this file, which
    is encoded in UTF-8. *)
Fixpoint utf8_code_points (bytes : list N) : list N :=
  match bytes with
  | [] => []
  | b0 :: rest =>
      if b0 <? 0x80 then b0 :: utf8_code_points rest
      else if b0 <? 0xE0 then
        match rest with
        | b1 :: rest' =>
            ((b0 - 0xC0) * 0x40 + (b1 - 0x80)) :: utf8_code_points rest'
        | _ => []
        end
      else if b0 <? 0xF0 then
        match rest with
        | b1 :: b2 :: rest' =>
            ((b0 - 0xE0) * 0x1000 + (b1 - 0x80) * 0x40 + (b2 - 0x80))
              :: utf8_code_points rest'
        | _ => []
        end
      else
        match rest with
        | b1 :: b2 :: b3 :: rest' =>
            ((b0 - 0xF0) * 0x40000 + (b1 - 0x80) * 0x1000
             + (b2 - 0x80) * 0x40 + (b3 - 0x80))
              :: utf8_code_points rest'
        | _ => []
        end
  end.

Definition lit (s : string) : jsstring :=
  code_points_to_string
    (utf8_code_points (map N_of_ascii (list_ascii_of_string s))).

End JsString.

(** ** How a call ends *)

Module Js.

(** The one exception the gatekeeper raises by itself: the call of a
    value that is not a function. *)
Inductive Error : Set := TypeError.

(** A call returns a value or throws. *)
Inductive completion (A : Type) : Type :=
  | returns (a : A)
  | throws (e : Error).
Arguments returns {A} a.
Arguments throws {A} e.

(** A call that works on a mutable state [S]: the state it leaves
    behind and how it ended.  What was written before an exception
    stays written. *)
Record run (S A : Type) : Type := Run { after : S; outcome : completion A }.
Arguments Run {S A} after outcome.
Arguments after {S A} r.
Arguments outcome {S A} r.

(** [array.forEach(callback)]: an exception of the callback leaves the
    loop, and the elements that follow are not visited. *)
Fixpoint forEach {S A} (callback : S -> A -> run S unit) (array : list A)
    (s : S) : run S unit :=
  match array with
  | [] => Run s (returns tt)
  | element :: rest =>
      let called := callback s element in
      match outcome called with
      | returns _ => forEach callback rest (after called)
      | throws e => Run (after called) (throws e)
      end
  end.

End Js.

(** ** Plain objects used as tables *)

Module JsObject.
Import JsString Js.

(** An ordinary object created by [{}] or by [JSON.parse], whose
    prototype is [Object.prototype]: its own properties, and their
    names in the order in which the object lists them (the order of
    [Object.keys], of the spread syntax and of [JSON.stringify]). *)
Record object (V : Type) : Type := {
  own : gmap (list N) V;
  keys : list jsstring
}.
Arguments own {V} o.
Arguments keys {V} o.

#[global] Instance object_eq_dec {V} `{EqDecision V} : EqDecision (object V).
Proof. solve_decision. Defined.

(** [{}] *)
Definition empty {V} : object V := {| own := ∅; keys := [] |}.

(** An array index is the canonical decimal form of an integer below
    [2^32 - 1]: digits only, and no leading zero except in ["0"]. *)
Definition digit (cu : N) : option N :=
  if (0x30 <=? cu) && (cu <=? 0x39) then Some (cu - 0x30) else None.

Definition decimal_value (name : jsstring) : option N :=
  fold_left
    (fun value cu =>
       match value, digit cu with
       | Some n, Some d => Some (10 * n + d)
       | _, _ => None
       end)
    name (Some 0).

Definition array_index (name : jsstring) : option N :=
  match name with
  | [] => None
  | first :: rest =>
      if (first =? 0x30) && negb (length rest =? 0)%nat then None
      else
        match decimal_value name with
        | Some n => if n <? 4294967295 then Some n else None
        | None => None
        end
  end.

(** Where a new property goes in the order of the keys: the array
    indices come first, in ascending order, and the other names follow
    in the order of their creation. *)
Fixpoint insert_index (index : N) (name : jsstring) (names : list jsstring)
  : list jsstring :=
  match names with
  | [] => [name]
  | name' :: rest =>
      match array_index name' with
      | Some index' =>
          if index' <? index then name' :: insert_index index name rest
          else name :: names
      | None => name :: names
      end
  end.

Definition insert_key (name : jsstring) (names : list jsstring)
  : list jsstring :=
  match array_index name with
  | Some index => insert_index index name names
  | None => names ++ [name]
  end.

(** The property names of [Object.prototype].  All are data
    properties holding functions, except the accessor [__proto__]. *)
Definition object_prototype_names : list jsstring :=
  map lit
    ["constructor"; "__defineGetter__"; "__defineSetter__";
     "hasOwnProperty"; "__lookupGetter__"; "__lookupSetter__";
     "isPrototypeOf"; "propertyIsEnumerable"; "toString"; "valueOf";
     "__proto__"; "toLocaleString"]%string.

(** What [o[k]] evaluates to. *)
Inductive value (V : Type) : Type :=
  | Own (v : V)                 (* the own property *)
  | Inherited (name : jsstring) (* the member of Object.prototype *)
  | Undefined.
Arguments Own {V} v.
Arguments Inherited {V} name.
Arguments Undefined {V}.

(** [o[k]] *)
Definition get {V} (o : object V) (k : jsstring) : value V :=
  match own o !! k with
  | Some v => Own v
  | None =>
      if bool_decide (k ∈ object_prototype_names) then Inherited k
      else Undefined
  end.

(** [o.hasOwnProperty(k)]: the member that [o.hasOwnProperty] finds is
    called.  Without an own property of that name it is the method of
    [Object.prototype].  An own property of that name hides the
    method; the tables hold strings and numbers, and the call of one
    throws a TypeError. *)
Definition hasOwnProperty {V} (o : object V) (k : jsstring)
  : completion bool :=
  match get o (lit "hasOwnProperty") with
  | Inherited _ => returns (bool_decide (is_Some (own o !! k)))
  | Own _ => throws TypeError
  | Undefined => throws TypeError
  end.

(** [o[k] = v] for a primitive [v] (a string or a number).  An own
    property is overwritten where it stands.  Without one the
    assignment reaches the prototype: the setter of [__proto__]
    ignores a primitive, and every other name becomes a new own
    property. *)
Definition set {V} (o : object V) (k : jsstring) (v : V) : object V :=
  match own o !! k with
  | Some _ => {| own := <[k := v]> (own o); keys := keys o |}
  | None =>
      if bool_decide (k = lit "__proto__") then o
      else {| own := <[k := v]> (own o); keys := insert_key k (keys o) |}
  end.

(** [Object.keys(o).length], the number of own properties. *)
Definition keys_length {V} (o : object V) : N := N.of_nat (size (own o)).

End JsObject.

(** ** JSON texts *)

Module JSON.
Import JsString.

Definition hex_digit (d : N) : N :=
  if d <? 10 then 0x30 + d else 0x61 + (d - 10).

(** UnicodeEscape: a backslash, the letter u and four hexadecimal
    digits in lower case. *)
Definition UnicodeEscape (c : N) : jsstring :=
  [0x5C; 0x75; hex_digit (c / 0x1000 mod 0x10); hex_digit (c / 0x100 mod 0x10);
   hex_digit (c / 0x10 mod 0x10); hex_digit (c mod 0x10)].

(** One code point inside a JSON string: the two-character escapes,
    the Unicode escape for the other control characters and for an
    unpaired surrogate, and the code point itself otherwise. *)
Definition quote_code_point (c : N) : jsstring :=
  if c =? 0x08 then [0x5C; 0x62]
  else if c =? 0x09 then [0x5C; 0x74]
  else if c =? 0x0A then [0x5C; 0x6E]
  else if c =? 0x0C then [0x5C; 0x66]
  else if c =? 0x0D then [0x5C; 0x72]
  else if c =? 0x22 then [0x5C; 0x22]
  else if c =? 0x5C then [0x5C; 0x5C]
  else if (c <? 0x20) || is_surrogate c then UnicodeEscape c
  else utf16_encode c.

(** QuoteJSONString *)
Definition QuoteJSONString (value : jsstring) : jsstring :=
  [0x22] ++ flat_map quote_code_point (code_points value) ++ [0x22].

Fixpoint digits (d : Decimal.uint) : jsstring :=
  match d with
  | Decimal.Nil => []
  | Decimal.D0 d' => 0x30 :: digits d'
  | Decimal.D1 d' => 0x31 :: digits d'
  | Decimal.D2 d' => 0x32 :: digits d'
  | Decimal.D3 d' => 0x33 :: digits d'
  | Decimal.D4 d' => 0x34 :: digits d'
  | Decimal.D5 d' => 0x35 :: digits d'
  | Decimal.D6 d' => 0x36 :: digits d'
  | Decimal.D7 d' => 0x37 :: digits d'
  | Decimal.D8 d' => 0x38 :: digits d'
  | Decimal.D9 d' => 0x39 :: digits d'
  end.

(** An index of [vocab]: the decimal digits of the integer. *)
Definition number (n : N) : jsstring := digits (N.to_uint n).

(** The pieces of an array or of an object, with commas between. *)
Fixpoint join (pieces : list jsstring) : jsstring :=
  match pieces with
  | [] => []
  | [piece] => piece
  | piece :: rest => piece ++ [0x2C] ++ join rest
  end.

Definition array (elements : list jsstring) : jsstring :=
  [0x5B] ++ join elements ++ [0x5D].

Definition member (name value : jsstring) : jsstring :=
  QuoteJSONString name ++ [0x3A] ++ value.

Definition object_literal (members : list jsstring) : jsstring :=
  [0x7B] ++ join members ++ [0x7D].

(** A table: its own properties in the order of its keys. *)
Definition table {V} (serialize : V -> jsstring) (o : JsObject.object V)
  : jsstring :=
  object_literal
    (omap
       (fun k => (fun v => member k (serialize v)) <$> JsObject.own o !! k)
       (JsObject.keys o)).

End JSON.

(** ** Sets *)

Module JsSet.
Import JsString.

(** A [Set] of strings: its elements in insertion order. *)
Abbreviation set := (list (list N)).

Definition has (s : set) (x : jsstring) : bool := bool_decide (x ∈ s).

Definition add (s : set) (x : jsstring) : set :=
  if has s x then s else s ++ [x].

(** [new Set(array)] *)
Definition from_array (a : list jsstring) : set := fold_left add a [].

(** [Array.from(set)] *)
Definition to_array (s : set) : list jsstring := s.

End JsSet.

(** ** The gatekeeper (n-gram version) *)

Module Gatekeeper.
Import JsString Js.

Inductive Category : Set := simple | complex.

#[export] Instance Category_eq_dec : EqDecision Category.
Proof. solve_decision. Defined.

(** An element of [brain.memory]. *)
Record MemoryRecord : Set := { input : jsstring; category : Category }.

#[export] Instance MemoryRecord_eq_dec : EqDecision MemoryRecord.
Proof. solve_decision. Defined.

Record Brain : Type := {
  vocab : JsObject.object N;
  simpleVocab : JsSet.set;
  simpleNgrams : JsSet.set;
  categories : list Category;
  simpleResponses : JsObject.object jsstring;
  memory : list MemoryRecord
}.

(** The record kept under the key ['gatekeeper_brain_v1_multi'] of
    localStorage, as [JSON.parse] returns it: the Brain with its two
    sets as arrays.  A record written before a set was introduced
    lacks that field. *)
Record StoredBrain : Type := {
  stored_vocab : JsObject.object N;
  stored_simpleVocab : option (list jsstring);
  stored_simpleNgrams : option (list jsstring);
  stored_categories : list Category;
  stored_simpleResponses : JsObject.object jsstring;
  stored_memory : list MemoryRecord
}.

(** The state the functions work on: the [gatekeeper] object and the
    localStorage slot ([None] when [getItem] returns [null]). *)
Record State : Type := {
  brain : Brain;
  isInitialized : bool;
  savedBrain : option StoredBrain
}.

Definition set_vocab (v : JsObject.object N) (b : Brain) : Brain :=
  {| vocab := v; simpleVocab := simpleVocab b; simpleNgrams := simpleNgrams b;
     categories := categories b; simpleResponses := simpleResponses b;
     memory := memory b |}.

Definition set_simpleVocab (s : JsSet.set) (b : Brain) : Brain :=
  {| vocab := vocab b; simpleVocab := s; simpleNgrams := simpleNgrams b;
     categories := categories b; simpleResponses := simpleResponses b;
     memory := memory b |}.

Definition set_simpleNgrams (s : JsSet.set) (b : Brain) : Brain :=
  {| vocab := vocab b; simpleVocab := simpleVocab b; simpleNgrams := s;
     categories := categories b; simpleResponses := simpleResponses b;
     memory := memory b |}.

Definition set_simpleResponses (r : JsObject.object jsstring) (b : Brain)
  : Brain :=
  {| vocab := vocab b; simpleVocab := simpleVocab b;
     simpleNgrams := simpleNgrams b; categories := categories b;
     simpleResponses := r; memory := memory b |}.

Definition set_memory (m : list MemoryRecord) (b : Brain) : Brain :=
  {| vocab := vocab b; simpleVocab := simpleVocab b;
     simpleNgrams := simpleNgrams b; categories := categories b;
     simpleResponses := simpleResponses b; memory := m |}.

Definition set_brain (b : Brain) (g : State) : State :=
  {| brain := b; isInitialized := isInitialized g;
     savedBrain := savedBrain g |}.

(** The object literal of the script, next to what localStorage holds
    when the page loads. *)
Definition on_page_load (slot : option StoredBrain) : State :=
  {| brain := {| vocab := JsObject.empty; simpleVocab := [];
                 simpleNgrams := []; categories := [simple; complex];
                 simpleResponses := JsObject.empty; memory := [] |};
     isInitialized := false;
     savedBrain := slot |}.

(** [text.toLowerCase().replace(/[.,!?;:]/g, '').trim()] *)
Definition _normalizeText (text : jsstring) : jsstring :=
  trim (remove_sentence_punctuation (toLowerCase text)).

(** [w => w.length > 0], and the truthiness of a string. *)
Definition non_empty (w : jsstring) : bool := (0 <? length w)%nat.

(** [normalizedText.split(/\s+/).filter(w => w.length > 0)] *)
Definition split_words (normalizedText : jsstring) : list jsstring :=
  List.filter non_empty (split_whitespace normalizedText).

(** [words[i]]; the loops below stay inside the array. *)
Definition word_at (words : list jsstring) (i : nat) : jsstring :=
  default [] (words !! i).

(** The template literal [`${words[i]} ${words[i+1]}`]. *)
Definition bigram_at (words : list jsstring) (i : nat) : jsstring :=
  word_at words i ++ [0x20] ++ word_at words (i + 1).

(** The callback of [forEach] in [_updateVocab]; it touches
    [brain.vocab] only.  The call of [hasOwnProperty] is made for a
    non-empty word, and its exception leaves the callback. *)
Definition register_word (vocab : JsObject.object N) (word : jsstring)
  : run (JsObject.object N) unit :=
  if non_empty word then
    match JsObject.hasOwnProperty vocab word with
    | returns registered =>
        if negb registered
        then Run (JsObject.set vocab word (JsObject.keys_length vocab))
               (returns tt)
        else Run vocab (returns tt)
    | throws e => Run vocab (throws e)
    end
  else Run vocab (returns tt).

Definition _updateVocab (text : jsstring) (b : Brain) : run Brain unit :=
  let registered := forEach register_word (split_whitespace text) (vocab b) in
  Run (set_vocab (after registered) b) (outcome registered).

(** [{ ...this.brain, simpleVocab: Array.from(...), simpleNgrams:
    Array.from(...) }] *)
Definition brainToSave (b : Brain) : StoredBrain :=
  {| stored_vocab := vocab b;
     stored_simpleVocab := Some (JsSet.to_array (simpleVocab b));
     stored_simpleNgrams := Some (JsSet.to_array (simpleNgrams b));
     stored_categories := categories b;
     stored_simpleResponses := simpleResponses b;
     stored_memory := memory b |}.

Definition category_name (c : Category) : jsstring :=
  match c with simple => lit "simple" | complex => lit "complex" end.

(** [JSON.stringify(brainToSave)], the text that [setItem] receives.
    The members come in the order of the properties of [this.brain],
    which the spread syntax keeps; a set that the record lacks has no
    member. *)
Definition JSON_stringify (brainToSave : StoredBrain) : jsstring :=
  let strings a := JSON.array (map JSON.QuoteJSONString a) in
  JSON.object_literal
    ([JSON.member (lit "vocab")
        (JSON.table JSON.number (stored_vocab brainToSave))]
     ++ match stored_simpleVocab brainToSave with
        | Some a => [JSON.member (lit "simpleVocab") (strings a)]
        | None => []
        end
     ++ match stored_simpleNgrams brainToSave with
        | Some a => [JSON.member (lit "simpleNgrams") (strings a)]
        | None => []
        end
     ++ [JSON.member (lit "categories")
           (strings (map category_name (stored_categories brainToSave)));
         JSON.member (lit "simpleResponses")
           (JSON.table JSON.QuoteJSONString
              (stored_simpleResponses brainToSave));
         JSON.member (lit "memory")
           (JSON.array
              (map
                 (fun mem =>
                    JSON.object_literal
                      [JSON.member (lit "input")
                         (JSON.QuoteJSONString (input mem));
                       JSON.member (lit "category")
                         (JSON.QuoteJSONString
                            (category_name (category mem)))])
                 (stored_memory brainToSave)))]).

Definition _saveBrain (g : State) : State :=
  {| brain := brain g; isInitialized := isInitialized g;
     savedBrain := Some (brainToSave (brain g)) |}.


(** [words.forEach(word => simpleVocab.add(word))] and the loop
    [for (let i = 0; i < words.length - 1; i++)] that adds the bigrams,
    run when [words.length > 1]. *)
Definition add_words (words : list jsstring) (b : Brain) : Brain :=
  set_simpleVocab (fold_left JsSet.add words (simpleVocab b)) b.

Definition add_bigrams (words : list jsstring) (b : Brain) : Brain :=
  if (1 <? length words)%nat then
    set_simpleNgrams
      (fold_left (fun ngrams i => JsSet.add ngrams (bigram_at words i))
         (seq 0 (length words - 1)) (simpleNgrams b)) b
  else b.

(** [newResponse] is [None] for [null] (the default); the empty
    string is falsy like [null].  When [_updateVocab] throws, the call
    ends there: [memory] is not reached and nothing is saved, while
    what the branch for [simple] wrote stays. *)
Definition learnFromFeedback (text : jsstring) (correctCategory : Category)
    (newResponse : option jsstring) (g : State) : run State unit :=
  let normalizedText := _normalizeText text in
  let words := split_words normalizedText in
  let b := brain g in
  let b :=
    match correctCategory with
    | simple =>
        let b :=
          match newResponse with
          | Some response =>
              if non_empty response then
                set_simpleResponses
                  (JsObject.set (simpleResponses b) normalizedText response) b
              else b
          | None => b
          end in
        add_bigrams words (add_words words b)
    | complex => b
    end in
  let updated := _updateVocab normalizedText b in
  match outcome updated with
  | throws e => Run (set_brain (after updated) g) (throws e)
  | returns _ =>
      let b := after updated in
      let b :=
        if existsb (fun mem => bool_decide (input mem = normalizedText))
             (memory b)
        then b
        else set_memory
               (memory b ++ [{| input := normalizedText;
                                category := correctCategory |}]) b in
      Run (_saveBrain (set_brain b g)) (returns tt)
  end.

(** [for (const word of words)]: the first word that [simpleVocab]
    lacks, where the loop returns. *)
Fixpoint unknown_word_loop (known : JsSet.set) (words : list jsstring)
  : option jsstring :=
  match words with
  | [] => None
  | word :: rest =>
      if negb (JsSet.has known word) then Some word
      else unknown_word_loop known rest
  end.

(** [for (let i = 0; i < words.length - 1; i++)], entered at [i] with
    [iterations] rounds to go: the first bigram that [simpleNgrams]
    lacks. *)
Fixpoint unknown_bigram_loop (known : JsSet.set) (words : list jsstring)
    (i iterations : nat) : option jsstring :=
  match iterations with
  | O => None
  | S iterations' =>
      let bigram := bigram_at words i in
      if negb (JsSet.has known bigram) then Some bigram
      else unknown_bigram_loop known words (S i) iterations'
  end.

(** [classify], one [returns] for each [return] of the source.  The
    two loops leave with the word or the bigram that is logged. *)
Definition classify (text : jsstring) (g : State) : completion Category :=
  if negb (isInitialized g) then returns complex else
  let normalizedText := _normalizeText text in
  match
    JsObject.hasOwnProperty (simpleResponses (brain g)) normalizedText
  with
  | throws e => throws e
  | returns true => returns simple
  | returns false =>
      let words := split_words normalizedText in
      if (length words =? 0)%nat then returns simple else
      match unknown_word_loop (simpleVocab (brain g)) words with
      | Some word => returns complex
      | None =>
          match
            if (1 <? length words)%nat
            then unknown_bigram_loop (simpleNgrams (brain g)) words 0
                   (length words - 1)
            else None
          with
          | Some bigram => returns complex
          | None => returns simple
          end
      end
  end.

(** What [getSimpleResponse] returns: a string, or the member of
    [Object.prototype] found under the name of the phrase. *)
Inductive Response : Set :=
  | Text (s : jsstring)
  | PrototypeMember (name : jsstring).

(** [this.brain.simpleResponses[normalizedText] || "Okay!"] *)
Definition getSimpleResponse (text : jsstring) (g : State) : Response :=
  let normalizedText := _normalizeText text in
  match JsObject.get (simpleResponses (brain g)) normalizedText with
  | JsObject.Own response =>
      if non_empty response then Text response else Text (lit "Okay!")
  | JsObject.Inherited name => PrototypeMember name
  | JsObject.Undefined => Text (lit "Okay!")
  end.

(** An entry of the array [initialMemory]. *)
Inductive SeedEntry : Set :=
  | Simple (input response : string)
  | Complex (input : string).

Definition seed_input (mem : SeedEntry) : string :=
  match mem with Simple i _ => i | Complex i => i end.

Definition seed_category (mem : SeedEntry) : Category :=
  match mem with Simple _ _ => simple | Complex _ => complex end.

Definition initialMemory : list SeedEntry :=
  [ Simple "hello" "Hello there!";
    Simple "hi" "Hi!";
    Simple "hey" "Hey!";
    Simple "hello there" "Hello to you too!";
    Simple "how are you" "I'm doing great, thanks for asking!";
    Simple "thanks" "You're welcome!";
    Simple "thank you" "Happy to help!";
    Simple "thx" "Anytime!";
    Simple "ty" "No problem!";
    Simple "ok" "Got it.";
    Simple "okay" "Alright.";
    Simple "bye" "See you later!";
    Simple "goodbye" "Goodbye!";
    Simple "привет" "Приветствую!";
    Simple "здравствуй" "Здравствуйте!";
    Simple "как дела" "Все отлично, спасибо!";
    Simple "спасибо" "Пожалуйста!";
    Simple "благодарю" "Рад помочь!";
    Simple "спс" "Не за что!";
    Simple "пока" "До скорой встречи!";
    Simple "хорошо" "Отлично!";
    Simple "ок" "Принято.";
    Complex "tell me a joke";
    Complex "what is the weather in london";
    Complex "расскажи анекдот";
    Complex "кто такой исаак ньютон";
    Complex "compare javascript and python" ]%string.

(** The body of [initialMemory.forEach]: the record is pushed before
    [_updateVocab] is called. *)
Definition prepare_entry (b : Brain) (mem : SeedEntry) : run Brain unit :=
  let normalizedInput := _normalizeText (lit (seed_input mem)) in
  let b :=
    set_memory
      (memory b ++ [{| input := normalizedInput;
                       category := seed_category mem |}]) b in
  let updated := _updateVocab normalizedInput b in
  match outcome updated with
  | throws e => Run (after updated) (throws e)
  | returns _ =>
      let b := after updated in
      match mem with
      | Simple _ response =>
          let b :=
            set_simpleResponses
              (JsObject.set (simpleResponses b) normalizedInput (lit response))
              b in
          let words := split_words normalizedInput in
          Run (add_bigrams words (add_words words b)) (returns tt)
      | Complex _ => Run b (returns tt)
      end
  end.

Definition _prepareInitialBrain (b : Brain) : run Brain unit :=
  forEach prepare_entry initialMemory b.

(** [init].  An exception of [_prepareInitialBrain] ends it before
    the flag is set and before anything is saved. *)
Definition init (g : State) : run State unit :=
  let b := set_simpleNgrams [] (set_simpleVocab [] (brain g)) in
  let prepared :=
    match savedBrain g with
    | Some loadedBrain =>
        let b := set_vocab (stored_vocab loadedBrain) b in
        let b := set_simpleResponses (stored_simpleResponses loadedBrain) b in
        let b := set_memory (stored_memory loadedBrain) b in
        let b :=
          set_simpleVocab
            (JsSet.from_array (default [] (stored_simpleVocab loadedBrain)))
            b in
        Run
          (set_simpleNgrams
             (JsSet.from_array (default [] (stored_simpleNgrams loadedBrain)))
             b)
          (returns tt)
    | None => _prepareInitialBrain b
    end in
  match outcome prepared with
  | throws e => Run (set_brain (after prepared) g) (throws e)
  | returns _ =>
      Run (_saveBrain {| brain := after prepared; isInitialized := true;
                         savedBrain := savedBrain g |})
        (returns tt)
  end.

End Gatekeeper.

(** ** The earlier gatekeeper, without bigrams *)

Module Legacy.
Import JsString Js Gatekeeper.

(** [classify] of the first version of gatekeeper.js, on the same
    state; it never reads [simpleNgrams]. *)
Definition classify (text : jsstring) (g : State) : completion Category :=
  if negb (isInitialized g) then returns complex else
  let normalizedText := _normalizeText text in
  match
    JsObject.hasOwnProperty (simpleResponses (brain g)) normalizedText
  with
  | throws e => throws e
  | returns true => returns simple
  | returns false =>
      let words := split_words normalizedText in
      if (length words =? 0)%nat then returns simple else
      match unknown_word_loop (simpleVocab (brain g)) words with
      | Some word => returns complex
      | None => returns simple
      end
  end.

(** The rest of the first version.  Its Brain has no [simpleNgrams];
    on the shared state that field is never read nor written, and the
    record it saves lacks it.  [_normalizeText], [_updateVocab] and
    [getSimpleResponse] are the same in both versions. *)
Definition brainToSave (b : Brain) : StoredBrain :=
  {| stored_vocab := vocab b;
     stored_simpleVocab := Some (JsSet.to_array (simpleVocab b));
     stored_simpleNgrams := None;
     stored_categories := categories b;
     stored_simpleResponses := simpleResponses b;
     stored_memory := memory b |}.

Definition _saveBrain (g : State) : State :=
  {| brain := brain g; isInitialized := isInitialized g;
     savedBrain := Some (brainToSave (brain g)) |}.

Definition learnFromFeedback (text : jsstring) (correctCategory : Category)
    (newResponse : option jsstring) (g : State) : run State unit :=
  let normalizedText := _normalizeText text in
  let words := split_words normalizedText in
  let b := brain g in
  let b :=
    match correctCategory with
    | simple =>
        let b :=
          match newResponse with
          | Some response =>
              if non_empty response then
                set_simpleResponses
                  (JsObject.set (simpleResponses b) normalizedText response) b
              else b
          | None => b
          end in
        add_words words b
    | complex => b
    end in
  let updated := _updateVocab normalizedText b in
  match outcome updated with
  | throws e => Run (set_brain (after updated) g) (throws e)
  | returns _ =>
      let b := after updated in
      let b :=
        if existsb (fun mem => bool_decide (input mem = normalizedText))
             (memory b)
        then b
        else set_memory
               (memory b ++ [{| input := normalizedText;
                                category := correctCategory |}]) b in
      Run (_saveBrain (set_brain b g)) (returns tt)
  end.

Definition prepare_entry (b : Brain) (mem : SeedEntry) : run Brain unit :=
  let normalizedInput := _normalizeText (lit (seed_input mem)) in
  let b :=
    set_memory
      (memory b ++ [{| input := normalizedInput;
                       category := seed_category mem |}]) b in
  let updated := _updateVocab normalizedInput b in
  match outcome updated with
  | throws e => Run (after updated) (throws e)
  | returns _ =>
      let b := after updated in
      match mem with
      | Simple _ response =>
          let b :=
            set_simpleResponses
              (JsObject.set (simpleResponses b) normalizedInput (lit response))
              b in
          Run (add_words (split_words normalizedInput) b) (returns tt)
      | Complex _ => Run b (returns tt)
      end
  end.

Definition _prepareInitialBrain (b : Brain) : run Brain unit :=
  forEach prepare_entry initialMemory b.

Definition init (g : State) : run State unit :=
  let b := set_simpleVocab [] (brain g) in
  let prepared :=
    match savedBrain g with
    | Some loadedBrain =>
        let b := set_vocab (stored_vocab loadedBrain) b in
        let b := set_simpleResponses (stored_simpleResponses loadedBrain) b in
        let b := set_memory (stored_memory loadedBrain) b in
        Run
          (set_simpleVocab
             (JsSet.from_array (default [] (stored_simpleVocab loadedBrain)))
             b)
          (returns tt)
    | None => _prepareInitialBrain b
    end in
  match outcome prepared with
  | throws e => Run (set_brain (after prepared) g) (throws e)
  | returns _ =>
      Run (_saveBrain {| brain := after prepared; isInitialized := true;
                         savedBrain := savedBrain g |})
        (returns tt)
  end.

End Legacy.

(** ** The rule hierarchy as the specification words it *)

Module Spec.
Import JsString Gatekeeper.




End Spec.

(** ** Sessions *)

Module Session.
Import JsString Js Gatekeeper.

(** One call of [learnFromFeedback]. *)
Record Feedback : Set := {
  fb_text : jsstring;
  fb_category : Category;
  fb_response : option jsstring
}.

(** The gatekeeper after the call, however the call ended. *)
Definition learn (g : State) (e : Feedback) : State :=
  after (learnFromFeedback (fb_text e) (fb_category e) (fb_response e) g).

(** The Brain bootstrapped from the seed phrases: [init] with nothing
    in localStorage. *)
Definition seed_state : State := after (init (on_page_load None)).

(** The states a user can bring about: the first page load, feedback,
    and a later page load that finds what the last one left. *)
Inductive reachable : State -> Prop :=
  | reach_seed : reachable seed_state
  | reach_learn g e : reachable g -> reachable (learn g e)
  | reach_reload g :
      reachable g -> reachable (after (init (on_page_load (savedBrain g)))).

(** The words of the phrases taught as simple: the seed phrases and
    the feedback labelled [simple]. *)
Definition seed_simple_words : list jsstring :=
  flat_map
    (fun mem =>
       match mem with
       | Simple i _ => split_words (_normalizeText (lit i))
       | Complex _ => []
       end)
    initialMemory.

Definition feedback_simple_words (events : list Feedback) : list jsstring :=
  flat_map
    (fun e =>
       match fb_category e with
       | simple => split_words (_normalizeText (fb_text e))
       | complex => []
       end)
    events.

(** The responses that a run of feedback stores under the phrase
    [phrase]: those of the calls labelled [simple] with a non-empty
    response whose text normalizes to it. *)
Definition replies_to (phrase : jsstring) (events : list Feedback)
  : list jsstring :=
  flat_map
    (fun e =>
       match fb_category e, fb_response e with
       | simple, Some response =>
           if non_empty response
              && bool_decide (_normalizeText (fb_text e) = phrase)
           then [response] else []
       | _, _ => []
       end)
    events.

(** The label of the first call of a run whose text normalizes to
    [phrase]. *)
Definition first_label (phrase : jsstring) (events : list Feedback)
  : option Category :=
  fb_category
    <$> List.find (fun e => bool_decide (_normalizeText (fb_text e) = phrase))
          events.

End Session.

(** ** The stub of the server model (api.js) *)

Module ServerLLM.
Import JsString Gatekeeper.

Record LearningInstruction : Set := {
  command : jsstring;
  query : jsstring;
  response : jsstring
}.

(** What [getResponse] resolves to; [learningInstruction] is [None]
    for [null]. *)
Record ServerData : Set := {
  userResponse : jsstring;
  learningInstruction : option LearningInstruction
}.

(** [serverLLM.getResponse], without the simulated delay.  The stub
    normalizes the query with the same expression as the gatekeeper
    and recognizes the one phrase "thx". *)
Definition getResponse (query : jsstring) : ServerData :=
  let normalizedQuery :=
    trim (remove_sentence_punctuation (toLowerCase query)) in
  if bool_decide (normalizedQuery = lit "thx") then
    {| userResponse := lit "You're welcome!";
       learningInstruction :=
         Some {| command := lit "LEARN_SIMPLE_PHRASE";
                 query := normalizedQuery;
                 response := lit "You're welcome!" |} |}
  else
    {| userResponse :=
         lit "This is a detailed response from the large model for your query: "
         ++ [0x22] ++ query ++ [0x22]
         ++ lit ". In a commercial version, this would be meaningful text.";
       learningInstruction := None |}.

End ServerLLM.

(** ** The page controller (main.js) *)

Module Main.
Import JsString Js Gatekeeper.

Inductive Sender : Set := user | bot | system.

(** A message appended to the chat: who sent it and the value
    assigned to its [textContent]. *)
Record Message : Set := { sender : Sender; text : Response }.

(** The closure variable [lastQuery]; its [decision] starts as the
    empty string, [None] here. *)
Record LastQuery : Set := {
  query_text : jsstring;
  decision : option Category
}.

(** The gatekeeper, the closure variables of the controller and the
    state of the elements it reads and writes. *)
Record Page : Type := {
  gatekeeper : State;
  lastQuery : LastQuery;
  isBotThinking : bool;
  userInput : jsstring;          (* ui.userInput.value *)
  responseInput : jsstring;      (* ui.responseInput.value *)
  sendBtn_disabled : bool;
  chat : list Message;           (* the children of ui.chatContainer *)
  feedback_hidden : bool;        (* class 'hidden' of ui.feedbackContainer *)
  teach_hidden : bool;           (* class 'hidden' of ui.teachContainer *)
  feedbackQuery : jsstring;      (* textContent of ui.feedbackQuery *)
  feedbackDecision : jsstring;
  teachQuery : jsstring
}.

Definition set_gatekeeper (g : State) (p : Page) : Page :=
  {| gatekeeper := g; lastQuery := lastQuery p;
     isBotThinking := isBotThinking p; userInput := userInput p;
     responseInput := responseInput p;
     sendBtn_disabled := sendBtn_disabled p; chat := chat p;
     feedback_hidden := feedback_hidden p; teach_hidden := teach_hidden p;
     feedbackQuery := feedbackQuery p;
     feedbackDecision := feedbackDecision p; teachQuery := teachQuery p |}.

Definition set_lastQuery (q : LastQuery) (p : Page) : Page :=
  {| gatekeeper := gatekeeper p; lastQuery := q;
     isBotThinking := isBotThinking p; userInput := userInput p;
     responseInput := responseInput p;
     sendBtn_disabled := sendBtn_disabled p; chat := chat p;
     feedback_hidden := feedback_hidden p; teach_hidden := teach_hidden p;
     feedbackQuery := feedbackQuery p;
     feedbackDecision := feedbackDecision p; teachQuery := teachQuery p |}.

(** [isBotThinking = v; ui.sendBtn.disabled = v] *)
Definition set_thinking (v : bool) (p : Page) : Page :=
  {| gatekeeper := gatekeeper p; lastQuery := lastQuery p;
     isBotThinking := v; userInput := userInput p;
     responseInput := responseInput p;
     sendBtn_disabled := v; chat := chat p;
     feedback_hidden := feedback_hidden p; teach_hidden := teach_hidden p;
     feedbackQuery := feedbackQuery p;
     feedbackDecision := feedbackDecision p; teachQuery := teachQuery p |}.

Definition set_userInput (v : jsstring) (p : Page) : Page :=
  {| gatekeeper := gatekeeper p; lastQuery := lastQuery p;
     isBotThinking := isBotThinking p; userInput := v;
     responseInput := responseInput p;
     sendBtn_disabled := sendBtn_disabled p; chat := chat p;
     feedback_hidden := feedback_hidden p; teach_hidden := teach_hidden p;
     feedbackQuery := feedbackQuery p;
     feedbackDecision := feedbackDecision p; teachQuery := teachQuery p |}.

Definition set_responseInput (v : jsstring) (p : Page) : Page :=
  {| gatekeeper := gatekeeper p; lastQuery := lastQuery p;
     isBotThinking := isBotThinking p; userInput := userInput p;
     responseInput := v;
     sendBtn_disabled := sendBtn_disabled p; chat := chat p;
     feedback_hidden := feedback_hidden p; teach_hidden := teach_hidden p;
     feedbackQuery := feedbackQuery p;
     feedbackDecision := feedbackDecision p; teachQuery := teachQuery p |}.

Definition appendMessage (who : Sender) (content : Response) (p : Page)
  : Page :=
  {| gatekeeper := gatekeeper p; lastQuery := lastQuery p;
     isBotThinking := isBotThinking p; userInput := userInput p;
     responseInput := responseInput p;
     sendBtn_disabled := sendBtn_disabled p;
     chat := chat p ++ [{| sender := who; text := content |}];
     feedback_hidden := feedback_hidden p; teach_hidden := teach_hidden p;
     feedbackQuery := feedbackQuery p;
     feedbackDecision := feedbackDecision p; teachQuery := teachQuery p |}.

Definition hideAllPanels (p : Page) : Page :=
  {| gatekeeper := gatekeeper p; lastQuery := lastQuery p;
     isBotThinking := isBotThinking p; userInput := userInput p;
     responseInput := responseInput p;
     sendBtn_disabled := sendBtn_disabled p; chat := chat p;
     feedback_hidden := true; teach_hidden := true;
     feedbackQuery := feedbackQuery p;
     feedbackDecision := feedbackDecision p; teachQuery := teachQuery p |}.

Definition showFeedbackPanel (p : Page) : Page :=
  {| gatekeeper := gatekeeper p; lastQuery := lastQuery p;
     isBotThinking := isBotThinking p; userInput := userInput p;
     responseInput := responseInput p;
     sendBtn_disabled := sendBtn_disabled p; chat := chat p;
     feedback_hidden := false; teach_hidden := teach_hidden p;
     feedbackQuery := query_text (lastQuery p);
     feedbackDecision :=
       match decision (lastQuery p) with
       | Some simple => lit "SIMPLE"
       | _ => lit "COMPLEX"
       end;
     teachQuery := teachQuery p |}.

(** [ui.teachQuery.textContent = lastQuery.text] and the teach panel
    shown. *)
Definition showTeachPanel (p : Page) : Page :=
  {| gatekeeper := gatekeeper p; lastQuery := lastQuery p;
     isBotThinking := isBotThinking p; userInput := userInput p;
     responseInput := responseInput p;
     sendBtn_disabled := sendBtn_disabled p; chat := chat p;
     feedback_hidden := feedback_hidden p; teach_hidden := false;
     feedbackQuery := feedbackQuery p;
     feedbackDecision := feedbackDecision p;
     teachQuery := query_text (lastQuery p) |}.

(** The system message of [handleIncorrectFeedback]. *)
Definition understood : jsstring :=
  lit "Understood! I will now send similar requests to the server.".

(** The branch of [handleSendMessage] taken when the gatekeeper
    forwards the query: the bot message ends up holding the answer of
    the server, and a learning instruction, when there is one, is
    carried out. *)
Definition ask_server (userText : jsstring) (p : Page) : run Page unit :=
  let serverData := ServerLLM.getResponse userText in
  let p := appendMessage bot (Text (ServerLLM.userResponse serverData)) p in
  match ServerLLM.learningInstruction serverData with
  | Some instruction =>
      if bool_decide
           (ServerLLM.command instruction = lit "LEARN_SIMPLE_PHRASE")
      then
        let p :=
          appendMessage system
            (Text
               (lit "Received instruction from server: learning to respond to "
                ++ [0x22] ++ ServerLLM.query instruction ++ [0x22])) p in
        let learnt :=
          learnFromFeedback (ServerLLM.query instruction) simple
            (Some (ServerLLM.response instruction)) (gatekeeper p) in
        Run (set_gatekeeper (after learnt) p) (outcome learnt)
      else Run (showFeedbackPanel p) (returns tt)
  | None => Run (showFeedbackPanel p) (returns tt)
  end.

(** [handleSendMessage], from the click to the end of the handler.
    While it waits for the server [isBotThinking] is set and both
    panels are hidden, so no other handler changes the page in
    between.  An exception of [classify] or of [learnFromFeedback]
    ends the handler where it is raised: [isBotThinking] stays set. *)
Definition handleSendMessage (p : Page) : Page :=
  let userText := trim (userInput p) in
  if negb (non_empty userText) || isBotThinking p then p else
  let p := set_thinking true p in
  let p := set_userInput [] p in
  let p := hideAllPanels p in
  let p := appendMessage user (Text userText) p in
  match classify userText (gatekeeper p) with
  | throws _ => p
  | returns decision =>
      let p :=
        set_lastQuery {| query_text := userText; decision := Some decision |}
          p in
      match decision with
      | simple =>
          let simpleResponse := getSimpleResponse userText (gatekeeper p) in
          set_thinking false
            (showFeedbackPanel (appendMessage bot simpleResponse p))
      | complex =>
          let asked := ask_server userText p in
          match outcome asked with
          | returns _ => set_thinking false (after asked)
          | throws _ => after asked
          end
      end
  end.

(** The call of [learnFromFeedback] is not awaited, and nothing
    follows it. *)
Definition handleIncorrectFeedback (p : Page) : Page :=
  let p := hideAllPanels p in
  let correctDecision :=
    match decision (lastQuery p) with
    | Some simple => complex
    | _ => simple
    end in
  match correctDecision with
  | simple => showTeachPanel p
  | complex =>
      let p := appendMessage system (Text understood) p in
      set_gatekeeper
        (after
           (learnFromFeedback (query_text (lastQuery p)) complex None
              (gatekeeper p))) p
  end.

Definition handleTeachNewResponse (p : Page) : Page :=
  let query := teachQuery p in
  let newResponse := trim (responseInput p) in
  if negb (non_empty newResponse) then p else
  let p := hideAllPanels p in
  let p :=
    appendMessage system
      (Text (lit "Got it! Learning a new response for the phrase: "
             ++ [0x22] ++ query ++ [0x22])) p in
  let learnt :=
    learnFromFeedback query simple (Some newResponse) (gatekeeper p) in
  let p := set_gatekeeper (after learnt) p in
  match outcome learnt with
  | returns _ => set_responseInput [] p
  | throws _ => p
  end.

(** The click on the confirm button. *)
Definition handleCorrectFeedback (p : Page) : Page := hideAllPanels p.

End Main.

(** ** Tensors from nested arrays (slmnet.js) *)

Module Tensor.

(** A value handed to [Tensor.from]: a number or an array of such
    values.  The numbers are of any type [A]; shapes and sizes do not
    depend on them. *)
#[warnings="-register-all"]
Inductive nested (A : Type) : Type :=
  | Item (a : A)
  | Arr (items : list (nested A)).
Arguments Item {A} a.
Arguments Arr {A} items.

(** The [while] loop of [_inferShapeAndFlatten]: it follows the first
    element of each level and stops at an empty array or at a
    number. *)
Fixpoint infer_shape {A} (currentLevel : nested A) : list N :=
  match currentLevel with
  | Item _ => []
  | Arr [] => []
  | Arr ((first :: _) as items) =>
      N.of_nat (length items) :: infer_shape first
  end.

(** The inner function [flatten]. *)
Fixpoint flatten {A} (el : nested A) : list A :=
  match el with
  | Item a => [a]
  | Arr subArr => flat_map flatten subArr
  end.

(** [{ flatData, inferredShape }] *)
Definition _inferShapeAndFlatten {A} (arr : list (nested A))
  : list A * list N :=
  (flatten (Arr arr), infer_shape (Arr arr)).

(** The number of elements [Tensor.zeros(shape)] and
    [Tensor.random(shape)] allocate:
    [shape.reduce((a, b) => a * b, 1)]. *)
Definition size_of_shape (shape : list N) : N := fold_left N.mul shape 1.

End Tensor.

(** ** Notions used in the proofs *)

Module Support.
Import JsString Js Gatekeeper.

(** The name whose own property hides the method that [classify] and
    [_updateVocab] call. *)
Definition method_name : jsstring := lit "hasOwnProperty".

(** The table has an own property of that name. *)
Definition shadowed {V} (o : JsObject.object V) : bool :=
  bool_decide (is_Some (JsObject.own o !! method_name)).

(** What [register_word] does to a table on which the method is
    found. *)
Definition registered (o : JsObject.object N) (w : jsstring)
  : JsObject.object N :=
  if non_empty w && negb (bool_decide (is_Some (JsObject.own o !! w)))
  then JsObject.set o w (JsObject.keys_length o)
  else o.

(** The Brain after the first half of [learnFromFeedback], the
    branch for [simple], before [_updateVocab] is called. *)
Definition simple_branch (text : jsstring) (c : Category)
    (r : option jsstring) (b : Brain) : Brain :=
  match c with
  | simple =>
      let b :=
        match r with
        | Some response =>
            if non_empty response then
              set_simpleResponses
                (JsObject.set (simpleResponses b) (_normalizeText text)
                   response) b
            else b
        | None => b
        end in
      add_bigrams (split_words (_normalizeText text))
        (add_words (split_words (_normalizeText text)) b)
  | complex => b
  end.

(** [_updateVocab] throws on a text: [vocab] hides the method and the
    text has a word. *)
Definition update_throws (text : jsstring) (b : Brain) : bool :=
  shadowed (vocab b) && existsb non_empty (split_whitespace text).

(** A word that [register_word] leaves the table alone for: empty,
    already registered, or the name [__proto__] that assignment cannot
    create. *)
Definition settled (o : JsObject.object N) (w : jsstring) : Prop :=
  non_empty w = false
  \/ is_Some (JsObject.own o !! w)
  \/ (w = lit "__proto__" /\ JsObject.own o !! w = None).

(** A Unicode scalar value: a code point that is not a surrogate. *)
Definition scalar (cp : N) : bool :=
  (cp <? 0x110000) && negb (is_surrogate cp).

(** A code point that lower-casing leaves as it is. *)
Definition lower_stable (cp : N) : bool := UCD.simple_lowercase cp =? cp.

(** The code points a row of the lowercase table maps. *)
Definition row_domain (row : N * N * N * N) : list N :=
  let '(first, last, step, _) := row in
  map (fun k => first + N.of_nat k * step)
    (seq 0 (S (N.to_nat ((last - first) / step)))).

(** Every image of the row is a scalar value that the table maps to
    itself. *)
Definition row_closed (row : N * N * N * N) : bool :=
  forallb
    (fun cp =>
       lower_stable (UCD.row_image cp row) && scalar (UCD.row_image cp row))
    (row_domain row).

(** The indices of a vocabulary are below its size and no two words
    share one. *)
Definition dense_ids (o : JsObject.object N) : Prop :=
  forall k v, JsObject.own o !! k = Some v ->
    v < JsObject.keys_length o
    /\ forall k', JsObject.own o !! k' = Some v -> k' = k.

(** What [init] leaves behind: the flag set, the saved record in
    step with the Brain, the sets without repetition. *)
Definition in_step (g : State) : Prop :=
  isInitialized g = true
  /\ savedBrain g = Some (brainToSave (brain g))
  /\ NoDup (simpleVocab (brain g))
  /\ NoDup (simpleNgrams (brain g)).

(** The Brain of [init] once a stored record is loaded into [b]. *)
Definition loaded (r : StoredBrain) (b : Brain) : Brain :=
  {| vocab := stored_vocab r;
     simpleVocab := JsSet.from_array (default [] (stored_simpleVocab r));
     simpleNgrams := JsSet.from_array (default [] (stored_simpleNgrams r));
     categories := categories b;
     simpleResponses := stored_simpleResponses r;
     memory := stored_memory r |}.

(** The words and the adjacent pairs of every phrase with a response
    are known. *)
Definition keys_known (b : Brain) : Prop :=
  forall k, is_Some (JsObject.own (simpleResponses b) !! k) ->
    (forall w, w ∈ split_words k -> w ∈ simpleVocab b)
    /\ (forall j, (j + 1 < length (split_words k))%nat ->
              bigram_at (split_words k) j ∈ simpleNgrams b).

(** A nested array is regular for a shape when every level has the
    length the shape gives, none of them zero. *)
Fixpoint regular {A} (shape : list N) (t : Tensor.nested A) : Prop :=
  match shape with
  | [] => exists a, t = Tensor.Item a
  | n :: shape' =>
      exists items,
        t = Tensor.Arr items
        /\ N.of_nat (length items) = n /\ n <> 0
        /\ Forall (regular shape') items
  end.

(** Two states that know the same apart from bigrams. *)
Definition same_knowledge (g g' : State) : Prop :=
  vocab (brain g) = vocab (brain g')
  /\ simpleVocab (brain g) = simpleVocab (brain g')
  /\ simpleResponses (brain g) = simpleResponses (brain g')
  /\ memory (brain g) = memory (brain g')
  /\ isInitialized g = isInitialized g'.

(** A run of feedback through the first version. *)
Definition legacy_learn (g : State) (e : Session.Feedback) : State :=
  after
    (Legacy.learnFromFeedback (Session.fb_text e) (Session.fb_category e)
       (Session.fb_response e) g).

End Support.

Import JsString Js Gatekeeper Support.

(** * Properties *)

(** ** The call of [hasOwnProperty] *)

Lemma method_inherited :
  bool_decide (method_name ∈ JsObject.object_prototype_names) = true.
Proof. vm_compute. reflexivity. Qed.

(** The method of [Object.prototype] answers as long as the table has
    no own property named [hasOwnProperty]. *)
Lemma hasOwnProperty_found {V} (o : JsObject.object V) k :
  JsObject.own o !! method_name = None ->
  JsObject.hasOwnProperty o k
  = returns (bool_decide (is_Some (JsObject.own o !! k))).
Proof.
  intros Ho. unfold JsObject.hasOwnProperty, JsObject.get.
  change (lit "hasOwnProperty") with method_name.
  by rewrite Ho, method_inherited.
Qed.

(** With such a property the call throws. *)
Lemma hasOwnProperty_hidden {V} (o : JsObject.object V) k :
  is_Some (JsObject.own o !! method_name) ->
  JsObject.hasOwnProperty o k = throws TypeError.
Proof.
  intros [v Ho]. unfold JsObject.hasOwnProperty, JsObject.get.
  change (lit "hasOwnProperty") with method_name.
  by rewrite Ho.
Qed.

Lemma hasOwnProperty_shadowed {V} (o : JsObject.object V) k :
  JsObject.hasOwnProperty o k
  = if shadowed o then throws TypeError
    else returns (bool_decide (is_Some (JsObject.own o !! k))).
Proof.
  unfold shadowed. case_bool_decide as Hs.
  - by apply hasOwnProperty_hidden.
  - apply hasOwnProperty_found. by apply eq_None_not_Some.
Qed.

Lemma shadowed_false {V} (o : JsObject.object V) :
  shadowed o = false <-> JsObject.own o !! method_name = None.
Proof.
  unfold shadowed. rewrite bool_decide_eq_false. symmetry.
  apply eq_None_not_Some.
Qed.

Lemma hasOwnProperty_returns {V} (o : JsObject.object V) k answer :
  JsObject.hasOwnProperty o k = returns answer ->
  JsObject.own o !! method_name = None
  /\ answer = bool_decide (is_Some (JsObject.own o !! k)).
Proof.
  rewrite hasOwnProperty_shadowed.
  destruct (shadowed o) eqn:Hs; [done|].
  intros [= <-]. split; [by apply shadowed_false|done].
Qed.


(** ** The classifier *)

Lemma has_true s x : JsSet.has s x = true <-> x ∈ s.
Proof. unfold JsSet.has. apply bool_decide_eq_true. Qed.

Lemma has_false s x : JsSet.has s x = false <-> x ∉ s.
Proof. unfold JsSet.has. apply bool_decide_eq_false. Qed.







(** The keys of [simpleResponses] are normalized phrases in the data
    model of the specification; such a table cannot hide the method. *)
Lemma normalized_keys_found (g : State) :
  (forall k, is_Some (JsObject.own (simpleResponses (brain g)) !! k) ->
        _normalizeText k = k) ->
  JsObject.own (simpleResponses (brain g)) !! method_name = None.
Proof.
  intros Hkeys. apply eq_None_not_Some. intros Hsome.
  specialize (Hkeys _ Hsome). vm_compute in Hkeys. discriminate.
Qed.

(** The bigram gate of the specification: with the words how, are,
    you, today known and only the pairs "how are" and "are you" known,
    "how are you today" fails at the pair "you today" and "how are you"
    passes. *)
Example bigram_gate :
  let g :=
    {| brain :=
         {| vocab := JsObject.empty;
            simpleVocab := [lit "how"; lit "are"; lit "you"; lit "today"];
            simpleNgrams := [lit "how are"; lit "are you"];
            categories := [simple; complex];
            simpleResponses := JsObject.empty;
            memory := [] |};
       isInitialized := true;
       savedBrain := None |} in
  let words := split_words (_normalizeText (lit "how are you today")) in
  unknown_word_loop (simpleVocab (brain g)) words = None
  /\ unknown_bigram_loop (simpleNgrams (brain g)) words 0 3
     = Some (lit "you today")
  /\ classify (lit "how are you today") g = returns complex
  /\ classify (lit "how are you") g = returns simple.
Proof. vm_compute. done. Qed.

(** The exact-match priority of the specification: "ok thx" is a key
    of [simpleResponses] and "thx" is not a known word, yet
    "OK, THX!" is simple. *)
Example exact_match_priority :
  let g :=
    {| brain :=
         {| vocab := JsObject.empty;
            simpleVocab := [lit "ok"];
            simpleNgrams := [];
            categories := [simple; complex];
            simpleResponses :=
              JsObject.set JsObject.empty (lit "ok thx") (lit "Anytime!");
            memory := [] |};
       isInitialized := true;
       savedBrain := None |} in
  classify (lit "OK, THX!") g = returns simple
  /\ classify (lit "thx") g = returns complex.
Proof. vm_compute. done. Qed.

(** The opening of the end-to-end scenario on the seeded Brain. *)
Example seeded_hello :
  _normalizeText (lit "Hello!") = lit "hello"
  /\ classify (lit "Hello!") Session.seed_state = returns simple
  /\ getSimpleResponse (lit "Hello!") Session.seed_state
     = Text (lit "Hello there!")
  /\ classify (lit "hello world") Session.seed_state = returns complex
  /\ unknown_word_loop (simpleVocab (brain Session.seed_state))
       (split_words (_normalizeText (lit "hello world")))
     = Some (lit "world").
Proof. vm_compute. done. Qed.

(** An empty or punctuation-only query is simple and gets the
    fallback reply. *)
Example empty_query :
  split_words (_normalizeText (lit " ?!.. ")) = []
  /\ classify (lit " ?!.. ") Session.seed_state = returns simple
  /\ getSimpleResponse (lit " ?!.. ") Session.seed_state = Text (lit "Okay!").
Proof. vm_compute. done. Qed.

(** C8.  Before [init] has set [isInitialized], [classify] answers
    [complex] for every text, whatever the Brain holds. *)
Theorem classify_before_init (text : jsstring) (g : State) :
  isInitialized g = false -> classify text g = returns complex.
Proof. intros Hinit. unfold classify. by rewrite Hinit. Qed.

Lemma classify_before_init_witness :
  isInitialized (on_page_load None) = false
  /\ classify (lit "hello") (on_page_load None) = returns complex.
Proof.
  split; [reflexivity|].
  apply (classify_before_init (lit "hello") (on_page_load None)).
  reflexivity.
Defined.

(** C10.  The n-gram classifier refines the earlier one towards
    [complex]: whenever it answers [simple], the classifier without
    the bigram check answers [simple] on the same state. *)
Theorem ngram_classify_refines_legacy (text : jsstring) (g : State) :
  classify text g = returns simple -> Legacy.classify text g = returns simple.
Proof.
  unfold classify, Legacy.classify.
  destruct (negb (isInitialized g)); [done|].
  destruct (JsObject.hasOwnProperty _ _) as [[]|]; [done| |done].
  destruct (length _ =? 0)%nat; [done|].
  by destruct (unknown_word_loop _ _).
Qed.

Lemma ngram_classify_refines_legacy_witness :
  classify (lit "How are you?") Session.seed_state = returns simple
  /\ Legacy.classify (lit "How are you?") Session.seed_state = returns simple.
Proof.
  assert (H : classify (lit "How are you?") Session.seed_state
              = returns simple)
    by (vm_compute; reflexivity).
  split; [exact H|].
  exact (ngram_classify_refines_legacy _ _ H).
Defined.

(** The bigram check is what separates the two versions: known words
    in an order never taught. *)
Example legacy_accepts_unknown_order :
  Legacy.classify (lit "you are how") Session.seed_state = returns simple
  /\ classify (lit "you are how") Session.seed_state = returns complex.
Proof. vm_compute. done. Qed.

(** ** Plain objects and sets *)

Lemma set_lookup_same {V} (o : JsObject.object V) k v :
  k <> lit "__proto__" \/ is_Some (JsObject.own o !! k) ->
  JsObject.own (JsObject.set o k v) !! k = Some v.
Proof.
  intros Hk. unfold JsObject.set.
  destruct (JsObject.own o !! k) eqn:Hok.
  - apply lookup_insert_eq.
  - destruct Hk as [Hk|[? ?]]; [|done].
    rewrite bool_decide_eq_false_2 by done. apply lookup_insert_eq.
Qed.

Lemma set_lookup_other {V} (o : JsObject.object V) k k' v :
  k <> k' -> JsObject.own (JsObject.set o k v) !! k' = JsObject.own o !! k'.
Proof.
  intros Hk. unfold JsObject.set.
  destruct (JsObject.own o !! k); [by apply lookup_insert_ne|].
  case_bool_decide; [done|by apply lookup_insert_ne].
Qed.

Lemma set_subseteq {V} (o : JsObject.object V) k v :
  JsObject.own o !! k = None ->
  JsObject.own o ⊆ JsObject.own (JsObject.set o k v).
Proof.
  intros Hk. unfold JsObject.set. rewrite Hk.
  case_bool_decide; [done|by apply insert_subseteq].
Qed.

Lemma set_set {V} (o : JsObject.object V) k v :
  JsObject.set (JsObject.set o k v) k v = JsObject.set o k v.
Proof.
  unfold JsObject.set at 2 3.
  destruct (JsObject.own o !! k) eqn:Hok.
  - unfold JsObject.set. cbn [JsObject.own JsObject.keys].
    rewrite lookup_insert_eq. by rewrite insert_insert_eq.
  - case_bool_decide as Hp.
    + unfold JsObject.set. rewrite Hok. by rewrite bool_decide_eq_true_2.
    + unfold JsObject.set. cbn [JsObject.own JsObject.keys].
      rewrite lookup_insert_eq. by rewrite insert_insert_eq.
Qed.

Lemma add_elem s x y : y ∈ JsSet.add s x <-> y ∈ s \/ y = x.
Proof.
  unfold JsSet.add. destruct (JsSet.has s x) eqn:Hx.
  - apply has_true in Hx. split; [by left|]. intros [?| ->]; done.
  - rewrite elem_of_app, list_elem_of_singleton. done.
Qed.

Lemma add_present s x : x ∈ s -> JsSet.add s x = s.
Proof. intros Hx. unfold JsSet.add. by rewrite (proj2 (has_true s x) Hx). Qed.

Lemma fold_add_elem {A} (f : A -> jsstring) (l : list A) : forall s y,
  y ∈ fold_left (fun s a => JsSet.add s (f a)) l s
  <-> y ∈ s \/ y ∈ f <$> l.
Proof.
  induction l as [|a l IH]; intros s y; simpl.
  - rewrite elem_of_nil. tauto.
  - rewrite IH, add_elem, elem_of_cons. tauto.
Qed.

Lemma fold_add_present {A} (f : A -> jsstring) (l : list A) : forall s,
  (forall a, a ∈ l -> f a ∈ s) ->
  fold_left (fun s a => JsSet.add s (f a)) l s = s.
Proof.
  induction l as [|a l IH]; intros s Hs; simpl; [done|].
  rewrite add_present by (apply Hs; left).
  apply IH. intros a' Ha'. apply Hs. by right.
Qed.

Lemma add_words_elem words b y :
  y ∈ simpleVocab (add_words words b) <-> y ∈ simpleVocab b \/ y ∈ words.
Proof.
  unfold add_words. simpl.
  change (fold_left JsSet.add words (simpleVocab b))
    with (fold_left (fun s a => JsSet.add s (id a)) words (simpleVocab b)).
  rewrite fold_add_elem. by rewrite list_fmap_id.
Qed.

Lemma add_bigrams_elem words b y :
  y ∈ simpleNgrams (add_bigrams words b)
  <-> y ∈ simpleNgrams b
      \/ exists i, (i + 1 < length words)%nat /\ y = bigram_at words i.
Proof.
  unfold add_bigrams.
  destruct (1 <? length words)%nat eqn:Hlen.
  - simpl. rewrite fold_add_elem, list_elem_of_fmap.
    apply Nat.ltb_lt in Hlen.
    split; (intros [?|(i & Hi & Hy)]; [by left|right; exists i]).
    + apply elem_of_seq in Hy. split; [lia|done].
    + split; [done|]. apply elem_of_seq. lia.
  - apply Nat.ltb_ge in Hlen.
    split; [by left|]. intros [?|(i & Hi & _)]; [done|lia].
Qed.

(** ** The lowercase table *)

Lemma row_maps_domain cp row :
  UCD.row_maps cp row = true -> In cp (row_domain row).
Proof.
  destruct row as [[[first last] step] image]. unfold UCD.row_maps, row_domain.
  rewrite !andb_true_iff, !N.leb_le, N.eqb_eq. intros [[Hlo Hhi] Hmod].
  assert (Hq : (cp - first) / step <= (last - first) / step).
  { apply N.Div0.div_le_mono. lia. }
  pose proof (N.div_mod' (cp - first) step) as Hdm.
  rewrite Hmod, N.mul_comm in Hdm.
  revert Hq Hdm.
  generalize ((cp - first) / step) ((last - first) / step). intros q q' Hq Hdm.
  apply in_map_iff. exists (N.to_nat q). split.
  - rewrite N2Nat.id. lia.
  - apply in_seq. lia.
Qed.

Lemma lowercase_mapping_closed :
  forallb row_closed UCD.lowercase_mapping = true.
Proof. vm_compute. reflexivity. Qed.

Lemma simple_lowercase_image cp :
  UCD.simple_lowercase cp = cp
  \/ (lower_stable (UCD.simple_lowercase cp) = true
      /\ scalar (UCD.simple_lowercase cp) = true).
Proof.
  destruct (List.find (UCD.row_maps cp) UCD.lowercase_mapping) as [row|] eqn:Hf.
  - right.
    assert (Himg : UCD.simple_lowercase cp = UCD.row_image cp row)
      by (unfold UCD.simple_lowercase; by rewrite Hf).
    rewrite Himg.
    apply find_some in Hf as [Hrow Hmaps].
    pose proof lowercase_mapping_closed as Hc.
    rewrite forallb_forall in Hc. specialize (Hc row Hrow).
    unfold row_closed in Hc. rewrite forallb_forall in Hc.
    specialize (Hc cp (row_maps_domain cp row Hmaps)).
    by apply andb_true_iff in Hc.
  - left. unfold UCD.simple_lowercase. by rewrite Hf.
Qed.

Lemma simple_lowercase_stable cp :
  lower_stable (UCD.simple_lowercase cp) = true.
Proof.
  destruct (simple_lowercase_image cp) as [Hfix|[Hst _]]; [|done].
  unfold lower_stable. rewrite !Hfix. apply N.eqb_refl.
Qed.

Lemma simple_lowercase_scalar cp :
  scalar cp = true -> scalar (UCD.simple_lowercase cp) = true.
Proof.
  intros Hcp. destruct (simple_lowercase_image cp) as [Hfix|[_ Hsc]]; [|done].
  by rewrite Hfix.
Qed.

(** ** Lower-casing code points *)

Lemma lower_code_point_stable before cp after :
  Forall (fun c => lower_stable c = true) (lower_code_point before cp after).
Proof.
  unfold lower_code_point.
  destruct (cp =? 0x3A3); [destruct (final_sigma before after)|];
    [repeat constructor..|].
  destruct (cp =? 0x130); [repeat constructor|].
  constructor; [apply simple_lowercase_stable|constructor].
Qed.

Lemma lower_code_point_scalar before cp after :
  scalar cp = true ->
  Forall (fun c => scalar c = true) (lower_code_point before cp after).
Proof.
  intros Hcp. unfold lower_code_point.
  destruct (cp =? 0x3A3); [destruct (final_sigma before after)|];
    [repeat constructor..|].
  destruct (cp =? 0x130); [repeat constructor|].
  constructor; [by apply simple_lowercase_scalar|constructor].
Qed.

Lemma lower_code_points_stable cps : forall before,
  Forall (fun c => lower_stable c = true) (lower_code_points before cps).
Proof.
  induction cps as [|cp cps IH]; intros before; simpl; [constructor|].
  apply Forall_app. split; [apply lower_code_point_stable|apply IH].
Qed.

Lemma lower_code_points_scalar cps : forall before,
  Forall (fun c => scalar c = true) cps ->
  Forall (fun c => scalar c = true) (lower_code_points before cps).
Proof.
  induction cps as [|cp cps IH]; intros before Hcps; simpl; [constructor|].
  apply Forall_cons in Hcps as [Hcp Hcps].
  apply Forall_app. split; [by apply lower_code_point_scalar|by apply IH].
Qed.

Lemma lower_code_point_fixed before cp after :
  lower_stable cp = true -> lower_code_point before cp after = [cp].
Proof.
  unfold lower_stable, lower_code_point. intros Hst.
  apply N.eqb_eq in Hst.
  destruct (cp =? 0x3A3) eqn:Hsigma.
  { apply N.eqb_eq in Hsigma. subst cp. vm_compute in Hst. discriminate. }
  destruct (cp =? 0x130) eqn:Hdot.
  { apply N.eqb_eq in Hdot. subst cp. vm_compute in Hst. discriminate. }
  by rewrite Hst.
Qed.

Lemma lower_code_points_fixed cps : forall before,
  Forall (fun c => lower_stable c = true) cps ->
  lower_code_points before cps = cps.
Proof.
  induction cps as [|cp cps IH]; intros before Hcps; simpl; [done|].
  apply Forall_cons in Hcps as [Hcp Hcps].
  by rewrite lower_code_point_fixed, IH.
Qed.

(** ** UTF-16 *)

Lemma encode_bmp cp : cp < 0x10000 -> utf16_encode cp = [cp].
Proof.
  intros Hcp. unfold utf16_encode. by rewrite (proj2 (N.ltb_lt _ _) Hcp).
Qed.

Lemma encode_astral cp :
  0x10000 <= cp -> cp < 0x110000 ->
  exists lead trail,
    utf16_encode cp = [lead; trail]
    /\ is_leading_surrogate lead = true
    /\ is_trailing_surrogate trail = true
    /\ surrogate_pair_to_code_point lead trail = cp.
Proof.
  intros Hlo Hhi. unfold utf16_encode.
  rewrite (proj2 (N.ltb_ge _ _) Hlo).
  pose proof (N.div_mod' (cp - 0x10000) 0x400) as Hdm.
  pose proof (N.mod_lt (cp - 0x10000) 0x400) as Hm.
  revert Hdm Hm.
  generalize ((cp - 0x10000) / 0x400) ((cp - 0x10000) mod 0x400).
  intros q m Hdm Hm. specialize (Hm ltac:(lia)).
  exists (0xD800 + q), (0xDC00 + m). split; [done|].
  unfold is_leading_surrogate, is_trailing_surrogate,
    surrogate_pair_to_code_point.
  rewrite !andb_true_iff, !N.leb_le. lia.
Qed.

Lemma decode_pair lead trail :
  is_leading_surrogate lead = true -> is_trailing_surrogate trail = true ->
  scalar (surrogate_pair_to_code_point lead trail) = true
  /\ utf16_encode (surrogate_pair_to_code_point lead trail) = [lead; trail].
Proof.
  unfold is_leading_surrogate, is_trailing_surrogate, scalar, is_surrogate,
    surrogate_pair_to_code_point, utf16_encode.
  rewrite !andb_true_iff, !N.leb_le. intros [Hl1 Hl2] [Ht1 Ht2].
  set (cp := (lead - 0xD800) * 0x400 + (trail - 0xDC00) + 0x10000).
  assert (Hcp : cp - 0x10000 = 0x400 * (lead - 0xD800) + (trail - 0xDC00))
    by (unfold cp; lia).
  assert (Hq : (cp - 0x10000) / 0x400 = lead - 0xD800).
  { symmetry. apply (N.div_unique _ _ _ (trail - 0xDC00)); [lia|exact Hcp]. }
  assert (Hm : (cp - 0x10000) mod 0x400 = trail - 0xDC00).
  { symmetry. apply (N.mod_unique _ _ (lead - 0xD800)); [lia|exact Hcp]. }
  split.
  - rewrite negb_true_iff, andb_false_iff, N.ltb_lt, !N.leb_gt. lia.
  - rewrite (proj2 (N.ltb_ge cp 0x10000)) by lia.
    rewrite Hq, Hm. f_equal; [lia|f_equal; lia].
Qed.

Lemma code_points_encode cps :
  Forall (fun c => scalar c = true) cps ->
  code_points (code_points_to_string cps) = cps.
Proof.
  induction 1 as [|cp cps Hcp _ IH]; [done|].
  unfold code_points_to_string in *. simpl.
  unfold scalar, is_surrogate in Hcp.
  rewrite andb_true_iff, negb_true_iff, andb_false_iff, N.ltb_lt, !N.leb_gt
    in Hcp.
  destruct (N.lt_ge_cases cp 0x10000) as [Hbmp|Hastral].
  - rewrite encode_bmp by done. simpl.
    assert (Hnl : is_leading_surrogate cp = false).
    { unfold is_leading_surrogate. rewrite andb_false_iff, !N.leb_gt. lia. }
    by rewrite Hnl, IH.
  - destruct (encode_astral cp) as (lead & trail & -> & Hl & Ht & Hpair);
      [lia..|].
    simpl. by rewrite Hl, Ht, Hpair, IH.
Qed.

Lemma well_formed_code_points n : forall s,
  (length s <= n)%nat -> isWellFormed s = true ->
  Forall (fun c => scalar c = true) (code_points s)
  /\ code_points_to_string (code_points s) = s.
Proof.
  induction n as [|n IH]; intros s Hlen Hwf.
  { destruct s; [done|simpl in Hlen; lia]. }
  destruct s as [|first rest]; [done|].
  simpl in Hwf |- *.
  destruct (is_leading_surrogate first) eqn:Hlead.
  - destruct rest as [|second rest']; [done|].
    apply andb_true_iff in Hwf as [Htrail Hwf]. rewrite Htrail.
    destruct (IH rest') as [Hsc Henc]; [simpl in Hlen; lia|done|].
    destruct (decode_pair first second Hlead Htrail) as [Hcp Hpair].
    split; [by constructor|].
    unfold code_points_to_string in *. simpl. by rewrite Hpair, Henc.
  - apply andb_true_iff in Hwf as [Hfirst Hwf].
    apply andb_true_iff in Hfirst as [Hbmp Hnt].
    destruct (IH rest) as [Hsc Henc]; [simpl in Hlen; lia|done|].
    apply N.ltb_lt in Hbmp. apply negb_true_iff in Hnt.
    split.
    + constructor; [|done].
      unfold scalar, is_surrogate.
      unfold is_leading_surrogate in Hlead.
      unfold is_trailing_surrogate in Hnt.
      rewrite andb_false_iff, !N.leb_gt in Hlead, Hnt.
      rewrite andb_true_iff, negb_true_iff, andb_false_iff, N.ltb_lt,
        !N.leb_gt. lia.
    + unfold code_points_to_string in *. simpl.
      by rewrite encode_bmp, Henc.
Qed.

(** ** Deleting punctuation and white space

    Both are classes of code units below the surrogates or between
    them and U+10000, so deleting them from a well-formed string
    deletes whole code points. *)

Lemma punctuation_bmp c :
  is_sentence_punctuation c = true -> c < 0xD800.
Proof.
  unfold is_sentence_punctuation.
  rewrite !orb_true_iff, !N.eqb_eq. lia.
Qed.

Lemma whitespace_bmp c :
  is_whitespace c = true -> c < 0xD800 \/ (0xE000 <= c /\ c < 0x10000).
Proof.
  unfold is_whitespace.
  rewrite !orb_true_iff, !andb_true_iff, !N.eqb_eq, !N.leb_le. lia.
Qed.

(** How a class [p] of such code units sees the encoding of a scalar
    value. *)
Lemma encode_cases (p : N -> bool) cp :
  (forall c, p c = true -> c < 0xD800 \/ (0xE000 <= c /\ c < 0x10000)) ->
  scalar cp = true ->
  utf16_encode cp = [cp]
  \/ (p cp = false
      /\ exists lead trail,
           utf16_encode cp = [lead; trail]
           /\ p lead = false /\ p trail = false).
Proof.
  intros Hp Hcp. unfold scalar in Hcp.
  apply andb_true_iff in Hcp as [Hmax _]. apply N.ltb_lt in Hmax.
  destruct (N.lt_ge_cases cp 0x10000) as [Hbmp|Hastral].
  - left. by apply encode_bmp.
  - right.
    assert (Hout : forall c, 0xD800 <= c -> (c < 0xE000 \/ 0x10000 <= c) ->
                        p c = false).
    { intros c H1 H2. destruct (p c) eqn:Hpc; [|done].
      apply Hp in Hpc. lia. }
    split; [apply Hout; lia|].
    destruct (encode_astral cp) as (lead & trail & Henc & Hl & Ht & _);
      [done..|].
    exists lead, trail. split; [done|].
    unfold is_leading_surrogate in Hl. unfold is_trailing_surrogate in Ht.
    rewrite andb_true_iff, !N.leb_le in Hl, Ht.
    split; apply Hout; lia.
Qed.

Lemma filter_encode (p : N -> bool) cps :
  (forall c, p c = true -> c < 0xD800 \/ (0xE000 <= c /\ c < 0x10000)) ->
  Forall (fun c => scalar c = true) cps ->
  List.filter (fun c => negb (p c)) (code_points_to_string cps)
  = code_points_to_string (List.filter (fun c => negb (p c)) cps).
Proof.
  intros Hp. induction 1 as [|cp cps Hcp _ IH]; [done|].
  unfold code_points_to_string in *.
  cbn [flat_map List.filter]. rewrite List.filter_app, IH.
  destruct (encode_cases p cp Hp Hcp)
    as [Henc|(Hpc & lead & trail & Henc & Hl & Ht)].
  - rewrite Henc. cbn [List.filter].
    destruct (p cp); cbn [negb flat_map]; [done|]. by rewrite Henc.
  - rewrite Hpc. cbn [negb flat_map]. rewrite Henc.
    cbn [List.filter]. by rewrite Hl, Ht.
Qed.

Lemma drop_while_encode (p : N -> bool) cps :
  (forall c, p c = true -> c < 0xD800 \/ (0xE000 <= c /\ c < 0x10000)) ->
  Forall (fun c => scalar c = true) cps ->
  drop_while p (code_points_to_string cps)
  = code_points_to_string (drop_while p cps).
Proof.
  intros Hp. induction 1 as [|cp cps Hcp _ IH]; [done|].
  unfold code_points_to_string in *. cbn [flat_map drop_while].
  destruct (encode_cases p cp Hp Hcp)
    as [Henc|(Hpc & lead & trail & Henc & Hl & Ht)].
  - rewrite Henc. cbn [app drop_while].
    destruct (p cp); cbn [flat_map]; [done|]. by rewrite Henc.
  - rewrite Hpc. cbn [flat_map]. rewrite Henc. cbn [app drop_while].
    by rewrite Hl.
Qed.

Lemma trimEnd_cons c s :
  is_whitespace c = false -> trimEnd (c :: s) = c :: trimEnd s.
Proof. intros Hc. simpl. rewrite Hc. by destruct (trimEnd s). Qed.

Lemma encode_nil cps : code_points_to_string cps = [] -> cps = [].
Proof.
  destruct cps as [|cp cps]; [done|].
  unfold code_points_to_string, utf16_encode. simpl.
  by destruct (cp <? 0x10000).
Qed.

Lemma trimEnd_encode cps :
  Forall (fun c => scalar c = true) cps ->
  trimEnd (code_points_to_string cps) = code_points_to_string (trimEnd cps).
Proof.
  induction 1 as [|cp cps Hcp _ IH]; [done|].
  destruct (encode_cases is_whitespace cp whitespace_bmp Hcp)
    as [Henc|(Hpc & lead & trail & Henc & Hl & Ht)].
  - change (code_points_to_string (cp :: cps))
      with (utf16_encode cp ++ code_points_to_string cps).
    rewrite Henc. cbn [app trimEnd]. rewrite IH.
    destruct (trimEnd cps) as [|c kept] eqn:Hkept.
    + cbn. destruct (is_whitespace cp); [done|].
      unfold code_points_to_string. cbn. by rewrite Henc.
    + destruct (code_points_to_string (c :: kept)) eqn:Hk;
        [by apply encode_nil in Hk|].
      rewrite <- Hk.
      change (code_points_to_string (cp :: c :: kept))
        with (utf16_encode cp ++ code_points_to_string (c :: kept)).
      by rewrite Henc.
  - change (code_points_to_string (cp :: cps))
      with (utf16_encode cp ++ code_points_to_string cps).
    rewrite Henc. cbn [app].
    rewrite !trimEnd_cons, IH by done.
    change (code_points_to_string (cp :: trimEnd cps))
      with (utf16_encode cp ++ code_points_to_string (trimEnd cps)).
    by rewrite Henc.
Qed.

(** ** Trimming *)

Lemma Forall_drop_while {A} (P : A -> Prop) (p : A -> bool) l :
  Forall P l -> Forall P (drop_while p l).
Proof.
  induction 1 as [|x l Hx Hl IH]; simpl; [constructor|].
  destruct (p x); [done|by constructor].
Qed.

Lemma Forall_trimEnd (P : N -> Prop) s : Forall P s -> Forall P (trimEnd s).
Proof.
  induction 1 as [|c s Hc Hs IH]; simpl; [constructor|].
  destruct (trimEnd s); [|by constructor].
  destruct (is_whitespace c); [constructor|by constructor].
Qed.

Lemma drop_while_idempotent {A} (p : A -> bool) l :
  drop_while p (drop_while p l) = drop_while p l.
Proof.
  induction l as [|x l IH]; simpl; [done|].
  destruct (p x) eqn:Hx; [done|]. simpl. by rewrite Hx.
Qed.

Lemma trimEnd_idempotent s : trimEnd (trimEnd s) = trimEnd s.
Proof.
  induction s as [|c s IH]; simpl; [done|].
  destruct (trimEnd s) as [|k kept] eqn:Hkept.
  - destruct (is_whitespace c) eqn:Hc; simpl; [done|]. by rewrite Hc.
  - cbn [trimEnd] in *. by rewrite IH.
Qed.

Lemma trimEnd_tail c s : trimEnd (c :: s) = c :: s -> trimEnd s = s.
Proof.
  simpl. destruct (trimEnd s) as [|k kept].
  - destruct (is_whitespace c); [done|]. by intros [= <-].
  - by intros [= <-].
Qed.

Lemma trimEnd_drop_while (p : N -> bool) s :
  trimEnd s = s -> trimEnd (drop_while p s) = drop_while p s.
Proof.
  induction s as [|c s IH]; intros Hs; [done|].
  cbn [drop_while]. destruct (p c); [|done].
  by apply IH, (trimEnd_tail c).
Qed.

Lemma trim_idempotent s : trim (trim s) = trim s.
Proof.
  unfold trim, trimStart.
  rewrite trimEnd_drop_while by apply trimEnd_idempotent.
  apply drop_while_idempotent.
Qed.

Lemma filter_all {A} (f : A -> bool) l :
  Forall (fun x => f x = true) l -> List.filter f l = l.
Proof.
  induction 1 as [|x l Hx _ IH]; simpl; [done|]. by rewrite Hx, IH.
Qed.

Lemma filter_Forall {A} (f : A -> bool) l :
  Forall (fun x => f x = true) (List.filter f l).
Proof.
  induction l as [|x l IH]; simpl; [constructor|].
  destruct (f x) eqn:Hx; [by constructor|done].
Qed.

Lemma Forall_list_filter {A} (P : A -> Prop) (f : A -> bool) l :
  Forall P l -> Forall P (List.filter f l).
Proof.
  induction 1 as [|x l Hx _ IH]; simpl; [constructor|].
  destruct (f x); [by constructor|done].
Qed.

(** ** The normalizer *)

(** On a well-formed string the three steps work on whole code
    points. *)
Lemma normalize_code_points s :
  isWellFormed s = true ->
  _normalizeText s
  = code_points_to_string
      (trim (remove_sentence_punctuation
               (lower_code_points [] (code_points s))))
  /\ Forall (fun c => scalar c = true)
       (trim (remove_sentence_punctuation
                (lower_code_points [] (code_points s)))).
Proof.
  intros Hwf.
  destruct (well_formed_code_points (length s) s (le_n _) Hwf) as [Hsc _].
  pose proof (lower_code_points_scalar _ [] Hsc) as Hlow.
  pose proof (Forall_list_filter _
                (fun c => negb (is_sentence_punctuation c)) _ Hlow) as Hrem.
  pose proof (Forall_trimEnd _ _ Hrem) as Hend.
  split.
  - unfold _normalizeText, toLowerCase, remove_sentence_punctuation.
    rewrite (filter_encode is_sentence_punctuation) by
      (done || intros c Hc; left; by apply punctuation_bmp).
    unfold trim, trimStart.
    rewrite trimEnd_encode by done.
    by rewrite (drop_while_encode _ _ whitespace_bmp) by done.
  - unfold trim, trimStart. by apply Forall_drop_while.
Qed.

(** C7 (as amended).  The normalizer is idempotent on every
    well-formed string, that is, on every string without an unpaired
    surrogate code unit: normalizing a normalized text returns it
    unchanged. *)
Theorem normalize_idempotent_well_formed (s : jsstring) :
  isWellFormed s = true ->
  _normalizeText (_normalizeText s) = _normalizeText s.
Proof.
  intros Hwf. destruct (normalize_code_points s Hwf) as [-> Hsc].
  set (lowered := lower_code_points [] (code_points s)).
  set (t := trim (remove_sentence_punctuation lowered)) in *.
  assert (Hst : Forall (fun c => lower_stable c = true) t).
  { unfold t, trim, trimStart. apply Forall_drop_while, Forall_trimEnd.
    apply Forall_list_filter, lower_code_points_stable. }
  assert (Hnp : Forall (fun c => negb (is_sentence_punctuation c) = true) t).
  { unfold t, trim, trimStart. apply Forall_drop_while, Forall_trimEnd.
    apply filter_Forall. }
  unfold _normalizeText at 1. unfold toLowerCase.
  rewrite code_points_encode by done.
  rewrite lower_code_points_fixed by done.
  unfold remove_sentence_punctuation at 1.
  rewrite (filter_encode is_sentence_punctuation) by
    (done || intros c Hc; left; by apply punctuation_bmp).
  rewrite filter_all by done.
  unfold trim at 1. unfold trimStart at 1.
  rewrite trimEnd_encode by done.
  rewrite (drop_while_encode _ _ whitespace_bmp) by by apply Forall_trimEnd.
  f_equal. apply trim_idempotent.
Qed.

Lemma normalize_idempotent_well_formed_witness :
  isWellFormed (lit "  Привет, how ARE you?! ") = true
  /\ _normalizeText (_normalizeText (lit "  Привет, how ARE you?! "))
     = _normalizeText (lit "  Привет, how ARE you?! ").
Proof.
  split; [reflexivity|].
  apply (normalize_idempotent_well_formed (lit "  Привет, how ARE you?! ")).
  reflexivity.
Defined.

(** C7 as the specification states it fails: the full stop between
    the two halves of a surrogate pair keeps U+10400 from being
    lower-cased the first time; once it is removed the halves join,
    and the second pass lower-cases the pair to U+10428. *)
Lemma normalize_not_idempotent :
  _normalizeText (_normalizeText [0xD801; 0x2E; 0xDC00])
  <> _normalizeText [0xD801; 0x2E; 0xDC00].
Proof. vm_compute. discriminate. Qed.

Example normalize_joins_surrogates :
  _normalizeText [0xD801; 0x2E; 0xDC00] = [0xD801; 0xDC00]
  /\ _normalizeText [0xD801; 0xDC00] = [0xD801; 0xDC28].
Proof. vm_compute. done. Qed.

(** ** No capital letter survives

    Every key the gatekeeper writes is a normalized phrase or a word of
    one, hence without capital letters: the name [hasOwnProperty] is
    never written. *)

Lemma In_drop_while {A} (p : A -> bool) x l : In x (drop_while p l) -> In x l.
Proof.
  induction l as [|y l IH]; simpl; [done|].
  destruct (p y); [right; auto|done].
Qed.

Lemma In_trimEnd c s : In c (trimEnd s) -> In c s.
Proof.
  revert c. induction s as [|d s IH]; intros c; simpl; [done|].
  destruct (trimEnd s) as [|k kept].
  - destruct (is_whitespace d); simpl; tauto.
  - intros [?|?]; [by left|right; by apply IH].
Qed.

Lemma In_toLowerCase s c :
  In c (toLowerCase s) -> lower_stable c = true \/ 0xD800 <= c.
Proof.
  unfold toLowerCase, code_points_to_string. rewrite in_flat_map.
  intros (cp & Hcp & Hc).
  pose proof (lower_code_points_stable (code_points s) []) as Hst.
  rewrite List.Forall_forall in Hst. specialize (Hst cp Hcp).
  unfold utf16_encode in Hc. destruct (cp <? 0x10000).
  - destruct Hc as [<-|[]]. by left.
  - right. revert Hc.
    generalize ((cp - 0x10000) / 0x400) ((cp - 0x10000) mod 0x400).
    intros q m [<-|[<-|[]]]; lia.
Qed.

Lemma normalize_no_capital_o s : ~ In 0x4F (_normalizeText s).
Proof.
  unfold _normalizeText, trim, trimStart, remove_sentence_punctuation.
  intros Hin. apply In_drop_while, In_trimEnd, filter_In in Hin as [Hin _].
  apply In_toLowerCase in Hin as [Hst|Hge]; [|lia].
  vm_compute in Hst. discriminate.
Qed.

Lemma In_split_loop s : forall piece in_run w c,
  In w (split_loop piece in_run s) -> In c w -> In c piece \/ In c s.
Proof.
  induction s as [|cu rest IH]; intros piece in_run w c Hw Hc; simpl in Hw.
  - destruct Hw as [<-|[]]. left. by apply in_rev.
  - destruct (is_whitespace cu).
    + assert (Hrest : In w (split_loop [] true rest) -> In c (cu :: rest)).
      { intros H. destruct (IH _ _ _ _ H Hc) as [[]|?]. by right. }
      destruct in_run; [right; auto|].
      destruct Hw as [<-|Hw]; [left; by apply in_rev|right; auto].
    + destruct (IH _ _ _ _ Hw Hc) as [[<-|?]|?].
      * right. by left.
      * by left.
      * right. by right.
Qed.

Lemma normalized_not_method s :
  _normalizeText s <> lit "hasOwnProperty".
Proof.
  intros Heq. apply (normalize_no_capital_o s). rewrite Heq.
  vm_compute. tauto.
Qed.

Lemma normalized_word_not_method s w :
  In w (split_whitespace (_normalizeText s)) -> w <> lit "hasOwnProperty".
Proof.
  intros Hw ->. apply (normalize_no_capital_o s).
  destruct (In_split_loop _ _ _ _ 0x4F Hw) as [[]|?]; [|done].
  vm_compute. tauto.
Qed.

(** ** Registering words *)

Lemma register_word_found o w :
  JsObject.own o !! method_name = None ->
  register_word o w = Run (registered o w) (returns tt).
Proof.
  intros Ho. unfold register_word, registered.
  destruct (non_empty w); [|done].
  rewrite (hasOwnProperty_found _ _ Ho). cbn [andb].
  by destruct (bool_decide _).
Qed.

Lemma register_word_hidden o w :
  is_Some (JsObject.own o !! method_name) ->
  register_word o w
  = Run o (if non_empty w then throws TypeError else returns tt).
Proof.
  intros Ho. unfold register_word.
  destruct (non_empty w); [|done].
  by rewrite (hasOwnProperty_hidden _ _ Ho).
Qed.

Lemma registered_other (o : JsObject.object N) w k :
  w <> k -> JsObject.own (registered o w) !! k = JsObject.own o !! k.
Proof.
  intros Hne. unfold registered.
  destruct (_ && _); [by apply set_lookup_other|done].
Qed.

Lemma fold_registered_other ws k : forall (o : JsObject.object N),
  (forall w, In w ws -> w <> k) ->
  JsObject.own (fold_left registered ws o) !! k = JsObject.own o !! k.
Proof.
  induction ws as [|w ws IH]; intros o Hne; simpl; [done|].
  rewrite IH by (intros w' Hw'; apply Hne; by right).
  apply registered_other, Hne. by left.
Qed.

(** Words other than the name of the method are registered one after
    the other as long as the method is found. *)
Lemma forEach_register_found ws : forall o,
  JsObject.own o !! method_name = None ->
  (forall w, In w ws -> w <> method_name) ->
  forEach register_word ws o = Run (fold_left registered ws o) (returns tt).
Proof.
  induction ws as [|w ws IH]; intros o Ho Hne; [done|].
  cbn [forEach fold_left]. rewrite (register_word_found _ _ Ho).
  cbn [outcome after]. apply IH.
  - rewrite registered_other; [done|]. apply Hne. by left.
  - intros w' Hw'. apply Hne. by right.
Qed.

(** On a table that hides the method the first word ends the loop. *)
Lemma forEach_register_hidden ws o :
  is_Some (JsObject.own o !! method_name) ->
  forEach register_word ws o
  = Run o (if existsb non_empty ws then throws TypeError else returns tt).
Proof.
  intros Ho. induction ws as [|w ws IH]; [done|].
  cbn [forEach existsb]. rewrite (register_word_hidden _ _ Ho).
  cbn [outcome after]. by destruct (non_empty w).
Qed.

Lemma set_vocab_same b : set_vocab (vocab b) b = b.
Proof. by destruct b. Qed.

Lemma updateVocab_run text b :
  _updateVocab (_normalizeText text) b
  = if shadowed (vocab b) then
      Run b (if existsb non_empty (split_whitespace (_normalizeText text))
             then throws TypeError else returns tt)
    else
      Run (set_vocab
             (fold_left registered (split_whitespace (_normalizeText text))
                (vocab b)) b)
        (returns tt).
Proof.
  unfold _updateVocab, shadowed. case_bool_decide as Hs.
  - rewrite (forEach_register_hidden _ _ Hs). cbn [after outcome].
    by rewrite set_vocab_same.
  - apply eq_None_not_Some in Hs.
    rewrite (forEach_register_found _ _ Hs); [done|].
    intros w Hw. by apply (normalized_word_not_method text).
Qed.

(** ** The learner, field by field *)

Lemma brain_eq (b1 b2 : Brain) :
  vocab b1 = vocab b2 -> simpleVocab b1 = simpleVocab b2 ->
  simpleNgrams b1 = simpleNgrams b2 -> categories b1 = categories b2 ->
  simpleResponses b1 = simpleResponses b2 -> memory b1 = memory b2 ->
  b1 = b2.
Proof. destruct b1, b2; simpl; intros; by subst. Qed.

Lemma simple_branch_fields text c r b :
  vocab (simple_branch text c r b) = vocab b
  /\ memory (simple_branch text c r b) = memory b
  /\ categories (simple_branch text c r b) = categories b.
Proof.
  unfold simple_branch, add_bigrams.
  destruct c, r as [response|]; try destruct (non_empty response);
    try destruct (1 <? _)%nat; done.
Qed.

Lemma simple_branch_simpleResponses text c r b :
  simpleResponses (simple_branch text c r b)
  = match c, r with
    | simple, Some response =>
        if non_empty response
        then JsObject.set (simpleResponses b) (_normalizeText text) response
        else simpleResponses b
    | _, _ => simpleResponses b
    end.
Proof.
  unfold simple_branch, add_bigrams.
  destruct c, r as [response|]; try destruct (non_empty response);
    try destruct (1 <? _)%nat; done.
Qed.

Lemma simple_branch_simpleVocab text c r b :
  simpleVocab (simple_branch text c r b)
  = match c with
    | simple =>
        fold_left JsSet.add (split_words (_normalizeText text)) (simpleVocab b)
    | complex => simpleVocab b
    end.
Proof.
  unfold simple_branch, add_bigrams.
  destruct c, r as [response|]; try destruct (non_empty response);
    try destruct (1 <? _)%nat; done.
Qed.

Lemma simple_branch_simpleNgrams text c r b :
  simpleNgrams (simple_branch text c r b)
  = match c with
    | simple =>
        simpleNgrams (add_bigrams (split_words (_normalizeText text)) b)
    | complex => simpleNgrams b
    end.
Proof.
  unfold simple_branch, add_bigrams.
  destruct c, r as [response|]; try destruct (non_empty response);
    try destruct (1 <? _)%nat; done.
Qed.

(** The two ways in which [learnFromFeedback] ends. *)
Lemma learn_run text c r g :
  let b := simple_branch text c r (brain g) in
  learnFromFeedback text c r g
  = if update_throws (_normalizeText text) (brain g) then
      Run (set_brain b g) (throws TypeError)
    else
      let b :=
        set_vocab
          (if shadowed (vocab (brain g)) then vocab (brain g)
           else fold_left registered
                  (split_whitespace (_normalizeText text)) (vocab (brain g)))
          b in
      let b :=
        if existsb (fun mem => bool_decide (input mem = _normalizeText text))
             (memory b)
        then b
        else set_memory
               (memory b ++ [{| input := _normalizeText text;
                                category := c |}]) b in
      Run (_saveBrain (set_brain b g)) (returns tt).
Proof.
  intros b.
  change (learnFromFeedback text c r g)
    with (match outcome (_updateVocab (_normalizeText text) b) with
          | throws e =>
              Run (set_brain (after (_updateVocab (_normalizeText text) b)) g)
                (throws e)
          | returns _ =>
              let b := after (_updateVocab (_normalizeText text) b) in
              let b :=
                if existsb
                     (fun mem => bool_decide (input mem = _normalizeText text))
                     (memory b)
                then b
                else set_memory
                       (memory b ++ [{| input := _normalizeText text;
                                        category := c |}]) b in
              Run (_saveBrain (set_brain b g)) (returns tt)
          end).
  rewrite updateVocab_run. unfold update_throws.
  destruct (simple_branch_fields text c r (brain g)) as (Hv & _ & _).
  fold b in Hv. rewrite Hv.
  destruct (shadowed (vocab (brain g))); cbn [andb]; [|done].
  destruct (existsb non_empty _); cbn [outcome after]; [done|].
  by rewrite <- Hv, set_vocab_same.
Qed.

Lemma learn_outcome text c r g :
  outcome (learnFromFeedback text c r g)
  = if update_throws (_normalizeText text) (brain g)
    then throws TypeError else returns tt.
Proof. rewrite learn_run. by destruct (update_throws _ _). Qed.

Lemma learn_simpleResponses text c r g :
  simpleResponses (brain (after (learnFromFeedback text c r g)))
  = match c, r with
    | simple, Some response =>
        if non_empty response
        then JsObject.set (simpleResponses (brain g)) (_normalizeText text)
               response
        else simpleResponses (brain g)
    | _, _ => simpleResponses (brain g)
    end.
Proof.
  rewrite learn_run, <- simple_branch_simpleResponses.
  destruct (update_throws _ _); [done|]. cbv zeta.
  by destruct (existsb _ _).
Qed.

Lemma learn_simpleVocab text c r g :
  simpleVocab (brain (after (learnFromFeedback text c r g)))
  = match c with
    | simple =>
        fold_left JsSet.add (split_words (_normalizeText text))
          (simpleVocab (brain g))
    | complex => simpleVocab (brain g)
    end.
Proof.
  rewrite learn_run, <- (simple_branch_simpleVocab text c r).
  destruct (update_throws _ _); [done|]. cbv zeta.
  by destruct (existsb _ _).
Qed.

Lemma learn_simpleNgrams text c r g :
  simpleNgrams (brain (after (learnFromFeedback text c r g)))
  = match c with
    | simple =>
        simpleNgrams
          (add_bigrams (split_words (_normalizeText text)) (brain g))
    | complex => simpleNgrams (brain g)
    end.
Proof.
  rewrite learn_run, <- (simple_branch_simpleNgrams text c r).
  destruct (update_throws _ _); [done|]. cbv zeta.
  by destruct (existsb _ _).
Qed.

Lemma learn_vocab text c r g :
  vocab (brain (after (learnFromFeedback text c r g)))
  = if shadowed (vocab (brain g)) then vocab (brain g)
    else fold_left registered (split_whitespace (_normalizeText text))
           (vocab (brain g)).
Proof.
  rewrite learn_run.
  destruct (simple_branch_fields text c r (brain g)) as (Hv & _ & _).
  unfold update_throws.
  destruct (shadowed (vocab (brain g))); cbn [andb].
  - destruct (existsb non_empty _); [done|]. cbv zeta.
    by destruct (existsb _ _).
  - cbv zeta. by destruct (existsb _ _).
Qed.

Lemma learn_memory text c r g :
  memory (brain (after (learnFromFeedback text c r g)))
  = if update_throws (_normalizeText text) (brain g) then memory (brain g)
    else if existsb
              (fun mem => bool_decide (input mem = _normalizeText text))
              (memory (brain g))
    then memory (brain g)
    else memory (brain g)
           ++ [{| input := _normalizeText text; category := c |}].
Proof.
  rewrite learn_run.
  destruct (simple_branch_fields text c r (brain g)) as (_ & Hm & _).
  destruct (update_throws _ _); [done|]. cbv zeta.
  cbn [memory set_vocab]. rewrite Hm. by destruct (existsb _ _).
Qed.

Lemma learn_categories text c r g :
  categories (brain (after (learnFromFeedback text c r g)))
  = categories (brain g).
Proof.
  rewrite learn_run.
  destruct (simple_branch_fields text c r (brain g)) as (_ & _ & Hc).
  destruct (update_throws _ _); [done|]. cbv zeta.
  by destruct (existsb _ _).
Qed.

Lemma learn_isInitialized text c r g :
  isInitialized (after (learnFromFeedback text c r g)) = isInitialized g.
Proof. rewrite learn_run. by destruct (update_throws _ _). Qed.

Lemma learn_savedBrain text c r g :
  savedBrain (after (learnFromFeedback text c r g))
  = if update_throws (_normalizeText text) (brain g) then savedBrain g
    else Some (brainToSave (brain (after (learnFromFeedback text c r g)))).
Proof. rewrite learn_run. by destruct (update_throws _ _). Qed.

Lemma state_eq (g1 g2 : State) :
  brain g1 = brain g2 -> isInitialized g1 = isInitialized g2 ->
  savedBrain g1 = savedBrain g2 -> g1 = g2.
Proof. destruct g1, g2; simpl; intros; by subst. Qed.

Lemma run_eq {S A} (r1 r2 : run S A) :
  after r1 = after r2 -> outcome r1 = outcome r2 -> r1 = r2.
Proof. destruct r1, r2; simpl; intros; by subst. Qed.

Lemma registered_subseteq (o : JsObject.object N) w :
  JsObject.own o ⊆ JsObject.own (registered o w).
Proof.
  unfold registered.
  destruct (non_empty w); simpl; [|done].
  case_bool_decide as Hown; simpl; [done|].
  apply set_subseteq. by apply eq_None_not_Some.
Qed.

Lemma fold_registered_subseteq ws : forall (o : JsObject.object N),
  JsObject.own o ⊆ JsObject.own (fold_left registered ws o).
Proof.
  induction ws as [|w ws IH]; intros o; simpl; [done|].
  etrans; [apply registered_subseteq|apply IH].
Qed.

Lemma learn_vocab_grows text c r g :
  JsObject.own (vocab (brain g))
    ⊆ JsObject.own (vocab (brain (after (learnFromFeedback text c r g)))).
Proof.
  rewrite learn_vocab. destruct (shadowed _); [done|].
  apply fold_registered_subseteq.
Qed.

Lemma learn_memory_grows text c r g :
  memory (brain g)
    `prefix_of` memory (brain (after (learnFromFeedback text c r g))).
Proof.
  rewrite learn_memory. destruct (update_throws _ _); [done|].
  destruct (existsb _ _); [done|]. by apply prefix_app_r.
Qed.

Lemma classify_ext text g g' :
  isInitialized g' = isInitialized g ->
  simpleResponses (brain g') = simpleResponses (brain g) ->
  simpleVocab (brain g') = simpleVocab (brain g) ->
  simpleNgrams (brain g') = simpleNgrams (brain g) ->
  classify text g' = classify text g.
Proof.
  intros Hi Hr Hv Hn. unfold classify. by rewrite Hi, Hr, Hv, Hn.
Qed.

(** C5.  Feedback labelled [complex] leaves [simpleVocab],
    [simpleNgrams] and [simpleResponses] exactly as they were; [vocab]
    and [memory] only grow; hence no verdict of [classify] changes.
    In the end-to-end scenario, "hello world" is still [complex] after
    it was taught as complex to the seeded Brain, and [memory] holds
    that record. *)
Theorem learn_complex_frame (text : jsstring) (response : option jsstring)
    (g : State) :
  let g' := after (learnFromFeedback text complex response g) in
  simpleVocab (brain g') = simpleVocab (brain g)
  /\ simpleNgrams (brain g') = simpleNgrams (brain g)
  /\ simpleResponses (brain g') = simpleResponses (brain g)
  /\ JsObject.own (vocab (brain g)) ⊆ JsObject.own (vocab (brain g'))
  /\ memory (brain g) `prefix_of` memory (brain g')
  /\ (forall query, classify query g' = classify query g)
  /\ let taught :=
       after (learnFromFeedback (lit "hello world") complex None
                Session.seed_state) in
     classify (lit "hello world") Session.seed_state = returns complex
     /\ classify (lit "hello world") taught = returns complex
     /\ {| input := lit "hello world"; category := complex |}
          ∈ memory (brain taught).
Proof.
  intros g'. subst g'.
  assert (Hv := learn_simpleVocab text complex response g).
  assert (Hn := learn_simpleNgrams text complex response g).
  assert (Hr := learn_simpleResponses text complex response g).
  simpl in Hv, Hn, Hr.
  split; [exact Hv|]. split; [exact Hn|]. split; [exact Hr|].
  split; [apply learn_vocab_grows|]. split; [apply learn_memory_grows|].
  split.
  - intros query. apply classify_ext; [apply learn_isInitialized|done..].
  - cbv zeta. split; [vm_compute; reflexivity|].
    split; [vm_compute; reflexivity|].
    apply (bool_decide_eq_true_1 _). vm_compute. reflexivity.
Qed.

(** ** The method stays in reach *)

Lemma learn_shadowed_vocab text c r g :
  shadowed (vocab (brain (after (learnFromFeedback text c r g))))
  = shadowed (vocab (brain g)).
Proof.
  rewrite learn_vocab. destruct (shadowed (vocab (brain g))) eqn:Hs; [done|].
  rewrite <- Hs. unfold shadowed. apply bool_decide_ext.
  rewrite fold_registered_other; [done|].
  intros w Hw. by apply (normalized_word_not_method text).
Qed.

Lemma learn_shadowed_responses text c r g :
  shadowed (simpleResponses (brain (after (learnFromFeedback text c r g))))
  = shadowed (simpleResponses (brain g)).
Proof.
  rewrite learn_simpleResponses.
  destruct c, r as [response|]; try done.
  destruct (non_empty response); [|done].
  unfold shadowed. apply bool_decide_ext.
  rewrite set_lookup_other; [done|apply normalized_not_method].
Qed.

Lemma learn_update_throws query text c r g :
  update_throws query (brain (after (learnFromFeedback text c r g)))
  = update_throws query (brain g).
Proof. unfold update_throws. by rewrite learn_shadowed_vocab. Qed.

Lemma learn_responses_found text c r g :
  JsObject.own (simpleResponses (brain g)) !! method_name = None ->
  JsObject.own
    (simpleResponses (brain (after (learnFromFeedback text c r g))))
    !! method_name = None.
Proof.
  intros Hfound. apply shadowed_false.
  rewrite learn_shadowed_responses. by apply shadowed_false.
Qed.

Lemma learn_vocab_found text c r g :
  JsObject.own (vocab (brain g)) !! method_name = None ->
  JsObject.own (vocab (brain (after (learnFromFeedback text c r g))))
    !! method_name = None.
Proof.
  intros Hfound. apply shadowed_false.
  rewrite learn_shadowed_vocab. by apply shadowed_false.
Qed.

(** With the method of [vocab] in reach the call returns. *)
Lemma learn_returns text c r g :
  JsObject.own (vocab (brain g)) !! method_name = None ->
  update_throws (_normalizeText text) (brain g) = false
  /\ outcome (learnFromFeedback text c r g) = returns tt.
Proof.
  intros Hfound.
  assert (Hu : update_throws (_normalizeText text) (brain g) = false).
  { unfold update_throws. by rewrite (proj2 (shadowed_false _) Hfound). }
  split; [exact Hu|]. by rewrite learn_outcome, Hu.
Qed.

(** ** Teaching a simple phrase *)

Lemma unknown_word_loop_none known words :
  (forall w, w ∈ words -> w ∈ known) ->
  unknown_word_loop known words = None.
Proof.
  induction words as [|w words IH]; intros Hk; simpl; [done|].
  rewrite (proj2 (has_true known w)) by (apply Hk; left). simpl.
  apply IH. intros w' Hw'. apply Hk. by right.
Qed.

Lemma unknown_bigram_loop_none known words iterations : forall i,
  (forall j, (i <= j < i + iterations)%nat -> bigram_at words j ∈ known) ->
  unknown_bigram_loop known words i iterations = None.
Proof.
  induction iterations as [|n IH]; intros i Hk; simpl; [done|].
  rewrite (proj2 (has_true known (bigram_at words i))) by (apply Hk; lia).
  simpl. apply IH. intros j Hj. apply Hk. lia.
Qed.

(** Right after a phrase was taught as simple (with or without a
    response) an initialized gatekeeper classifies it as simple,
    provided [simpleResponses] does not hide the method. *)
Lemma learn_simple_then_classify text r g :
  isInitialized g = true ->
  JsObject.own (simpleResponses (brain g)) !! method_name = None ->
  classify text (after (learnFromFeedback text simple r g)) = returns simple.
Proof.
  intros Hinit Hfound. unfold classify.
  rewrite learn_isInitialized, Hinit. cbn [negb].
  rewrite hasOwnProperty_found by by apply learn_responses_found.
  destruct (bool_decide _); [done|].
  destruct (length _ =? 0)%nat; [done|].
  rewrite learn_simpleVocab, learn_simpleNgrams.
  set (words := split_words (_normalizeText text)).
  rewrite unknown_word_loop_none; cycle 1.
  { intros w Hw.
    change (fold_left JsSet.add words (simpleVocab (brain g)))
      with (simpleVocab (add_words words (brain g))).
    apply add_words_elem. by right. }
  destruct (1 <? length words)%nat eqn:Hlen; [|done].
  rewrite unknown_bigram_loop_none; [done|].
  intros j Hj. apply add_bigrams_elem. right. exists j.
  apply Nat.ltb_lt in Hlen. split; [lia|done].
Qed.

(** The response is read back unless the phrase normalizes to the
    name [__proto__] while the table has no own property of that
    name. *)
Lemma learn_simple_then_response text r g :
  non_empty r = true ->
  _normalizeText text <> lit "__proto__"
  \/ is_Some
       (JsObject.own (simpleResponses (brain g)) !! _normalizeText text) ->
  getSimpleResponse text (after (learnFromFeedback text simple (Some r) g))
  = Text r.
Proof.
  intros Hr Hk. unfold getSimpleResponse, JsObject.get.
  rewrite learn_simpleResponses, Hr.
  rewrite set_lookup_same by done. by rewrite Hr.
Qed.

Lemma learn_proto_response_lost r g :
  JsObject.own (simpleResponses (brain g)) !! lit "__proto__" = None ->
  getSimpleResponse (lit "__proto__")
    (after (learnFromFeedback (lit "__proto__") simple (Some r) g))
  = PrototypeMember (lit "__proto__").
Proof.
  intros Hk. unfold getSimpleResponse, JsObject.get.
  rewrite learn_simpleResponses.
  assert (Hn : _normalizeText (lit "__proto__") = lit "__proto__")
    by (vm_compute; reflexivity).
  rewrite Hn.
  assert (Hs : forall v, JsObject.own
                      (JsObject.set (simpleResponses (brain g))
                         (lit "__proto__") v) !! lit "__proto__" = None).
  { intros v. unfold JsObject.set. rewrite Hk.
    by rewrite bool_decide_eq_true_2. }
  destruct (non_empty r); rewrite ?Hs, ?Hk; reflexivity.
Qed.

(** C2.  A phrase that normalizes to [__proto__] is not read back:
    after ["__proto__"] was taught to the seeded Brain as simple with
    the response ["Hi!"], in a call that returned, it is classified as
    simple, yet [getSimpleResponse] returns [Object.prototype], the
    member inherited under that name, not the response. *)
Theorem learn_simple_proto_not_read_back :
  let called :=
    learnFromFeedback (lit "__proto__") simple (Some (lit "Hi!"))
      Session.seed_state in
  let g := after called in
  outcome called = returns tt
  /\ classify (lit "__proto__") g = returns simple
  /\ getSimpleResponse (lit "__proto__") g = PrototypeMember (lit "__proto__")
  /\ getSimpleResponse (lit "__proto__") g <> Text (lit "Hi!").
Proof. vm_compute. repeat split; done. Qed.

(** ** Repeating feedback *)

Lemma settled_fixed o w : settled o w -> registered o w = o.
Proof.
  unfold settled, registered. intros [Hw|[Hw|[Hw Ho]]].
  - by rewrite Hw.
  - rewrite (bool_decide_eq_true_2 _ Hw).
    by rewrite andb_false_r.
  - destruct (_ && _); [|done].
    unfold JsObject.set. rewrite Ho. by rewrite bool_decide_eq_true_2.
Qed.

Lemma registered_settles o w : settled (registered o w) w.
Proof.
  unfold settled, registered.
  destruct (non_empty w) eqn:Hw; [|by left]. simpl.
  case_bool_decide as Hown; simpl.
  - right; left. done.
  - apply eq_None_not_Some in Hown.
    right. unfold JsObject.set. rewrite Hown.
    case_bool_decide as Hp.
    + by right.
    + left. cbn [JsObject.own]. rewrite lookup_insert_eq. by eexists.
Qed.

Lemma settled_registered o w w' : settled o w -> settled (registered o w') w.
Proof.
  intros [Hw|[Hw|[Hw Ho]]].
  - by left.
  - right; left.
    destruct Hw as [v Hv]. exists v.
    eapply lookup_weaken; [exact Hv|apply registered_subseteq].
  - right; right. split; [done|]. subst w.
    unfold registered. destruct (_ && _); [|done].
    destruct (decide (w' = lit "__proto__")) as [->|Hne].
    + unfold JsObject.set. rewrite Ho. by rewrite bool_decide_eq_true_2.
    + by rewrite set_lookup_other.
Qed.

Lemma settled_fold ws : forall o w,
  settled o w -> settled (fold_left registered ws o) w.
Proof.
  induction ws as [|w' ws IH]; intros o w Hw; simpl; [done|].
  apply IH. by apply settled_registered.
Qed.

Lemma fold_registered_settles ws : forall o,
  Forall (settled (fold_left registered ws o)) ws.
Proof.
  induction ws as [|w ws IH]; intros o; simpl; [done|].
  constructor; [|apply IH].
  apply settled_fold, registered_settles.
Qed.

Lemma fold_registered_fixed ws o :
  Forall (settled o) ws -> fold_left registered ws o = o.
Proof.
  induction 1 as [|w ws Hw _ IH]; simpl; [done|].
  by rewrite (settled_fixed _ _ Hw).
Qed.

Lemma fold_registered_idempotent ws o :
  fold_left registered ws (fold_left registered ws o)
  = fold_left registered ws o.
Proof. apply fold_registered_fixed, fold_registered_settles. Qed.

Lemma fold_add_idempotent words s :
  fold_left JsSet.add words (fold_left JsSet.add words s)
  = fold_left JsSet.add words s.
Proof.
  apply (fold_add_present id). intros w Hw.
  apply (fold_add_elem id). right. by rewrite list_fmap_id.
Qed.

Lemma add_bigrams_ngrams words b :
  simpleNgrams (add_bigrams words b)
  = if (1 <? length words)%nat then
      fold_left (fun ngrams i => JsSet.add ngrams (bigram_at words i))
        (seq 0 (length words - 1)) (simpleNgrams b)
    else simpleNgrams b.
Proof. unfold add_bigrams. by destruct (1 <? _)%nat. Qed.

(** After a call that returned, [memory] holds a record for the
    text. *)
Lemma learn_memory_has text c r g :
  update_throws (_normalizeText text) (brain g) = false ->
  existsb (fun mem => bool_decide (input mem = _normalizeText text))
    (memory (brain (after (learnFromFeedback text c r g)))) = true.
Proof.
  intros Hu. rewrite learn_memory, Hu.
  destruct (existsb _ (memory (brain g))) eqn:Hex; [done|].
  rewrite existsb_app. simpl. rewrite bool_decide_eq_true_2 by done.
  by rewrite orb_true_r.
Qed.

Lemma learn_brain_idempotent text c r g :
  brain (after (learnFromFeedback text c r
                  (after (learnFromFeedback text c r g))))
  = brain (after (learnFromFeedback text c r g)).
Proof.
  set (g1 := after (learnFromFeedback text c r g)).
  apply brain_eq.
  - rewrite learn_vocab. unfold g1 at 1. rewrite learn_shadowed_vocab.
    destruct (shadowed (vocab (brain g))) eqn:Hs; [done|].
    unfold g1. rewrite learn_vocab, Hs.
    apply fold_registered_idempotent.
  - rewrite learn_simpleVocab. unfold g1. rewrite learn_simpleVocab.
    destruct c; [apply fold_add_idempotent|done].
  - rewrite learn_simpleNgrams.
    destruct c; [|done].
    rewrite add_bigrams_ngrams.
    assert (Hn := learn_simpleNgrams text simple r g).
    rewrite add_bigrams_ngrams in Hn. fold g1 in Hn.
    destruct (1 <? _)%nat; [|done].
    apply fold_add_present. intros i Hi.
    rewrite Hn. apply fold_add_elem. right.
    apply list_elem_of_fmap. by exists i.
  - by rewrite learn_categories.
  - rewrite learn_simpleResponses. unfold g1. rewrite learn_simpleResponses.
    destruct c, r as [response|]; try done.
    destruct (non_empty response); [apply set_set|done].
  - rewrite learn_memory. unfold g1 at 1. rewrite learn_update_throws.
    destruct (update_throws _ (brain g)) eqn:Hu; [done|].
    unfold g1. by rewrite (learn_memory_has _ _ _ _ Hu).
Qed.

(** C9.  [learnFromFeedback] is idempotent on the state: a second
    call with the same arguments right after the first leaves [vocab],
    [simpleVocab], [simpleNgrams], [simpleResponses] and [memory] (and
    with them the flag and the saved record) as the first call left
    them, and it ends as the first call ended. *)
Theorem learnFromFeedback_idempotent (text : jsstring) (c : Category)
    (r : option jsstring) (g : State) :
  learnFromFeedback text c r (after (learnFromFeedback text c r g))
  = learnFromFeedback text c r g.
Proof.
  set (g1 := after (learnFromFeedback text c r g)).
  pose proof (learn_brain_idempotent text c r g) as Hb. fold g1 in Hb.
  pose proof (learn_update_throws (_normalizeText text) text c r g) as Hu.
  fold g1 in Hu.
  apply run_eq.
  - apply state_eq.
    + exact Hb.
    + apply learn_isInitialized.
    + rewrite learn_savedBrain, Hu, Hb.
      unfold g1. rewrite (learn_savedBrain text c r g).
      by destruct (update_throws _ (brain g)).
  - by rewrite !learn_outcome, Hu.
Qed.

(** On a Brain whose [vocab] hides the method both calls throw, and
    what the first wrote before it threw is what the second finds. *)
Example repeated_feedback_throws :
  let g :=
    after (init (on_page_load (Some
      {| stored_vocab :=
           JsObject.set JsObject.empty (lit "hasOwnProperty") 0;
         stored_simpleVocab := Some [];
         stored_simpleNgrams := Some [];
         stored_categories := [simple; complex];
         stored_simpleResponses := JsObject.empty;
         stored_memory := [] |}))) in
  let once := learnFromFeedback (lit "Hi there") simple (Some (lit "Hi!")) g in
  outcome once = throws TypeError
  /\ simpleVocab (brain (after once)) = [lit "hi"; lit "there"]
  /\ memory (brain (after once)) = []
  /\ savedBrain (after once) = savedBrain g
  /\ learnFromFeedback (lit "Hi there") simple (Some (lit "Hi!")) (after once)
     = once.
Proof. vm_compute. done. Qed.

(** ** Initialization *)

(** What every call of the callback keeps, [forEach] keeps, however
    it ends. *)
Lemma forEach_invariant {S A} (P : S -> Prop)
    (callback : S -> A -> run S unit) :
  (forall s x, P s -> P (after (callback s x))) ->
  forall array s, P s -> P (after (forEach callback array s)).
Proof.
  intros Hstep. induction array as [|x array IH]; intros s Hs; [done|].
  cbn [forEach]. specialize (Hstep s x Hs).
  destruct (outcome (callback s x)); [by apply IH|done].
Qed.

Lemma add_NoDup s x : NoDup s -> NoDup (JsSet.add s x).
Proof.
  intros Hs. unfold JsSet.add. destruct (JsSet.has s x) eqn:Hx; [done|].
  apply has_false in Hx. apply NoDup_app. split; [done|]. split.
  - intros y Hy Hy'. apply list_elem_of_singleton in Hy'. by subst.
  - apply NoDup_singleton.
Qed.

Lemma fold_add_NoDup a : forall s, NoDup s -> NoDup (fold_left JsSet.add a s).
Proof.
  induction a as [|x a IH]; intros s Hs; simpl; [done|].
  by apply IH, add_NoDup.
Qed.

Lemma fold_add_fresh a : forall s,
  NoDup (s ++ a) -> fold_left JsSet.add a s = s ++ a.
Proof.
  induction a as [|x a IH]; intros s Hnd; simpl; [by rewrite app_nil_r|].
  assert (Hx : x ∉ s).
  { apply NoDup_app in Hnd as (_ & Hdisj & _).
    intros Hin. apply (Hdisj x Hin). by left. }
  unfold JsSet.add at 2. rewrite (proj2 (has_false s x) Hx).
  rewrite IH; rewrite <- app_assoc; done.
Qed.


Lemma from_array_NoDup a : NoDup (JsSet.from_array a).
Proof. apply fold_add_NoDup, NoDup_nil_2. Qed.

Lemma from_array_set s : NoDup s -> JsSet.from_array (JsSet.to_array s) = s.
Proof.
  intros Hs. unfold JsSet.to_array, JsSet.from_array.
  by apply (fold_add_fresh _ []).
Qed.

(** [new Set(Array.from(set))] is the set again, order included. *)
Lemma from_array_idempotent a :
  JsSet.from_array (JsSet.to_array (JsSet.from_array a)) = JsSet.from_array a.
Proof. apply from_array_set, from_array_NoDup. Qed.

Lemma add_bigrams_NoDup words b :
  NoDup (simpleNgrams b) -> NoDup (simpleNgrams (add_bigrams words b)).
Proof.
  intros Hnd. rewrite add_bigrams_ngrams. destruct (1 <? _)%nat; [|done].
  revert Hnd. generalize (simpleNgrams b).
  induction (seq 0 (length words - 1)) as [|i l IH]; intros s Hs; [done|].
  cbn [fold_left]. by apply IH, add_NoDup.
Qed.

Lemma add_bigrams_simpleVocab words b :
  simpleVocab (add_bigrams words b) = simpleVocab b.
Proof. unfold add_bigrams. by destruct (1 <? _)%nat. Qed.

Lemma add_bigrams_simpleResponses words b :
  simpleResponses (add_bigrams words b) = simpleResponses b.
Proof. unfold add_bigrams. by destruct (1 <? _)%nat. Qed.

Lemma add_bigrams_categories words b :
  categories (add_bigrams words b) = categories b.
Proof. unfold add_bigrams. by destruct (1 <? _)%nat. Qed.

Lemma prepare_entry_NoDup b mem :
  NoDup (simpleVocab b) /\ NoDup (simpleNgrams b) ->
  NoDup (simpleVocab (after (prepare_entry b mem)))
  /\ NoDup (simpleNgrams (after (prepare_entry b mem))).
Proof.
  intros [Hv Hn]. unfold prepare_entry.
  destruct (outcome (_updateVocab _ _)); [|done].
  destruct mem as [i response|i]; [|done].
  cbn [after]. split.
  - rewrite add_bigrams_simpleVocab. by apply fold_add_NoDup.
  - by apply add_bigrams_NoDup.
Qed.

Lemma prepare_entry_categories b mem :
  categories (after (prepare_entry b mem)) = categories b.
Proof.
  unfold prepare_entry.
  destruct (outcome (_updateVocab _ _)); [|done].
  destruct mem; [|done]. cbn [after]. by rewrite add_bigrams_categories.
Qed.

(** What a call of [init] that returns leaves behind. *)
Lemma init_in_step g :
  outcome (init g) = returns tt -> in_step (after (init g)).
Proof.
  unfold in_step, init.
  destruct (savedBrain g) as [loadedBrain|].
  - intros _. cbn [outcome after isInitialized savedBrain brain _saveBrain].
    repeat split; apply from_array_NoDup.
  - destruct (outcome (_prepareInitialBrain _)) eqn:Hout; [|done].
    intros _. cbn [after isInitialized savedBrain brain _saveBrain].
    split; [done|]. split; [done|].
    apply (forEach_invariant
             (fun b => NoDup (simpleVocab b) /\ NoDup (simpleNgrams b))).
    + intros b mem. apply prepare_entry_NoDup.
    + cbn. split; apply NoDup_nil_2.
Qed.

(** [init] on a state whose slot holds a record. *)
Lemma init_loaded g r :
  savedBrain g = Some r ->
  init g
  = Run {| brain := loaded r (brain g); isInitialized := true;
           savedBrain := Some (brainToSave (loaded r (brain g))) |}
      (returns tt).
Proof. intros Hsaved. unfold init. by rewrite Hsaved. Qed.

Lemma loaded_saved b b' :
  NoDup (simpleVocab b) -> NoDup (simpleNgrams b) ->
  categories b' = categories b ->
  loaded (brainToSave b) b' = b.
Proof.
  intros Hv Hn Hc. apply brain_eq; cbn [loaded brainToSave vocab simpleVocab
    simpleNgrams categories simpleResponses memory stored_vocab
    stored_simpleVocab stored_simpleNgrams stored_simpleResponses
    stored_memory default]; try done; by apply from_array_set.
Qed.

(** [init] finds nothing to change in such a state. *)
Lemma init_of_in_step g : in_step g -> init g = Run g (returns tt).
Proof.
  intros (Hflag & Hsaved & Hv & Hn).
  rewrite (init_loaded g _ Hsaved), loaded_saved by done.
  f_equal. apply state_eq; cbn [brain isInitialized savedBrain]; done.
Qed.

(** A page load that finds the record of such a state restores it. *)
Lemma reload_in_step g :
  in_step g -> categories (brain g) = [simple; complex] ->
  init (on_page_load (savedBrain g)) = Run g (returns tt).
Proof.
  intros (Hflag & Hsaved & Hv & Hn) Hc.
  rewrite (init_loaded _ (brainToSave (brain g)))
    by (by rewrite Hsaved).
  rewrite loaded_saved by done.
  f_equal. apply state_eq; cbn [brain isInitialized savedBrain]; done.
Qed.

Lemma learn_in_step text c r g :
  JsObject.own (vocab (brain g)) !! method_name = None ->
  in_step g -> in_step (after (learnFromFeedback text c r g)).
Proof.
  intros Hfound (Hflag & _ & Hv & Hn). unfold in_step.
  destruct (learn_returns text c r g Hfound) as [Hu _].
  rewrite learn_isInitialized, learn_savedBrain, Hu.
  split; [done|]. split; [done|].
  rewrite learn_simpleVocab, learn_simpleNgrams. split.
  - destruct c; [by apply fold_add_NoDup|done].
  - destruct c; [by apply add_bigrams_NoDup|done].
Qed.

Lemma seed_returns : outcome (init (on_page_load None)) = returns tt.
Proof. vm_compute. reflexivity. Qed.

(** ** Reachable states *)

(** Every reachable state is initialized and saved, and neither of
    its tables hides the method [hasOwnProperty]. *)
Lemma reachable_sound g :
  Session.reachable g ->
  in_step g
  /\ categories (brain g) = [simple; complex]
  /\ JsObject.own (simpleResponses (brain g)) !! method_name = None
  /\ JsObject.own (vocab (brain g)) !! method_name = None.
Proof.
  induction 1 as [|g e Hg (IH & Hc & Hr & Hv)|g Hg (IH & Hc & Hr & Hv)].
  - split; [apply init_in_step, seed_returns|].
    split; [vm_compute; reflexivity|].
    split; vm_compute; reflexivity.
  - unfold Session.learn.
    split; [by apply learn_in_step|].
    split; [by rewrite learn_categories|].
    split; [by apply learn_responses_found|by apply learn_vocab_found].
  - by rewrite (reload_in_step g IH Hc).
Qed.

Lemma reachable_saved g :
  Session.reachable g -> savedBrain g = Some (brainToSave (brain g)).
Proof. intros Hg. by destruct (reachable_sound g Hg) as ((_ & ? & _) & _). Qed.

Lemma reachable_initialized g :
  Session.reachable g -> isInitialized g = true.
Proof. intros Hg. by destruct (reachable_sound g Hg) as ((? & _) & _). Qed.

Lemma reachable_responses_found g :
  Session.reachable g ->
  JsObject.own (simpleResponses (brain g)) !! method_name = None.
Proof. intros Hg. by destruct (reachable_sound g Hg) as (_ & _ & ? & _). Qed.

Lemma reachable_vocab_found g :
  Session.reachable g ->
  JsObject.own (vocab (brain g)) !! method_name = None.
Proof. intros Hg. by destruct (reachable_sound g Hg) as (_ & _ & _ & ?). Qed.

Lemma reachable_learn_returns text g :
  Session.reachable g ->
  update_throws (_normalizeText text) (brain g) = false.
Proof.
  intros Hg. unfold update_throws.
  by rewrite (proj2 (shadowed_false _) (reachable_vocab_found g Hg)).
Qed.

Lemma reload_after g :
  Session.reachable g -> after (init (on_page_load (savedBrain g))) = g.
Proof.
  intros Hg. destruct (reachable_sound g Hg) as (Hstep & Hc & _).
  by rewrite reload_in_step.
Qed.

Lemma fold_learn_reachable events : forall g,
  Session.reachable g -> Session.reachable (fold_left Session.learn events g).
Proof.
  induction events as [|e events IH]; intros g Hg; [done|].
  cbn [fold_left]. apply IH. by constructor.
Qed.

(** ** The memory log *)

Lemma memory_has_input n (mems : list MemoryRecord) :
  existsb (fun mem => bool_decide (input mem = n)) mems = true
  <-> n ∈ input <$> mems.
Proof.
  rewrite existsb_exists, list_elem_of_fmap.
  split.
  - intros (m & Hm & Hn). apply bool_decide_eq_true in Hn.
    exists m. split; [done|by apply list_elem_of_In].
  - intros (m & Hn & Hm). exists m.
    split; [by apply list_elem_of_In|by apply bool_decide_eq_true].
Qed.

Lemma memory_lacks_input n (mems : list MemoryRecord) :
  existsb (fun mem => bool_decide (input mem = n)) mems = false
  <-> n ∉ input <$> mems.
Proof.
  rewrite <- memory_has_input. by destruct (existsb _ _).
Qed.

Lemma learn_memory_NoDup text c r g :
  NoDup (input <$> memory (brain g)) ->
  NoDup (input <$> memory (brain (after (learnFromFeedback text c r g)))).
Proof.
  intros Hnd. rewrite learn_memory.
  destruct (update_throws _ _); [done|].
  destruct (existsb _ _) eqn:Hex; [done|].
  rewrite fmap_app. apply NoDup_app. split; [done|]. split.
  - intros n Hn Hn'. simpl in Hn'. apply list_elem_of_singleton in Hn'.
    subst n. apply memory_has_input in Hn. congruence.
  - simpl. apply NoDup_singleton.
Qed.

Lemma reachable_memory_NoDup g :
  Session.reachable g -> NoDup (input <$> memory (brain g)).
Proof.
  induction 1 as [|g e Hg IH|g Hg IH].
  - apply (bool_decide_eq_true_1 _). vm_compute. reflexivity.
  - by apply learn_memory_NoDup.
  - by rewrite (reload_after g Hg).
Qed.

(** One record per input: two records with the same input are the
    same record. *)
Lemma memory_record_unique (mems : list MemoryRecord) m m' :
  NoDup (input <$> mems) -> m ∈ mems -> m' ∈ mems ->
  input m' = input m -> m' = m.
Proof.
  intros Hnd Hm Hm' Hinput.
  apply list_elem_of_lookup in Hm as [i Hi].
  apply list_elem_of_lookup in Hm' as [j Hj].
  assert (i = j).
  { eapply NoDup_lookup; [exact Hnd| |].
    - rewrite list_lookup_fmap, Hi. reflexivity.
    - rewrite list_lookup_fmap, Hj. simpl. by rewrite Hinput. }
  subst j. congruence.
Qed.

Lemma fold_learn_memory_grows events : forall g,
  memory (brain g)
    `prefix_of` memory (brain (fold_left Session.learn events g)).
Proof.
  induction events as [|e events IH]; intros g; [done|].
  cbn [fold_left]. etrans; [|apply IH]. apply learn_memory_grows.
Qed.

(** In a reachable state a call logs a new input under the label of
    the call. *)
Lemma learn_memory_new text c r g :
  Session.reachable g ->
  _normalizeText text ∉ input <$> memory (brain g) ->
  memory (brain (after (learnFromFeedback text c r g)))
  = memory (brain g) ++ [{| input := _normalizeText text; category := c |}].
Proof.
  intros Hg Hnew.
  rewrite learn_memory, (reachable_learn_returns text g Hg).
  by rewrite (proj2 (memory_lacks_input _ _) Hnew).
Qed.

Lemma learn_memory_old text c r g :
  _normalizeText text ∈ input <$> memory (brain g) ->
  memory (brain (after (learnFromFeedback text c r g))) = memory (brain g).
Proof.
  intros Hold. rewrite learn_memory.
  destruct (update_throws _ _); [done|].
  by rewrite (proj2 (memory_has_input _ _) Hold).
Qed.

(** The first call of a run that names a new input decides the label
    under which the input is logged. *)
Lemma first_label_logged events : forall g phrase c,
  Session.reachable g ->
  phrase ∉ input <$> memory (brain g) ->
  Session.first_label phrase events = Some c ->
  {| input := phrase; category := c |}
    ∈ memory (brain (fold_left Session.learn events g)).
Proof.
  induction events as [|e events IH]; intros g phrase c Hg Hnew Hfirst;
    [done|].
  cbn [fold_left]. unfold Session.first_label in Hfirst.
  cbn [List.find] in Hfirst.
  case_bool_decide as Hsame.
  - injection Hfirst as <-. subst phrase.
    destruct (fold_learn_memory_grows events (Session.learn g e))
      as [rest ->].
    apply elem_of_app. left. unfold Session.learn.
    rewrite (learn_memory_new _ _ _ _ Hg Hnew).
    apply elem_of_app. right. by apply list_elem_of_singleton.
  - apply IH; [by constructor| |exact Hfirst].
    unfold Session.learn. rewrite learn_memory.
    destruct (update_throws _ _); [done|].
    destruct (existsb _ _); [done|].
    rewrite fmap_app. intros Hin.
    apply elem_of_app in Hin as [?|Hin]; [done|].
    apply list_elem_of_singleton in Hin. by subst phrase.
Qed.

(** C4.  In every reachable state [memory] holds at most one record
    per normalized input.  A call of [learnFromFeedback] with an input
    that has a record appends nothing, whatever its label; a call with
    a new input appends one record, under the label of the call; the
    records there are stay in place.  So along any run of feedback the
    label stored for an input is the label of the first call that
    introduced it, also when later calls name another one, and a
    record that was there before the run is still the record of its
    input after it. *)
Theorem memory_first_write_wins (g : State) :
  Session.reachable g ->
  NoDup (input <$> memory (brain g))
  /\ (forall text c r,
        let g' := after (learnFromFeedback text c r g) in
        (_normalizeText text ∈ input <$> memory (brain g) ->
         memory (brain g') = memory (brain g))
        /\ (_normalizeText text ∉ input <$> memory (brain g) ->
            memory (brain g')
            = memory (brain g)
              ++ [{| input := _normalizeText text; category := c |}])
        /\ (forall m m',
              m ∈ memory (brain g) -> m' ∈ memory (brain g') ->
              input m' = input m -> category m' = category m))
  /\ (forall events phrase c,
        phrase ∉ input <$> memory (brain g) ->
        Session.first_label phrase events = Some c ->
        let g' := fold_left Session.learn events g in
        {| input := phrase; category := c |} ∈ memory (brain g')
        /\ forall m, m ∈ memory (brain g') -> input m = phrase ->
                category m = c)
  /\ (forall events m m',
        let g' := fold_left Session.learn events g in
        m ∈ memory (brain g) -> m' ∈ memory (brain g') ->
        input m' = input m -> m' = m).
Proof.
  intros Hg. split; [by apply reachable_memory_NoDup|]. split.
  - intros text c r g'.
    split; [apply learn_memory_old|]. split; [by apply learn_memory_new|].
    intros m m' Hm Hm' Hinput.
    assert (Hnd : NoDup (input <$> memory (brain g'))).
    { apply reachable_memory_NoDup.
      exact (Session.reach_learn g
               {| Session.fb_text := text; Session.fb_category := c;
                  Session.fb_response := r |} Hg). }
    destruct (learn_memory_grows text c r g) as [extra Hextra].
    fold g' in Hextra.
    assert (Hm2 : m ∈ memory (brain g')).
    { rewrite Hextra. apply elem_of_app. by left. }
    by rewrite (memory_record_unique _ _ _ Hnd Hm2 Hm' Hinput).
  - split.
    + intros events phrase c Hnew Hfirst g'.
      pose proof (first_label_logged events g phrase c Hg Hnew Hfirst) as Hin.
      fold g' in Hin. split; [exact Hin|].
      intros m Hm Hinput.
      assert (Hnd : NoDup (input <$> memory (brain g')))
        by (by apply reachable_memory_NoDup, fold_learn_reachable).
      by rewrite (memory_record_unique _ _ _ Hnd Hin Hm Hinput).
    + intros events m m' g' Hm Hm' Hinput.
      assert (Hnd : NoDup (input <$> memory (brain g')))
        by (by apply reachable_memory_NoDup, fold_learn_reachable).
      destruct (fold_learn_memory_grows events g) as [extra Hextra].
      fold g' in Hextra.
      assert (Hm2 : m ∈ memory (brain g')).
      { rewrite Hextra. apply elem_of_app. by left. }
      exact (memory_record_unique _ _ _ Hnd Hm2 Hm' Hinput).
Qed.

Lemma memory_first_write_wins_witness :
  Session.reachable Session.seed_state
  /\ (lit "tell me more" ∉ input <$> memory (brain Session.seed_state))
  /\ {| input := lit "tell me more"; category := complex |}
       ∈ memory
           (brain
              (fold_left Session.learn
                 [{| Session.fb_text := lit "Tell me more!";
                     Session.fb_category := complex;
                     Session.fb_response := None |};
                  {| Session.fb_text := lit "tell me MORE";
                     Session.fb_category := simple;
                     Session.fb_response := Some (lit "More!") |}]
                 Session.seed_state))
  /\ forall m,
       m ∈ memory
             (brain
                (fold_left Session.learn
                   [{| Session.fb_text := lit "Tell me more!";
                       Session.fb_category := complex;
                       Session.fb_response := None |};
                    {| Session.fb_text := lit "tell me MORE";
                       Session.fb_category := simple;
                       Session.fb_response := Some (lit "More!") |}]
                   Session.seed_state)) ->
       input m = lit "tell me more" -> category m = complex.
Proof.
  assert (H1 : lit "tell me more"
                 ∉ input <$> memory (brain Session.seed_state))
    by (apply (bool_decide_eq_true_1 _); vm_compute; reflexivity).
  split; [exact Session.reach_seed|]. split; [exact H1|].
  exact (proj1 (proj2 (proj2
           (memory_first_write_wins Session.seed_state Session.reach_seed)))
           [{| Session.fb_text := lit "Tell me more!";
               Session.fb_category := complex;
               Session.fb_response := None |};
            {| Session.fb_text := lit "tell me MORE";
               Session.fb_category := simple;
               Session.fb_response := Some (lit "More!") |}]
           (lit "tell me more") complex H1 eq_refl).
Defined.

(** Relabelling is ignored: "hello" is a seed phrase stored as simple,
    and teaching it as complex leaves the log as it was. *)
Example relabel_ignored :
  memory (brain (after (learnFromFeedback (lit "Hello!") complex None
                          Session.seed_state)))
  = memory (brain Session.seed_state).
Proof. vm_compute. reflexivity. Qed.

(** ** The unknown-word veto *)

Lemma unknown_word_loop_some known words w :
  w ∈ words -> w ∉ known ->
  exists w', unknown_word_loop known words = Some w'.
Proof.
  intros Hw Hk. induction words as [|x words IH]; [by apply elem_of_nil in Hw|].
  simpl. destruct (JsSet.has known x) eqn:Hx; simpl; [|by eexists].
  apply elem_of_cons in Hw as [->|Hw]; [|by apply IH].
  apply has_true in Hx. done.
Qed.

(** What the veto rests on: every known word was taught in a simple
    phrase, and every word of a phrase that has a response is known. *)
Lemma learn_known_words e g (seen : list jsstring) :
  (forall w, w ∈ simpleVocab (brain g) -> w ∈ seen) ->
  forall w, w ∈ simpleVocab (brain (Session.learn g e)) ->
       w ∈ seen ++ Session.feedback_simple_words [e].
Proof.
  intros Hseen w. unfold Session.learn, Session.feedback_simple_words.
  rewrite learn_simpleVocab. simpl. rewrite app_nil_r.
  destruct (Session.fb_category e).
  - change (fold_left JsSet.add ?ws (simpleVocab ?b))
      with (simpleVocab (add_words ws b)).
    rewrite add_words_elem, elem_of_app. intros [?|?]; [left; auto|by right].
  - rewrite app_nil_r. apply Hseen.
Qed.

Lemma learn_response_words e g :
  (forall k, is_Some (JsObject.own (simpleResponses (brain g)) !! k) ->
        forall w, w ∈ split_words k -> w ∈ simpleVocab (brain g)) ->
  forall k,
    is_Some (JsObject.own (simpleResponses (brain (Session.learn g e))) !! k) ->
    forall w, w ∈ split_words k ->
         w ∈ simpleVocab (brain (Session.learn g e)).
Proof.
  intros Hinv k Hk w Hw. unfold Session.learn in *.
  rewrite learn_simpleResponses in Hk. rewrite learn_simpleVocab.
  destruct (Session.fb_category e); [|by eapply Hinv].
  change (fold_left JsSet.add ?ws (simpleVocab ?b))
    with (simpleVocab (add_words ws b)).
  apply add_words_elem.
  assert (Hold : is_Some (JsObject.own (simpleResponses (brain g)) !! k) ->
                 w ∈ simpleVocab (brain g)) by (intros; by eapply Hinv).
  destruct (Session.fb_response e) as [response|]; [|by left; apply Hold].
  destruct (non_empty response); [|by left; apply Hold].
  destruct (decide (_normalizeText (Session.fb_text e) = k)) as [<-|Hne].
  - by right.
  - rewrite set_lookup_other in Hk by done. left. by apply Hold.
Qed.

Lemma fold_learn_invariant events : forall g (seen : list jsstring),
  (forall w, w ∈ simpleVocab (brain g) -> w ∈ seen) ->
  (forall k, is_Some (JsObject.own (simpleResponses (brain g)) !! k) ->
        forall w, w ∈ split_words k -> w ∈ simpleVocab (brain g)) ->
  let g' := fold_left Session.learn events g in
  (forall w, w ∈ simpleVocab (brain g') ->
        w ∈ seen ++ Session.feedback_simple_words events)
  /\ (forall k, is_Some (JsObject.own (simpleResponses (brain g')) !! k) ->
           forall w, w ∈ split_words k -> w ∈ simpleVocab (brain g')).
Proof.
  induction events as [|e events IH]; intros g seen Hseen Hresp; simpl.
  - split; [|done]. intros w Hw.
    unfold Session.feedback_simple_words. simpl. rewrite app_nil_r. auto.
  - destruct (IH (Session.learn g e)
                (seen ++ Session.feedback_simple_words [e])) as [H1 H2].
    + by apply learn_known_words.
    + by apply learn_response_words.
    + split; [|exact H2]. intros w Hw. specialize (H1 w Hw).
      unfold Session.feedback_simple_words in *. simpl in *.
      rewrite app_nil_r in H1. by rewrite <- app_assoc in H1.
Qed.

Lemma seed_known_words w :
  w ∈ simpleVocab (brain Session.seed_state) -> w ∈ Session.seed_simple_words.
Proof.
  revert w. apply Forall_forall.
  apply (bool_decide_eq_true_1 _). vm_compute. reflexivity.
Qed.

Lemma seed_response_words k :
  is_Some (JsObject.own (simpleResponses (brain Session.seed_state)) !! k) ->
  forall w, w ∈ split_words k -> w ∈ simpleVocab (brain Session.seed_state).
Proof.
  intros [v Hk]. apply Forall_forall. revert k v Hk.
  change (map_Forall
            (fun k _ =>
               Forall (fun w => w ∈ simpleVocab (brain Session.seed_state))
                 (split_words k))
            (JsObject.own (simpleResponses (brain Session.seed_state)))).
  apply (bool_decide_eq_true_1 _). vm_compute. reflexivity.
Qed.

(** C3.  In a state reached from the seeded Brain by any sequence of
    [learnFromFeedback] calls, a query with a word that occurs in no
    phrase taught as simple (seed phrases included) is classified
    [complex], whatever its other words are. *)
Theorem unknown_word_veto (events : list Session.Feedback)
    (query w : jsstring) :
  w ∈ split_words (_normalizeText query) ->
  w ∉ Session.seed_simple_words ++ Session.feedback_simple_words events ->
  classify query (fold_left Session.learn events Session.seed_state)
  = returns complex.
Proof.
  intros Hw Hunseen.
  destruct (fold_learn_invariant events Session.seed_state
              Session.seed_simple_words seed_known_words seed_response_words)
    as [Hknown Hresp].
  pose proof (fold_learn_reachable events _ Session.reach_seed) as Hg.
  set (g := fold_left Session.learn events Session.seed_state) in *.
  assert (Hout : w ∉ simpleVocab (brain g))
    by (intros H; by apply Hunseen, Hknown).
  unfold classify.
  rewrite (reachable_initialized g Hg). cbn [negb].
  rewrite (hasOwnProperty_found _ _ (reachable_responses_found g Hg)).
  case_bool_decide as Hown.
  { exfalso. apply Hout. by apply (Hresp _ Hown). }
  destruct (split_words (_normalizeText query)) as [|w0 ws] eqn:Hws;
    [by apply elem_of_nil in Hw|].
  change (length (w0 :: ws) =? 0)%nat with false. cbv iota.
  destruct (unknown_word_loop_some _ _ _ Hw Hout) as [w' ->]. done.
Qed.

Lemma unknown_word_veto_witness :
  lit "world" ∈ split_words (_normalizeText (lit "Hello, world!"))
  /\ (lit "world" ∉ Session.seed_simple_words
                     ++ Session.feedback_simple_words
                          [{| Session.fb_text := lit "How are you today?";
                              Session.fb_category := simple;
                              Session.fb_response := Some (lit "Fine!") |}])
  /\ classify (lit "Hello, world!")
       (fold_left Session.learn
          [{| Session.fb_text := lit "How are you today?";
              Session.fb_category := simple;
              Session.fb_response := Some (lit "Fine!") |}]
          Session.seed_state) = returns complex.
Proof.
  assert (H1 : lit "world" ∈ split_words (_normalizeText (lit "Hello, world!")))
    by (apply (bool_decide_eq_true_1 _); vm_compute; reflexivity).
  assert (H2 : lit "world" ∉ Session.seed_simple_words
                    ++ Session.feedback_simple_words
                         [{| Session.fb_text := lit "How are you today?";
                             Session.fb_category := simple;
                             Session.fb_response := Some (lit "Fine!") |}])
    by (apply (bool_decide_eq_true_1 _); vm_compute; reflexivity).
  split; [exact H1|]. split; [exact H2|].
  exact (unknown_word_veto _ _ _ H1 H2).
Defined.

(** ** Persistence *)



(** A whole state survives the cycle when its sets are sets. *)
Lemma save_load_brain (b : Brain) :
  NoDup (simpleVocab b) -> NoDup (simpleNgrams b) ->
  categories b = [simple; complex] ->
  brain (after (init (on_page_load (Some (brainToSave b))))) = b.
Proof.
  intros Hv Hn Hc. rewrite (init_loaded _ (brainToSave b)) by done.
  cbn [after brain]. by apply loaded_saved.
Qed.

(** A record of the earlier version: no [simpleNgrams], and an array
    that repeats a word.  The first cycle removes the repetition and
    adds the missing field; the second changes nothing. *)
Example legacy_record_round_trip :
  let r :=
    {| stored_vocab :=
         JsObject.set (JsObject.set JsObject.empty (lit "hi") 0) (lit "ok") 1;
       stored_simpleVocab := Some [lit "ok"; lit "hi"; lit "ok"];
       stored_simpleNgrams := None;
       stored_categories := [simple; complex];
       stored_simpleResponses :=
         JsObject.set JsObject.empty (lit "hi") (lit "Hi!");
       stored_memory := [{| input := lit "hi"; category := simple |}] |} in
  let once := after (init (on_page_load (Some r))) in
  (stored_simpleVocab <$> savedBrain once) = Some (Some [lit "ok"; lit "hi"])
  /\ (stored_simpleNgrams <$> savedBrain once) = Some (Some [])
  /\ after (init (on_page_load (savedBrain once))) = once.
Proof. vm_compute. done. Qed.

(** The text of a small record.  The table lists the array indices
    [7] and [10] first, in ascending order, whatever the order in which
    the words were registered; the quotation mark is escaped. *)
Example serialized_text :
  let table :=
    JsObject.set
      (JsObject.set (JsObject.set JsObject.empty (lit "ok") 0) (lit "10") 1)
      (lit "7") 2 in
  JsObject.keys table = [lit "7"; lit "10"; lit "ok"]
  /\ JSON_stringify
       {| stored_vocab := table;
          stored_simpleVocab := Some [lit "ok"];
          stored_simpleNgrams := None;
          stored_categories := [simple; complex];
          stored_simpleResponses :=
            JsObject.set JsObject.empty (lit "ok") [0x22; 0x4F; 0x4B; 0x22];
          stored_memory := [{| input := lit "ok"; category := simple |}] |}
     = [0x7B] ++ [0x22] ++ lit "vocab" ++ [0x22; 0x3A; 0x7B]
       ++ [0x22; 0x37; 0x22; 0x3A; 0x32; 0x2C]
       ++ [0x22; 0x31; 0x30; 0x22; 0x3A; 0x31; 0x2C]
       ++ [0x22; 0x6F; 0x6B; 0x22; 0x3A; 0x30; 0x7D; 0x2C]
       ++ [0x22] ++ lit "simpleVocab" ++ [0x22; 0x3A; 0x5B]
       ++ [0x22; 0x6F; 0x6B; 0x22; 0x5D; 0x2C]
       ++ [0x22] ++ lit "categories" ++ [0x22; 0x3A; 0x5B; 0x22]
       ++ lit "simple" ++ [0x22; 0x2C; 0x22] ++ lit "complex"
       ++ [0x22; 0x5D; 0x2C]
       ++ [0x22] ++ lit "simpleResponses" ++ [0x22; 0x3A; 0x7B]
       ++ [0x22; 0x6F; 0x6B; 0x22; 0x3A]
       ++ [0x22; 0x5C; 0x22; 0x4F; 0x4B; 0x5C; 0x22; 0x22; 0x7D; 0x2C]
       ++ [0x22] ++ lit "memory" ++ [0x22; 0x3A; 0x5B; 0x7B]
       ++ [0x22] ++ lit "input" ++ [0x22; 0x3A; 0x22; 0x6F; 0x6B; 0x22; 0x2C]
       ++ [0x22] ++ lit "category" ++ [0x22; 0x3A; 0x22] ++ lit "simple"
       ++ [0x22; 0x7D; 0x5D; 0x7D].
Proof. vm_compute. done. Qed.

(** * Further properties of the gatekeeper *)

(** ** Learning only adds *)

Lemma set_dom {V} (o : JsObject.object V) k v :
  dom (JsObject.own o) ⊆ dom (JsObject.own (JsObject.set o k v)).
Proof.
  unfold JsObject.set. destruct (JsObject.own o !! k) eqn:Hk.
  - cbn [JsObject.own]. rewrite dom_insert. set_solver.
  - case_bool_decide; [done|]. cbn [JsObject.own]. rewrite dom_insert.
    set_solver.
Qed.

Lemma learn_sets_grow text c r g :
  simpleVocab (brain g)
    ⊆ simpleVocab (brain (after (learnFromFeedback text c r g)))
  /\ simpleNgrams (brain g)
       ⊆ simpleNgrams (brain (after (learnFromFeedback text c r g))).
Proof.
  rewrite learn_simpleVocab, learn_simpleNgrams. destruct c; [|done]. split.
  - intros w Hw.
    change (fold_left JsSet.add ?ws (simpleVocab ?b))
      with (simpleVocab (add_words ws b)).
    apply add_words_elem. by left.
  - intros w Hw. apply add_bigrams_elem. by left.
Qed.

Lemma learn_responses_grow text c r g :
  dom (JsObject.own (simpleResponses (brain g)))
    ⊆ dom (JsObject.own
             (simpleResponses (brain (after (learnFromFeedback text c r g))))).
Proof.
  rewrite learn_simpleResponses.
  destruct c, r as [response|]; try done.
  destruct (non_empty response); [apply set_dom|done].
Qed.

(** X1.  Whatever the feedback, and however the call ends,
    [learnFromFeedback] removes nothing: every registered word keeps
    its index, every known word and bigram stays known, every phrase
    with a response keeps one, and the records of [memory] stay where
    they are. *)
Theorem learn_never_forgets (text : jsstring) (c : Category)
    (r : option jsstring) (g : State) :
  let g' := after (learnFromFeedback text c r g) in
  JsObject.own (vocab (brain g)) ⊆ JsObject.own (vocab (brain g'))
  /\ simpleVocab (brain g) ⊆ simpleVocab (brain g')
  /\ simpleNgrams (brain g) ⊆ simpleNgrams (brain g')
  /\ dom (JsObject.own (simpleResponses (brain g)))
       ⊆ dom (JsObject.own (simpleResponses (brain g')))
  /\ memory (brain g) `prefix_of` memory (brain g').
Proof.
  intros g'. subst g'.
  destruct (learn_sets_grow text c r g) as [Hwords Hpairs].
  split; [|split; [exact Hwords|split; [exact Hpairs|split]]].
  - apply learn_vocab_grows.
  - apply learn_responses_grow.
  - apply learn_memory_grows.
Qed.

Lemma unknown_word_loop_none_iff known words :
  unknown_word_loop known words = None <-> forall w, w ∈ words -> w ∈ known.
Proof.
  split; [|apply unknown_word_loop_none].
  induction words as [|x words IH]; simpl; intros Hloop w Hw;
    [by apply elem_of_nil in Hw|].
  destruct (JsSet.has known x) eqn:Hx; simpl in Hloop; [|done].
  apply elem_of_cons in Hw as [->|Hw]; [by apply has_true|by apply IH].
Qed.

Lemma unknown_bigram_loop_none_iff known words iterations : forall i,
  unknown_bigram_loop known words i iterations = None
  <-> forall j, (i <= j < i + iterations)%nat -> bigram_at words j ∈ known.
Proof.
  intros i. split; [|apply unknown_bigram_loop_none].
  revert i. induction iterations as [|n IH]; simpl; intros i Hloop j Hj;
    [lia|].
  destruct (JsSet.has known (bigram_at words i)) eqn:Hx; simpl in Hloop;
    [|done].
  destruct (decide (j = i)) as [->|Hne]; [by apply has_true|].
  apply (IH (S i)); [done|lia].
Qed.

(** When [classify] answers [simple]: the gatekeeper is initialized,
    the method is found, and either the phrase has a response or every
    word and every adjacent pair is known. *)
Lemma classify_simple_iff text g :
  classify text g = returns simple
  <-> isInitialized g = true
      /\ JsObject.own (simpleResponses (brain g)) !! method_name = None
      /\ (is_Some (JsObject.own (simpleResponses (brain g))
                     !! _normalizeText text)
          \/ ((forall w, w ∈ split_words (_normalizeText text) ->
                    w ∈ simpleVocab (brain g))
              /\ (forall j,
                    (j + 1 < length (split_words (_normalizeText text)))%nat ->
                    bigram_at (split_words (_normalizeText text)) j
                      ∈ simpleNgrams (brain g)))).
Proof.
  unfold classify.
  destruct (isInitialized g); cbn [negb]; [|split; [done|by intros [? _]]].
  rewrite hasOwnProperty_shadowed.
  destruct (shadowed _) eqn:Hs.
  { split; [done|]. intros (_ & Hfound & _).
    apply shadowed_false in Hfound. congruence. }
  apply shadowed_false in Hs.
  case_bool_decide as Hown; [split; [by auto|done]|].
  set (words := split_words (_normalizeText text)).
  destruct (length words =? 0)%nat eqn:Hlen.
  { apply Nat.eqb_eq in Hlen. split; [|done]. intros _. split; [done|].
    split; [done|]. right. destruct words; [|done].
    split; [intros w Hw; by apply elem_of_nil in Hw|simpl; lia]. }
  apply Nat.eqb_neq in Hlen.
  destruct (unknown_word_loop _ words) eqn:Hwords.
  { split; [done|]. intros (_ & _ & [?|[Hall _]]); [done|].
    apply unknown_word_loop_none_iff in Hall. congruence. }
  pose proof (proj1 (unknown_word_loop_none_iff _ _) Hwords) as Hknown.
  clear Hwords. rename Hknown into Hwords.
  destruct (1 <? length words)%nat eqn:Hmany.
  - destruct (unknown_bigram_loop _ words 0 _) eqn:Hbig.
    + split; [done|]. intros (_ & _ & [?|[_ Hall]]); [done|].
      assert (unknown_bigram_loop (simpleNgrams (brain g)) words 0
                (length words - 1) = None); [|congruence].
      apply unknown_bigram_loop_none_iff. intros j Hj. apply Hall. lia.
    + split; [|done]. intros _. split; [done|]. split; [done|].
      right. split; [done|]. intros j Hj.
      apply (proj1 (unknown_bigram_loop_none_iff _ _ _ _) Hbig). lia.
  - apply Nat.ltb_ge in Hmany.
    split; [|done]. intros _. split; [done|]. split; [done|].
    right. split; [done|]. intros j Hj. lia.
Qed.

(** X2.  A verdict [simple] is never taken back: whatever is taught
    afterwards, and under whatever label, a query that was simple is
    still simple. *)
Theorem simple_verdict_kept (query text : jsstring) (c : Category)
    (r : option jsstring) (g : State) :
  classify query g = returns simple ->
  classify query (after (learnFromFeedback text c r g)) = returns simple.
Proof.
  rewrite !classify_simple_iff. intros (Hinit & Hfound & Hsimple).
  destruct (learn_sets_grow text c r g) as [Hv Hn].
  pose proof (learn_responses_grow text c r g) as Hr.
  split; [by rewrite learn_isInitialized|].
  split; [by apply learn_responses_found|].
  destruct Hsimple as [Hown|[Hwords Hpairs]].
  - left. apply elem_of_dom, Hr, elem_of_dom, Hown.
  - right. split; [intros w Hw|intros j Hj]; auto.
Qed.

Lemma simple_verdict_kept_witness :
  classify (lit "How are you?") Session.seed_state = returns simple
  /\ classify (lit "How are you?")
       (after (learnFromFeedback (lit "How are you?") complex None
                 Session.seed_state)) = returns simple.
Proof.
  assert (H : classify (lit "How are you?") Session.seed_state
              = returns simple)
    by (vm_compute; reflexivity).
  split; [exact H|].
  exact (simple_verdict_kept _ (lit "How are you?") complex None _ H).
Defined.

(** ** Teaching and asking *)

(** X3.  Right after a phrase was taught as simple, an initialized
    gatekeeper whose [simpleResponses] does not hide the method
    [hasOwnProperty] classifies the phrase as simple, also when no
    response came with it and also when [_updateVocab] threw; and it
    gives back the response that did come with it unless the phrase
    normalizes to [__proto__]. *)
Theorem taught_phrase_is_simple (text : jsstring) (r : option jsstring)
    (g : State) :
  isInitialized g = true ->
  JsObject.own (simpleResponses (brain g)) !! lit "hasOwnProperty" = None ->
  let g' := after (learnFromFeedback text simple r g) in
  classify text g' = returns simple
  /\ forall response,
       r = Some response -> non_empty response = true ->
       _normalizeText text <> lit "__proto__" ->
       getSimpleResponse text g' = Text response.
Proof.
  intros Hinit Hfound g'. split; [by apply learn_simple_then_classify|].
  intros response -> Hne Hkey. apply learn_simple_then_response; auto.
Qed.

Lemma taught_phrase_is_simple_witness :
  isInitialized Session.seed_state = true
  /\ JsObject.own (simpleResponses (brain Session.seed_state))
       !! lit "hasOwnProperty" = None
  /\ let g' :=
       after (learnFromFeedback (lit "Good morning!") simple
                (Some (lit "Morning!")) Session.seed_state) in
     classify (lit "Good morning!") g' = returns simple
     /\ forall response,
          Some (lit "Morning!") = Some response ->
          non_empty response = true ->
          _normalizeText (lit "Good morning!") <> lit "__proto__" ->
          getSimpleResponse (lit "Good morning!") g' = Text response.
Proof.
  assert (H1 : isInitialized Session.seed_state = true) by reflexivity.
  assert (H2 : JsObject.own (simpleResponses (brain Session.seed_state))
                 !! lit "hasOwnProperty" = None)
    by (vm_compute; reflexivity).
  split; [exact H1|]. split; [exact H2|].
  exact (taught_phrase_is_simple (lit "Good morning!")
           (Some (lit "Morning!")) Session.seed_state H1 H2).
Defined.

(** Where [simpleResponses] hides the method, the phrase is learnt
    all the same and [classify] throws. *)
Example taught_to_a_hidden_method :
  let g :=
    after (init (on_page_load (Some
      {| stored_vocab := JsObject.empty;
         stored_simpleVocab := Some [];
         stored_simpleNgrams := Some [];
         stored_categories := [simple; complex];
         stored_simpleResponses :=
           JsObject.set JsObject.empty (lit "hasOwnProperty") (lit "Hi!");
         stored_memory := [] |}))) in
  let g' :=
    after (learnFromFeedback (lit "Hey") simple (Some (lit "Hey!")) g) in
  getSimpleResponse (lit "Hey") g' = Text (lit "Hey!")
  /\ classify (lit "Hey") g' = throws TypeError.
Proof. vm_compute. done. Qed.

Lemma last_cons {A} (a d : A) l : List.last (a :: l) d = List.last l a.
Proof.
  revert a d. induction l as [|b l IH]; intros a d; [done|].
  change (List.last (a :: b :: l) d) with (List.last (b :: l) d).
  by rewrite !IH.
Qed.

Lemma stored_reply_after events phrase : forall g v,
  phrase <> lit "__proto__" ->
  JsObject.own (simpleResponses (brain g)) !! phrase = Some v ->
  JsObject.own (simpleResponses (brain (fold_left Session.learn events g)))
    !! phrase
  = Some (List.last (Session.replies_to phrase events) v).
Proof.
  induction events as [|e events IH]; intros g v Hkey Hv; [done|].
  cbn [fold_left].
  assert (Hstep : exists v',
    JsObject.own (simpleResponses (brain (Session.learn g e))) !! phrase
    = Some v'
    /\ List.last (Session.replies_to phrase (e :: events)) v
       = List.last (Session.replies_to phrase events) v').
  { unfold Session.learn. rewrite learn_simpleResponses.
    unfold Session.replies_to. cbn [flat_map].
    destruct (Session.fb_category e), (Session.fb_response e) as [r|];
      cbn [app]; try by exists v.
    destruct (non_empty r) eqn:Hr; cbn [andb app]; [|by exists v].
    case_bool_decide as Hsame; cbn [app].
    - exists r. split; [|apply last_cons].
      rewrite Hsame. apply set_lookup_same. by left.
    - exists v. split; [|done]. by rewrite set_lookup_other. }
  destruct Hstep as (v' & Hv' & ->). by apply IH.
Qed.

(** X4.  A taught reply outlives later feedback and the last one
    wins: after a phrase was taught with a response, and whatever
    feedback follows, [getSimpleResponse] gives the response of the
    last call that taught the same normalized phrase as simple with a
    non-empty response. *)
Theorem last_reply_wins (text response : jsstring)
    (later : list Session.Feedback) (g : State) :
  non_empty response = true ->
  _normalizeText text <> lit "__proto__" ->
  getSimpleResponse text
    (fold_left Session.learn later
       (after (learnFromFeedback text simple (Some response) g)))
  = Text (List.last (Session.replies_to (_normalizeText text) later) response)
  /\ non_empty
       (List.last (Session.replies_to (_normalizeText text) later) response)
     = true.
Proof.
  intros Hr Hkey.
  assert (Hne : non_empty
    (List.last (Session.replies_to (_normalizeText text) later) response)
    = true).
  { assert (Hall : Forall (fun x => non_empty x = true)
                     (Session.replies_to (_normalizeText text) later)).
    { unfold Session.replies_to. apply Forall_flat_map, Forall_forall.
      intros e _.
      destruct (Session.fb_category e), (Session.fb_response e) as [x|];
        try constructor.
      destruct (non_empty x) eqn:Hx; cbn [andb]; [|constructor].
      case_bool_decide; repeat constructor. done. }
    revert Hall. generalize (Session.replies_to (_normalizeText text) later).
    intros l. revert response Hr.
    induction l as [|x l IH]; intros d Hd Hall; [done|].
    rewrite last_cons. apply Forall_cons in Hall as [Hx Hall]. by apply IH. }
  split; [|exact Hne].
  unfold getSimpleResponse, JsObject.get.
  rewrite (stored_reply_after later _ _ response Hkey).
  - by rewrite Hne.
  - rewrite learn_simpleResponses, Hr. apply set_lookup_same. by left.
Qed.

Lemma last_reply_wins_witness :
  non_empty (lit "Morning!") = true
  /\ _normalizeText (lit "Good morning!") <> lit "__proto__"
  /\ getSimpleResponse (lit "Good morning!")
       (fold_left Session.learn
          [{| Session.fb_text := lit "good MORNING";
              Session.fb_category := simple;
              Session.fb_response := Some (lit "Hello, early bird!") |}]
          (after (learnFromFeedback (lit "Good morning!") simple
                    (Some (lit "Morning!")) Session.seed_state)))
     = Text (lit "Hello, early bird!").
Proof.
  assert (H1 : non_empty (lit "Morning!") = true) by reflexivity.
  assert (H2 : _normalizeText (lit "Good morning!") <> lit "__proto__")
    by (vm_compute; discriminate).
  split; [exact H1|]. split; [exact H2|].
  exact (proj1 (last_reply_wins (lit "Good morning!") (lit "Morning!")
           [{| Session.fb_text := lit "good MORNING";
               Session.fb_category := simple;
               Session.fb_response := Some (lit "Hello, early bird!") |}]
           Session.seed_state H1 H2)).
Defined.

(** ** Initialization and page reloads *)

(** X5.  [init] is idempotent: when a call of [init] has returned,
    calling it again, on what the first call left in the object and in
    localStorage, changes nothing and returns as well.  This holds for
    every state the first call starts from, with or without a stored
    record. *)
Theorem init_idempotent (g : State) :
  outcome (init g) = returns tt -> init (after (init g)) = init g.
Proof.
  intros Hreturns.
  rewrite (init_of_in_step _ (init_in_step g Hreturns)).
  by apply run_eq.
Qed.

Lemma init_idempotent_witness :
  outcome (init (on_page_load None)) = returns tt
  /\ init (after (init (on_page_load None))) = init (on_page_load None).
Proof.
  assert (H : outcome (init (on_page_load None)) = returns tt)
    by (vm_compute; reflexivity).
  split; [exact H|]. exact (init_idempotent (on_page_load None) H).
Defined.

(** A first call that throws leaves a state on which the second call
    does not repeat it: the record pushed before the exception is
    pushed once more. *)
Example init_after_exception :
  let g :=
    {| brain :=
         {| vocab := JsObject.set JsObject.empty (lit "hasOwnProperty") 0;
            simpleVocab := []; simpleNgrams := [];
            categories := [simple; complex];
            simpleResponses := JsObject.empty; memory := [] |};
       isInitialized := false; savedBrain := None |} in
  outcome (init g) = throws TypeError
  /\ isInitialized (after (init g)) = false
  /\ length (memory (brain (after (init g)))) = 1%nat
  /\ length (memory (brain (after (init (after (init g)))))) = 2%nat.
Proof. vm_compute. done. Qed.

(** X6.  A page reload loses nothing: when the page is loaded again
    and [init] finds the record that a reachable state saved, it
    returns and the gatekeeper is in that very state again (Brain,
    flag and saved record). *)
Theorem reload_restores (g : State) :
  Session.reachable g ->
  init (on_page_load (savedBrain g)) = Run g (returns tt).
Proof.
  intros Hg. destruct (reachable_sound g Hg) as (Hstep & Hc & _).
  by apply reload_in_step.
Qed.

Lemma reload_restores_witness :
  Session.reachable
    (Session.learn Session.seed_state
       {| Session.fb_text := lit "Good morning!";
          Session.fb_category := simple;
          Session.fb_response := Some (lit "Morning!") |})
  /\ init (on_page_load
             (savedBrain
                (Session.learn Session.seed_state
                   {| Session.fb_text := lit "Good morning!";
                      Session.fb_category := simple;
                      Session.fb_response := Some (lit "Morning!") |})))
     = Run (Session.learn Session.seed_state
              {| Session.fb_text := lit "Good morning!";
                 Session.fb_category := simple;
                 Session.fb_response := Some (lit "Morning!") |})
         (returns tt).
Proof.
  assert (H : Session.reachable
    (Session.learn Session.seed_state
       {| Session.fb_text := lit "Good morning!";
          Session.fb_category := simple;
          Session.fb_response := Some (lit "Morning!") |})).
  { constructor. exact Session.reach_seed. }
  split; [exact H|]. exact (reload_restores _ H).
Defined.

(** ** The vocabulary *)

Lemma registered_dense o w : dense_ids o -> dense_ids (registered o w).
Proof.
  intros Hd. unfold registered.
  destruct (non_empty w); cbn [andb]; [|done].
  case_bool_decide as Hown; cbn [negb]; [done|].
  apply eq_None_not_Some in Hown.
  unfold JsObject.set. rewrite Hown. case_bool_decide; [done|].
  unfold dense_ids, JsObject.keys_length in *. cbn [JsObject.own].
  rewrite (map_size_insert_None _ _ _ Hown).
  intros k v Hk.
  destruct (decide (k = w)) as [->|Hne].
  - rewrite lookup_insert_eq in Hk. injection Hk as <-. split; [lia|].
    intros k' Hk'. destruct (decide (k' = w)) as [|Hne']; [done|].
    rewrite lookup_insert_ne in Hk' by done.
    destruct (Hd _ _ Hk') as [Hlt _]. lia.
  - rewrite lookup_insert_ne in Hk by done.
    destruct (Hd _ _ Hk) as [Hlt Hinj]. split; [lia|].
    intros k' Hk'. destruct (decide (k' = w)) as [->|Hne'].
    + rewrite lookup_insert_eq in Hk'. injection Hk' as <-. lia.
    + rewrite lookup_insert_ne in Hk' by done. by apply Hinj.
Qed.

Lemma fold_registered_dense ws : forall o,
  dense_ids o -> dense_ids (fold_left registered ws o).
Proof.
  induction ws as [|w ws IH]; intros o Hd; [done|].
  cbn [fold_left]. by apply IH, registered_dense.
Qed.

Lemma add_bigrams_vocab words b : vocab (add_bigrams words b) = vocab b.
Proof. unfold add_bigrams. by destruct (1 <? _)%nat. Qed.

Lemma prepare_entry_vocab b mem :
  vocab (after (prepare_entry b mem))
  = if shadowed (vocab b) then vocab b
    else fold_left registered
           (split_whitespace (_normalizeText (lit (seed_input mem))))
           (vocab b).
Proof.
  unfold prepare_entry. rewrite updateVocab_run. cbn [vocab set_memory].
  destruct (shadowed (vocab b)).
  - destruct (existsb non_empty _); cbn [outcome after]; [done|].
    destruct mem; cbn [after]; [|done]. by rewrite add_bigrams_vocab.
  - cbn [outcome after]. destruct mem; cbn [after]; [|done].
    by rewrite add_bigrams_vocab.
Qed.

Lemma prepare_entry_dense b mem :
  dense_ids (vocab b) -> dense_ids (vocab (after (prepare_entry b mem))).
Proof.
  intros Hd. rewrite prepare_entry_vocab.
  destruct (shadowed _); [done|by apply fold_registered_dense].
Qed.

Lemma seed_state_prepared :
  brain Session.seed_state
  = after (_prepareInitialBrain
             (set_simpleNgrams []
                (set_simpleVocab [] (brain (on_page_load None))))).
Proof.
  unfold Session.seed_state, init. cbn [savedBrain on_page_load].
  pose proof seed_returns as Hr. unfold init in Hr.
  cbn [savedBrain on_page_load] in Hr.
  destruct (outcome (_prepareInitialBrain _)); [done|].
  cbn [outcome] in Hr. discriminate.
Qed.

Lemma reachable_dense g : Session.reachable g -> dense_ids (vocab (brain g)).
Proof.
  induction 1 as [|g e Hg IH|g Hg IH].
  - rewrite seed_state_prepared.
    apply (forEach_invariant (fun b => dense_ids (vocab b))).
    + intros b mem. apply prepare_entry_dense.
    + intros k v Hk. cbn in Hk. by rewrite lookup_empty in Hk.
  - unfold Session.learn. rewrite learn_vocab.
    destruct (shadowed _); [done|by apply fold_registered_dense].
  - by rewrite reload_after.
Qed.

(** X7.  In every reachable state the indices of [vocab] are below
    the number of registered words and no two words share an index:
    a new word always gets the next free index. *)
Theorem vocab_ids_dense (g : State) :
  Session.reachable g ->
  forall word id,
    JsObject.own (vocab (brain g)) !! word = Some id ->
    id < JsObject.keys_length (vocab (brain g))
    /\ forall word',
         JsObject.own (vocab (brain g)) !! word' = Some id -> word' = word.
Proof.
  intros Hg word id Hword.
  pose proof (reachable_dense g Hg) as Hdense.
  destruct (Hdense word id Hword) as [Hbelow Hone].
  split; [exact Hbelow|]. intros word' Hword'. by apply Hone.
Qed.

Lemma vocab_ids_dense_witness :
  Session.reachable Session.seed_state
  /\ forall word id,
       JsObject.own (vocab (brain Session.seed_state)) !! word = Some id ->
       id < JsObject.keys_length (vocab (brain Session.seed_state))
       /\ forall word',
            JsObject.own (vocab (brain Session.seed_state)) !! word'
            = Some id ->
            word' = word.
Proof.
  split; [exact Session.reach_seed|].
  exact (vocab_ids_dense Session.seed_state Session.reach_seed).
Defined.

(** ** Phrases with a response *)

Lemma set_is_Some {V} (o : JsObject.object V) k v k' :
  is_Some (JsObject.own (JsObject.set o k v) !! k') ->
  k' = k \/ is_Some (JsObject.own o !! k').
Proof.
  destruct (decide (k = k')) as [->|Hne]; [by left|].
  rewrite set_lookup_other by done. by right.
Qed.

Lemma keys_known_grow b b' phrase :
  keys_known b ->
  simpleVocab b ⊆ simpleVocab b' ->
  simpleNgrams b ⊆ simpleNgrams b' ->
  (forall k, is_Some (JsObject.own (simpleResponses b') !! k) ->
        is_Some (JsObject.own (simpleResponses b) !! k)
        \/ (k = phrase
            /\ split_words phrase ⊆ simpleVocab b'
            /\ forall j, (j + 1 < length (split_words phrase))%nat ->
                     bigram_at (split_words phrase) j ∈ simpleNgrams b')) ->
  keys_known b'.
Proof.
  intros Hk Hv Hn Hr k Hsome.
  destruct (Hr k Hsome) as [Hold|(-> & Hw & Hp)]; [|done].
  destruct (Hk k Hold) as [Hw Hp]. split; auto.
Qed.

Lemma prepare_entry_keys_known b mem :
  keys_known b -> keys_known (after (prepare_entry b mem)).
Proof.
  intros Hk.
  apply (keys_known_grow b _ (_normalizeText (lit (seed_input mem))) Hk);
    unfold prepare_entry; destruct (outcome (_updateVocab _ _));
    destruct mem as [i response|i]; cbn [after seed_input]; try done.
  - rewrite add_bigrams_simpleVocab. intros w Hw.
    apply add_words_elem. by left.
  - intros w Hw. apply add_bigrams_elem. by left.
  - intros k Hsome. rewrite add_bigrams_simpleResponses in Hsome.
    cbn [simpleResponses add_words set_simpleVocab set_simpleResponses]
      in Hsome.
    apply set_is_Some in Hsome as [->|Hold]; [right|by left].
    split; [done|]. rewrite add_bigrams_simpleVocab. split.
    + intros w Hw. apply add_words_elem. by right.
    + intros j Hj. apply add_bigrams_elem. right. by exists j.
  - intros k Hsome. by left.
  - intros k Hsome. by left.
  - intros k Hsome. by left.
Qed.

Lemma learn_keys_known text c r g :
  keys_known (brain g) ->
  keys_known (brain (after (learnFromFeedback text c r g))).
Proof.
  intros Hk.
  destruct (learn_sets_grow text c r g) as [Hv Hn].
  apply (keys_known_grow _ _ (_normalizeText text) Hk Hv Hn).
  intros k. rewrite learn_simpleResponses, learn_simpleVocab,
    learn_simpleNgrams.
  destruct c; [|by left].
  assert (Hnew : forall response,
    is_Some (JsObject.own
               (JsObject.set (simpleResponses (brain g)) (_normalizeText text)
                  response) !! k) ->
    is_Some (JsObject.own (simpleResponses (brain g)) !! k)
    \/ (k = _normalizeText text
        /\ split_words (_normalizeText text)
             ⊆ fold_left JsSet.add (split_words (_normalizeText text))
                 (simpleVocab (brain g))
        /\ forall j,
             (j + 1 < length (split_words (_normalizeText text)))%nat ->
             bigram_at (split_words (_normalizeText text)) j
               ∈ simpleNgrams
                   (add_bigrams (split_words (_normalizeText text))
                      (brain g)))).
  { intros response Hsome.
    apply set_is_Some in Hsome as [->|Hold]; [right|by left].
    split; [done|]. split.
    - intros w Hw.
      change (fold_left JsSet.add ?ws (simpleVocab ?b))
        with (simpleVocab (add_words ws b)).
      apply add_words_elem. by right.
    - intros j Hj. apply add_bigrams_elem. right. by exists j. }
  destruct r as [response|]; [|by left].
  destruct (non_empty response); [apply Hnew|by left].
Qed.

Lemma reachable_keys_known g : Session.reachable g -> keys_known (brain g).
Proof.
  induction 1 as [|g e Hg IH|g Hg IH].
  - rewrite seed_state_prepared. apply (forEach_invariant keys_known).
    + intros b mem. apply prepare_entry_keys_known.
    + intros k [v Hv]. cbn in Hv. by rewrite lookup_empty in Hv.
  - by apply learn_keys_known.
  - by rewrite reload_after.
Qed.

(** X8.  In every reachable state the words and the adjacent pairs of
    each phrase that has a response are known themselves.  So the
    exact-match rule never overrules the other rules there: a text that
    [classify] accepts by rule 1 would pass the word check and the
    bigram check as well. *)
Theorem exact_match_is_known (g : State) (text : jsstring) :
  Session.reachable g ->
  JsObject.hasOwnProperty (simpleResponses (brain g)) (_normalizeText text)
  = returns true ->
  unknown_word_loop (simpleVocab (brain g))
    (split_words (_normalizeText text)) = None
  /\ unknown_bigram_loop (simpleNgrams (brain g))
       (split_words (_normalizeText text)) 0
       (length (split_words (_normalizeText text)) - 1) = None.
Proof.
  intros Hg Hown.
  apply hasOwnProperty_returns in Hown as [_ Hown].
  symmetry in Hown. apply bool_decide_eq_true in Hown.
  destruct (reachable_keys_known g Hg _ Hown) as [Hw Hp]. split.
  - by apply unknown_word_loop_none.
  - apply unknown_bigram_loop_none. intros j Hj. apply Hp. lia.
Qed.

Lemma exact_match_is_known_witness :
  Session.reachable Session.seed_state
  /\ JsObject.hasOwnProperty (simpleResponses (brain Session.seed_state))
       (_normalizeText (lit "How are you?")) = returns true
  /\ unknown_word_loop (simpleVocab (brain Session.seed_state))
       (split_words (_normalizeText (lit "How are you?"))) = None
  /\ unknown_bigram_loop (simpleNgrams (brain Session.seed_state))
       (split_words (_normalizeText (lit "How are you?"))) 0
       (length (split_words (_normalizeText (lit "How are you?"))) - 1)
     = None.
Proof.
  assert (H : JsObject.hasOwnProperty
                (simpleResponses (brain Session.seed_state))
                (_normalizeText (lit "How are you?")) = returns true)
    by (vm_compute; reflexivity).
  split; [exact Session.reach_seed|]. split; [exact H|].
  exact (exact_match_is_known Session.seed_state (lit "How are you?")
           Session.reach_seed H).
Defined.

Lemma reachable_replies_non_empty g :
  Session.reachable g ->
  map_Forall (fun _ v => non_empty v = true)
    (JsObject.own (simpleResponses (brain g))).
Proof.
  induction 1 as [|g e Hg IH|g Hg IH].
  - apply (bool_decide_eq_true_1 _). vm_compute. reflexivity.
  - unfold Session.learn. rewrite learn_simpleResponses.
    destruct (Session.fb_category e), (Session.fb_response e) as [r|];
      try done.
    destruct (non_empty r) eqn:Hr; [|done].
    intros k v Hk.
    destruct (decide (_normalizeText (Session.fb_text e) = k)) as [<-|Hne].
    + unfold JsObject.set in Hk.
      destruct (JsObject.own (simpleResponses (brain g)) !! _) eqn:Hold.
      * cbn [JsObject.own] in Hk. rewrite lookup_insert_eq in Hk.
        by injection Hk as <-.
      * case_bool_decide; [congruence|]. cbn [JsObject.own] in Hk.
        rewrite lookup_insert_eq in Hk. by injection Hk as <-.
    + rewrite set_lookup_other in Hk by done. by apply (IH k).
  - by rewrite reload_after.
Qed.

(** X9.  In every reachable state a stored response is what
    [getSimpleResponse] returns: no stored response is empty, so the
    fallback ["Okay!"] never stands in for one. *)
Theorem stored_reply_returned (g : State) (text response : jsstring) :
  Session.reachable g ->
  JsObject.own (simpleResponses (brain g)) !! _normalizeText text
  = Some response ->
  getSimpleResponse text g = Text response /\ response <> [].
Proof.
  intros Hg Hk.
  pose proof (reachable_replies_non_empty g Hg _ _ Hk) as Hne.
  unfold getSimpleResponse, JsObject.get. rewrite Hk, Hne.
  split; [done|]. by intros ->.
Qed.

Lemma stored_reply_returned_witness :
  Session.reachable Session.seed_state
  /\ JsObject.own (simpleResponses (brain Session.seed_state))
       !! _normalizeText (lit "Thank you!") = Some (lit "Happy to help!")
  /\ getSimpleResponse (lit "Thank you!") Session.seed_state
     = Text (lit "Happy to help!")
  /\ lit "Happy to help!" <> [].
Proof.
  assert (H : JsObject.own (simpleResponses (brain Session.seed_state))
                !! _normalizeText (lit "Thank you!")
              = Some (lit "Happy to help!")) by (vm_compute; reflexivity).
  split; [exact Session.reach_seed|]. split; [exact H|].
  exact (stored_reply_returned Session.seed_state (lit "Thank you!")
           (lit "Happy to help!") Session.reach_seed H).
Defined.

(** ** The inherited method is never shadowed *)

Lemma classify_returns text g :
  JsObject.own (simpleResponses (brain g)) !! method_name = None ->
  exists verdict, classify text g = returns verdict.
Proof.
  intros Hfound. unfold classify.
  destruct (negb (isInitialized g)); [by eexists|].
  rewrite (hasOwnProperty_found _ _ Hfound).
  destruct (bool_decide _); [by eexists|].
  destruct (length _ =? 0)%nat; [by eexists|].
  destruct (unknown_word_loop _ _); [by eexists|].
  destruct (if (1 <? _)%nat then _ else _); by eexists.
Qed.

(** X12.  No reachable state has an own property named
    [hasOwnProperty] in [simpleResponses] or in [vocab]: every key the
    gatekeeper writes is a normalized phrase or a word of one, hence
    without capital letters.  So the calls of that method in [classify]
    and [_updateVocab] reach the method of [Object.prototype], and in
    a reachable state neither [classify] nor [learnFromFeedback]
    throws. *)
Lemma method_never_shadowed g :
  Session.reachable g ->
  JsObject.own (simpleResponses (brain g)) !! lit "hasOwnProperty" = None
  /\ JsObject.own (vocab (brain g)) !! lit "hasOwnProperty" = None
  /\ (forall text, exists verdict, classify text g = returns verdict)
  /\ (forall text c r, outcome (learnFromFeedback text c r g) = returns tt).
Proof.
  intros Hg. destruct (reachable_sound g Hg) as (_ & _ & Hr & Hv).
  split; [exact Hr|]. split; [exact Hv|]. split.
  - intros text. by apply classify_returns.
  - intros text c r. by destruct (learn_returns text c r g Hv).
Qed.

Lemma method_never_shadowed_witness :
  Session.reachable Session.seed_state
  /\ JsObject.own (simpleResponses (brain Session.seed_state))
       !! lit "hasOwnProperty" = None
  /\ JsObject.own (vocab (brain Session.seed_state))
       !! lit "hasOwnProperty" = None.
Proof.
  split; [exact Session.reach_seed|].
  destruct (method_never_shadowed Session.seed_state Session.reach_seed)
    as (Hr & Hv & _).
  exact (conj Hr Hv).
Defined.

(** ** The shape of a normalized text *)

Lemma drop_while_head {A} (p : A -> bool) l c :
  head (drop_while p l) = Some c -> p c = false.
Proof.
  induction l as [|x l IH]; simpl; [done|].
  destruct (p x) eqn:Hx; [done|]. simpl. by intros [= <-].
Qed.

Lemma trimEnd_last s c : last (trimEnd s) = Some c -> is_whitespace c = false.
Proof.
  induction s as [|d s IH]; simpl; [done|].
  destruct (trimEnd s) as [|k kept] eqn:Hkept.
  - destruct (is_whitespace d) eqn:Hd; simpl; [done|]. by intros [= <-].
  - rewrite last_cons_cons. exact IH.
Qed.

Lemma drop_while_last {A} (p : A -> bool) l c :
  last (drop_while p l) = Some c -> last l = Some c.
Proof.
  induction l as [|x l IH]; simpl; [done|].
  destruct (p x); [|done]. intros Hc. specialize (IH Hc).
  destruct l; [done|]. by rewrite last_cons_cons.
Qed.

(** X10.  Whatever the text, its normalized form holds none of the
    six punctuation characters, neither starts nor ends with white
    space, and every code unit below the surrogate range is its own
    lower case. *)
Theorem normalized_shape (text : jsstring) :
  Forall (fun c => is_sentence_punctuation c = false) (_normalizeText text)
  /\ (forall c, head (_normalizeText text) = Some c -> is_whitespace c = false)
  /\ (forall c, last (_normalizeText text) = Some c -> is_whitespace c = false)
  /\ Forall (fun c => c < 0xD800 -> UCD.simple_lowercase c = c)
       (_normalizeText text).
Proof.
  unfold _normalizeText, trim, trimStart. repeat split.
  - apply Forall_drop_while, Forall_trimEnd. unfold remove_sentence_punctuation.
    eapply Forall_impl; [apply filter_Forall|].
    intros c Hc. by apply negb_true_iff.
  - intros c. apply drop_while_head.
  - intros c Hc. apply drop_while_last in Hc. by apply trimEnd_last in Hc.
  - apply Forall_forall. intros c Hc Hlow.
    apply list_elem_of_In, In_drop_while, In_trimEnd, filter_In in Hc
      as [Hc _].
    apply In_toLowerCase in Hc as [Hst|Hge]; [|lia].
    by apply N.eqb_eq.
Qed.

(** ** Words *)

Lemma split_loop_words s : forall piece in_run,
  (in_run = true -> piece = []) ->
  Forall (fun c => is_whitespace c = false) piece ->
  concat (List.filter non_empty (split_loop piece in_run s))
  = rev piece ++ List.filter (fun c => negb (is_whitespace c)) s
  /\ Forall (Forall (fun c => is_whitespace c = false))
       (split_loop piece in_run s).
Proof.
  induction s as [|cu rest IH]; intros piece in_run Hrun Hpiece.
  - cbn [split_loop List.filter]. split.
    + rewrite app_nil_r.
      destruct (non_empty (rev piece)) eqn:Hne; cbn [concat].
      * by rewrite app_nil_r.
      * by destruct (rev piece).
    + repeat constructor. by apply Forall_rev.
  - cbn [split_loop List.filter].
    destruct (is_whitespace cu) eqn:Hcu; cbn [negb].
    + destruct (IH [] true) as [Hcat Hall]; [done|constructor|].
      destruct in_run.
      * rewrite (Hrun eq_refl). by split.
      * split.
        -- cbn [List.filter].
           destruct (non_empty (rev piece)) eqn:Hne; cbn [concat].
           ++ by rewrite Hcat.
           ++ rewrite Hcat. by destruct (rev piece).
        -- constructor; [by apply Forall_rev|done].
    + destruct (IH (cu :: piece) false) as [Hcat Hall];
        [done|by constructor|].
      split; [|done]. rewrite Hcat. cbn [rev]. by rewrite <- app_assoc.
Qed.

(** X11.  Splitting into words loses nothing but white space: the
    words, put end to end, are the code units of the text that are
    not white space, in order; no word is empty and none holds white
    space. *)
Theorem split_words_content (text : jsstring) :
  concat (split_words text)
  = List.filter (fun c => negb (is_whitespace c)) text
  /\ Forall (fun w => w <> [] /\ Forall (fun c => is_whitespace c = false) w)
       (split_words text).
Proof.
  unfold split_words, split_whitespace.
  destruct (split_loop_words text [] false) as [Hcat Hall];
    [done|constructor|].
  split; [exact Hcat|].
  apply Forall_forall. intros w Hw.
  apply list_elem_of_In, filter_In in Hw as [Hin Hne]. split.
  - intros ->. done.
  - rewrite Forall_forall in Hall. apply Hall. by apply list_elem_of_In.
Qed.

(** * The two versions of the gatekeeper *)

Lemma legacy_learn_fields text c r g :
  vocab (brain (after (Legacy.learnFromFeedback text c r g)))
  = (if shadowed (vocab (brain g)) then vocab (brain g)
     else fold_left registered (split_whitespace (_normalizeText text))
            (vocab (brain g)))
  /\ simpleVocab (brain (after (Legacy.learnFromFeedback text c r g)))
     = match c with
       | simple =>
           fold_left JsSet.add (split_words (_normalizeText text))
             (simpleVocab (brain g))
       | complex => simpleVocab (brain g)
       end
  /\ simpleResponses (brain (after (Legacy.learnFromFeedback text c r g)))
     = match c, r with
       | simple, Some response =>
           if non_empty response
           then JsObject.set (simpleResponses (brain g)) (_normalizeText text)
                  response
           else simpleResponses (brain g)
       | _, _ => simpleResponses (brain g)
       end
  /\ memory (brain (after (Legacy.learnFromFeedback text c r g)))
     = (if update_throws (_normalizeText text) (brain g) then memory (brain g)
        else if existsb
                  (fun mem => bool_decide (input mem = _normalizeText text))
                  (memory (brain g))
        then memory (brain g)
        else memory (brain g)
               ++ [{| input := _normalizeText text; category := c |}])
  /\ simpleNgrams (brain (after (Legacy.learnFromFeedback text c r g)))
     = simpleNgrams (brain g)
  /\ isInitialized (after (Legacy.learnFromFeedback text c r g))
     = isInitialized g.
Proof.
  unfold Legacy.learnFromFeedback, update_throws.
  destruct c, r as [response|]; try destruct (non_empty response);
    rewrite updateVocab_run;
    cbn [vocab memory add_words set_simpleVocab set_simpleResponses];
    destruct (shadowed (vocab (brain g))); cbn [andb];
    try destruct (existsb non_empty _); cbn [outcome after];
    cbn [vocab memory simpleVocab simpleNgrams simpleResponses add_words
         set_simpleVocab set_simpleResponses set_vocab];
    try destruct (existsb _ (memory (brain g))); done.
Qed.

Lemma same_knowledge_learn e g gl :
  same_knowledge g gl ->
  same_knowledge (Session.learn g e) (legacy_learn gl e).
Proof.
  intros (Hv & Hs & Hr & Hm & Hi).
  destruct (legacy_learn_fields (Session.fb_text e) (Session.fb_category e)
              (Session.fb_response e) gl) as (Lv & Ls & Lr & Lm & _ & Li).
  unfold same_knowledge, Session.learn, legacy_learn.
  rewrite learn_vocab, learn_simpleVocab, learn_simpleResponses, learn_memory,
    learn_isInitialized.
  rewrite Lv, Ls, Lr, Lm, Li. unfold update_throws.
  rewrite Hv, Hs, Hr, Hm, Hi. done.
Qed.

Lemma legacy_classify_same q g gl :
  same_knowledge g gl -> Legacy.classify q g = Legacy.classify q gl.
Proof.
  intros (_ & Hs & Hr & _ & Hi). unfold Legacy.classify.
  by rewrite Hs, Hr, Hi.
Qed.

(** X13.  The two versions learn the same.  Fed the same feedback
    from their seeded Brains, they end with the same [vocab],
    [simpleVocab], [simpleResponses] and [memory]; the n-gram version
    only keeps bigrams on top.  Hence along any history a query that
    the n-gram version accepts is accepted by the first version too. *)
Theorem versions_learn_the_same (events : list Session.Feedback) :
  let g := fold_left Session.learn events Session.seed_state in
  let gl :=
    fold_left legacy_learn events (after (Legacy.init (on_page_load None))) in
  vocab (brain g) = vocab (brain gl)
  /\ simpleVocab (brain g) = simpleVocab (brain gl)
  /\ simpleResponses (brain g) = simpleResponses (brain gl)
  /\ memory (brain g) = memory (brain gl)
  /\ simpleNgrams (brain gl) = []
  /\ forall query,
       classify query g = returns simple ->
       Legacy.classify query gl = returns simple.
Proof.
  intros g gl.
  assert (Hseed : same_knowledge Session.seed_state
                    (after (Legacy.init (on_page_load None)))).
  { unfold same_knowledge.
    split; [apply (bool_decide_eq_true_1 _); vm_compute; reflexivity|].
    split; [apply (bool_decide_eq_true_1 _); vm_compute; reflexivity|].
    split; [apply (bool_decide_eq_true_1 _); vm_compute; reflexivity|].
    split; [apply (bool_decide_eq_true_1 _); vm_compute; reflexivity|].
    vm_compute; reflexivity. }
  assert (Hgrams :
    simpleNgrams (brain (after (Legacy.init (on_page_load None)))) = [])
    by (vm_compute; reflexivity).
  assert (H : same_knowledge g gl /\ simpleNgrams (brain gl) = []).
  { subst g gl. revert Hseed Hgrams.
    generalize Session.seed_state (after (Legacy.init (on_page_load None))).
    induction events as [|e events IH]; intros g gl Hs Hn; [done|].
    cbn [fold_left]. apply IH; [by apply same_knowledge_learn|].
    unfold legacy_learn.
    destruct (legacy_learn_fields (Session.fb_text e) (Session.fb_category e)
                (Session.fb_response e) gl) as (_ & _ & _ & _ & -> & _).
    done. }
  destruct H as [Hsame Hn].
  pose proof Hsame as (Hv & Hs & Hr & Hm & Hi).
  split; [exact Hv|]. split; [exact Hs|]. split; [exact Hr|].
  split; [exact Hm|]. split; [exact Hn|].
  intros query Hq. rewrite <- (legacy_classify_same query g gl Hsame).
  revert Hq. unfold classify, Legacy.classify.
  destruct (negb (isInitialized g)); [done|].
  destruct (JsObject.hasOwnProperty _ _) as [[]|]; [done| |done].
  destruct (length _ =? 0)%nat; [done|].
  by destruct (unknown_word_loop _ _).
Qed.

(** X14.  Upgrading loses the generalization.  When the n-gram
    version loads a record that the first version saved, it knows no
    bigram; so it classifies as complex every query of two words or
    more that is not itself a phrase with a response, whatever the
    first version answered.  (The call of [hasOwnProperty] has to
    return for the premise to hold, so the table does not hide the
    method.) *)
Theorem upgrade_forgets_word_order (gl : State) (query : jsstring) :
  let g := after (init (on_page_load (savedBrain (Legacy._saveBrain gl)))) in
  JsObject.hasOwnProperty (simpleResponses (brain gl)) (_normalizeText query)
  = returns false ->
  (2 <= length (split_words (_normalizeText query)))%nat ->
  simpleNgrams (brain g) = [] /\ classify query g = returns complex.
Proof.
  intros g Hown Hlen.
  assert (Hg : g
    = {| brain := loaded (Legacy.brainToSave (brain gl))
                    (brain (on_page_load None));
         isInitialized := true;
         savedBrain :=
           Some (brainToSave
                   (loaded (Legacy.brainToSave (brain gl))
                      (brain (on_page_load None)))) |}).
  { unfold g. by rewrite (init_loaded _ (Legacy.brainToSave (brain gl))). }
  rewrite Hg. split; [done|].
  unfold classify.
  cbn [isInitialized brain loaded simpleResponses simpleVocab simpleNgrams
       Legacy.brainToSave stored_simpleResponses stored_simpleNgrams negb].
  rewrite Hown.
  destruct (length _ =? 0)%nat eqn:H0; [apply Nat.eqb_eq in H0; lia|].
  destruct (unknown_word_loop _ _); [done|].
  rewrite (proj2 (Nat.ltb_lt 1 _)) by lia.
  destruct (length (split_words (_normalizeText query)) - 1)%nat eqn:Hn;
    [lia|]. done.
Qed.

Lemma upgrade_forgets_word_order_witness :
  JsObject.hasOwnProperty
    (simpleResponses (brain (after (Legacy.init (on_page_load None)))))
    (_normalizeText (lit "thank you hello")) = returns false
  /\ (2 <= length (split_words (_normalizeText (lit "thank you hello"))))%nat
  /\ Legacy.classify (lit "thank you hello")
       (after (Legacy.init (on_page_load None)))
     = returns simple
  /\ classify (lit "thank you hello")
       (after (init (on_page_load
                 (savedBrain (Legacy._saveBrain
                                (after (Legacy.init (on_page_load None)))))))) 
     = returns complex.
Proof.
  assert (H1 : JsObject.hasOwnProperty
    (simpleResponses (brain (after (Legacy.init (on_page_load None)))))
    (_normalizeText (lit "thank you hello")) = returns false)
    by (vm_compute; reflexivity).
  assert (H2 : (2 <= length
    (split_words (_normalizeText (lit "thank you hello"))))%nat)
    by (vm_compute; lia).
  split; [exact H1|]. split; [exact H2|].
  split; [vm_compute; reflexivity|].
  exact (proj2 (upgrade_forgets_word_order
                  (after (Legacy.init (on_page_load None)))
                  (lit "thank you hello") H1 H2)).
Defined.

(** * The gatekeeper behind the page *)

Import Main.

Lemma reachable_knows_thx g :
  Session.reachable g ->
  is_Some (JsObject.own (simpleResponses (brain g)) !! lit "thx").
Proof.
  intros Hg. apply elem_of_dom.
  induction Hg as [|g e Hg IH|g Hg IH].
  - apply (bool_decide_eq_true_1 _). vm_compute. reflexivity.
  - by apply (learn_responses_grow (Session.fb_text e)
                 (Session.fb_category e) (Session.fb_response e) g).
  - by rewrite reload_after.
Qed.

Lemma thx_is_simple g userText :
  Session.reachable g ->
  _normalizeText userText = lit "thx" -> classify userText g = returns simple.
Proof.
  intros Hg Hthx. apply classify_simple_iff.
  split; [by apply reachable_initialized|].
  split; [by apply reachable_responses_found|].
  left. rewrite Hthx. by apply reachable_knows_thx.
Qed.

Lemma instruction_only_for_thx userText :
  _normalizeText userText <> lit "thx" ->
  ServerLLM.learningInstruction (ServerLLM.getResponse userText) = None.
Proof.
  intros Hne. unfold ServerLLM.getResponse. by case_bool_decide.
Qed.

(** X15.  The server never teaches a reachable gatekeeper.  The stub
    sends its learning instruction for the one phrase "thx", a seed
    phrase whose response is never removed; so every query that a
    reachable gatekeeper forwards comes back without an instruction. *)
Theorem server_never_teaches (g : State) (userText : jsstring) :
  Session.reachable g ->
  classify userText g = returns complex ->
  ServerLLM.learningInstruction (ServerLLM.getResponse userText) = None.
Proof.
  intros Hg Hforwarded. apply instruction_only_for_thx. intros Hthx.
  pose proof (thx_is_simple g userText Hg Hthx) as Hsimple.
  congruence.
Qed.

Lemma server_never_teaches_witness :
  Session.reachable Session.seed_state
  /\ classify (lit "Tell me a joke") Session.seed_state = returns complex
  /\ ServerLLM.learningInstruction
       (ServerLLM.getResponse (lit "Tell me a joke")) = None.
Proof.
  assert (H : classify (lit "Tell me a joke") Session.seed_state
              = returns complex)
    by (vm_compute; reflexivity).
  split; [exact Session.reach_seed|]. split; [exact H|].
  exact (server_never_teaches Session.seed_state (lit "Tell me a joke")
           Session.reach_seed H).
Defined.

Lemma page_eq (p q : Page) :
  gatekeeper p = gatekeeper q -> lastQuery p = lastQuery q ->
  isBotThinking p = isBotThinking q -> userInput p = userInput q ->
  responseInput p = responseInput q ->
  sendBtn_disabled p = sendBtn_disabled q -> chat p = chat q ->
  feedback_hidden p = feedback_hidden q -> teach_hidden p = teach_hidden q ->
  feedbackQuery p = feedbackQuery q ->
  feedbackDecision p = feedbackDecision q -> teachQuery p = teachQuery q ->
  p = q.
Proof. destruct p, q; simpl; intros; by subst. Qed.

(** Reads one field at a time through the updates of a handler. *)
Ltac page_fields :=
  cbn [gatekeeper lastQuery isBotThinking userInput responseInput
       sendBtn_disabled chat feedback_hidden teach_hidden feedbackQuery
       feedbackDecision teachQuery query_text decision
       set_gatekeeper set_lastQuery set_thinking set_userInput
       set_responseInput appendMessage hideAllPanels showFeedbackPanel
       showTeachPanel].

(** What [handleSendMessage] does to a page that is not waiting for
    the server, with a text in the input field, when [classify]
    returns and no instruction comes back. *)
Lemma send_result p verdict :
  isBotThinking p = false ->
  non_empty (trim (userInput p)) = true ->
  classify (trim (userInput p)) (gatekeeper p) = returns verdict ->
  (verdict = complex ->
   ServerLLM.learningInstruction (ServerLLM.getResponse (trim (userInput p)))
   = None) ->
  let userText := trim (userInput p) in
  let reply :=
    match verdict with
    | simple => getSimpleResponse userText (gatekeeper p)
    | complex => Text (ServerLLM.userResponse (ServerLLM.getResponse userText))
    end in
  handleSendMessage p
  = {| gatekeeper := gatekeeper p;
       lastQuery := {| query_text := userText; decision := Some verdict |};
       isBotThinking := false;
       userInput := [];
       responseInput := responseInput p;
       sendBtn_disabled := false;
       chat := chat p ++ [{| sender := user; text := Text userText |};
                          {| sender := bot; text := reply |}];
       feedback_hidden := false;
       teach_hidden := true;
       feedbackQuery := userText;
       feedbackDecision :=
         match verdict with
         | simple => lit "SIMPLE"
         | complex => lit "COMPLEX"
         end;
       teachQuery := teachQuery p |}.
Proof.
  intros Hidle Htext Hv Hserver. cbv zeta.
  unfold handleSendMessage. rewrite Htext, Hidle. cbn [negb orb].
  cbn [gatekeeper appendMessage hideAllPanels set_userInput set_thinking].
  rewrite Hv. destruct verdict.
  - apply page_eq; page_fields; try reflexivity.
    by rewrite <- app_assoc.
  - unfold ask_server. rewrite (Hserver eq_refl). cbn [outcome after].
    apply page_eq; page_fields; try reflexivity.
    by rewrite <- app_assoc.
Qed.

(** X16.  Sending a message never changes a reachable gatekeeper.
    [classify] returns a verdict; the handler clears the input,
    records the trimmed text and the verdict in [lastQuery], appends
    the message of the user and one reply of the bot (the local
    response or the answer of the server), shows the feedback panel
    and leaves the Brain as it was. *)
Theorem send_leaves_brain (p : Page) :
  Session.reachable (gatekeeper p) ->
  isBotThinking p = false ->
  non_empty (trim (userInput p)) = true ->
  let userText := trim (userInput p) in
  let p' := handleSendMessage p in
  exists verdict,
    classify userText (gatekeeper p) = returns verdict
    /\ gatekeeper p' = gatekeeper p
    /\ lastQuery p' = {| query_text := userText; decision := Some verdict |}
    /\ userInput p' = [] /\ isBotThinking p' = false
    /\ feedback_hidden p' = false /\ teach_hidden p' = true
    /\ exists reply,
         chat p' = chat p ++ [{| sender := user; text := Text userText |};
                              {| sender := bot; text := reply |}]
         /\ (verdict = simple ->
             reply = getSimpleResponse userText (gatekeeper p)).
Proof.
  intros Hg Hidle Htext. cbv zeta.
  destruct (classify_returns (trim (userInput p)) (gatekeeper p)
              (reachable_responses_found _ Hg)) as [verdict Hv].
  exists verdict. split; [exact Hv|].
  rewrite (send_result p verdict Hidle Htext Hv)
    by (intros ->; apply instruction_only_for_thx; intros Hthx;
        rewrite (thx_is_simple _ _ Hg Hthx) in Hv; discriminate).
  cbn [gatekeeper lastQuery userInput isBotThinking feedback_hidden
       teach_hidden chat].
  do 6 (split; [reflexivity|]).
  eexists. split; [reflexivity|]. by intros ->.
Qed.

Lemma send_leaves_brain_witness :
  let p :=
    {| gatekeeper := Session.seed_state;
       lastQuery := {| query_text := []; decision := None |};
       isBotThinking := false; userInput := lit " Tell me a joke ";
       responseInput := []; sendBtn_disabled := false; chat := [];
       feedback_hidden := true; teach_hidden := true;
       feedbackQuery := []; feedbackDecision := []; teachQuery := [] |} in
  Session.reachable (gatekeeper p)
  /\ isBotThinking p = false
  /\ non_empty (trim (userInput p)) = true
  /\ gatekeeper (handleSendMessage p) = gatekeeper p.
Proof.
  intros p.
  assert (H1 : Session.reachable (gatekeeper p)) by exact Session.reach_seed.
  assert (H2 : isBotThinking p = false) by reflexivity.
  assert (H3 : non_empty (trim (userInput p)) = true) by reflexivity.
  split; [exact H1|]. split; [exact H2|]. split; [exact H3|].
  destruct (send_leaves_brain p H1 H2 H3) as (verdict & _ & Hkept & _).
  exact Hkept.
Defined.

(** Where [simpleResponses] hides the method the handler ends at the
    call of [classify]: the message of the user is in the chat, no
    reply follows, and the page stays locked. *)
Example send_to_a_hidden_method :
  let p :=
    {| gatekeeper :=
         after (init (on_page_load (Some
           {| stored_vocab := JsObject.empty;
              stored_simpleVocab := Some [];
              stored_simpleNgrams := Some [];
              stored_categories := [simple; complex];
              stored_simpleResponses :=
                JsObject.set JsObject.empty (lit "hasOwnProperty") (lit "Hi!");
              stored_memory := [] |})));
       lastQuery := {| query_text := []; decision := None |};
       isBotThinking := false; userInput := lit "Hello";
       responseInput := []; sendBtn_disabled := false; chat := [];
       feedback_hidden := true; teach_hidden := true;
       feedbackQuery := []; feedbackDecision := []; teachQuery := [] |} in
  chat (handleSendMessage p)
  = [{| sender := user; text := Text (lit "Hello") |}]
  /\ isBotThinking (handleSendMessage p) = true
  /\ handleSendMessage (set_userInput (lit "Hello") (handleSendMessage p))
     = set_userInput (lit "Hello") (handleSendMessage p).
Proof. vm_compute. done. Qed.

Lemma last_pair {A} (l : list A) a b : last (l ++ [a; b]) = Some b.
Proof.
  change [a; b] with ([a] ++ [b]). rewrite app_assoc. apply last_snoc.
Qed.

Lemma learn_complex_verdict query text r g :
  classify query (after (learnFromFeedback text complex r g))
  = classify query g.
Proof.
  apply classify_ext.
  - apply learn_isInitialized.
  - apply (learn_simpleResponses text complex r g).
  - apply (learn_simpleVocab text complex r g).
  - apply (learn_simpleNgrams text complex r g).
Qed.

Lemma learn_complex_response query text r g :
  getSimpleResponse query (after (learnFromFeedback text complex r g))
  = getSimpleResponse query g.
Proof.
  unfold getSimpleResponse.
  by rewrite (learn_simpleResponses text complex r g).
Qed.

(** X17.  Rejecting a verdict [simple] changes nothing for the user.
    When a query was answered locally and the user clicks "incorrect",
    the page announces that similar requests will go to the server and
    records the query as complex; yet the same query, sent again, is
    classified simple and gets the same local reply. *)
Theorem rejecting_simple_has_no_effect (p : Page) :
  isBotThinking p = false ->
  non_empty (trim (userInput p)) = true ->
  classify (trim (userInput p)) (gatekeeper p) = returns simple ->
  let userText := trim (userInput p) in
  let p1 := handleSendMessage p in
  let p2 := handleIncorrectFeedback p1 in
  let p3 := handleSendMessage (set_userInput (userInput p) p2) in
  gatekeeper p2
  = after (learnFromFeedback userText complex None (gatekeeper p))
  /\ chat p2
     = chat p1
       ++ [{| sender := system; text := Text understood |}]
  /\ decision (lastQuery p3) = Some simple
  /\ last (chat p3)
     = Some {| sender := bot;
               text := getSimpleResponse userText (gatekeeper p) |}
  /\ last (chat p1) = last (chat p3).
Proof.
  intros Hidle Htext Hv. cbv zeta.
  assert (H1 := send_result p simple Hidle Htext Hv ltac:(congruence)).
  cbv zeta in H1. rewrite H1. clear H1.
  set (p1 := {| gatekeeper := gatekeeper p; lastQuery := _ |}).
  assert (H2 : handleIncorrectFeedback p1
    = set_gatekeeper
        (after (learnFromFeedback (trim (userInput p)) complex None
                  (gatekeeper p)))
        (appendMessage system (Text understood) (hideAllPanels p1)))
    by reflexivity.
  rewrite H2. clear H2.
  set (p2 := set_gatekeeper _ _).
  assert (Hv3 : classify (trim (userInput (set_userInput (userInput p) p2)))
                  (gatekeeper (set_userInput (userInput p) p2))
                = returns simple).
  { unfold p2. page_fields. by rewrite learn_complex_verdict. }
  assert (H3 := send_result (set_userInput (userInput p) p2) simple eq_refl
                  Htext Hv3 ltac:(congruence)).
  cbv zeta in H3. rewrite H3. clear H3.
  unfold p2. page_fields.
  split; [reflexivity|]. split; [reflexivity|]. split; [reflexivity|].
  rewrite learn_complex_response. unfold p1. page_fields.
  by rewrite !last_pair.
Qed.

Lemma rejecting_simple_has_no_effect_witness :
  let p :=
    {| gatekeeper := Session.seed_state;
       lastQuery := {| query_text := []; decision := None |};
       isBotThinking := false; userInput := lit "Thank you!";
       responseInput := []; sendBtn_disabled := false; chat := [];
       feedback_hidden := true; teach_hidden := true;
       feedbackQuery := []; feedbackDecision := []; teachQuery := [] |} in
  isBotThinking p = false
  /\ non_empty (trim (userInput p)) = true
  /\ classify (trim (userInput p)) (gatekeeper p) = returns simple
  /\ decision
       (lastQuery
          (handleSendMessage
             (set_userInput (userInput p)
                (handleIncorrectFeedback (handleSendMessage p)))))
     = Some simple.
Proof.
  intros p.
  assert (H1 : isBotThinking p = false) by reflexivity.
  assert (H2 : non_empty (trim (userInput p)) = true) by reflexivity.
  assert (H3 : classify (trim (userInput p)) (gatekeeper p) = returns simple)
    by (vm_compute; reflexivity).
  split; [exact H1|]. split; [exact H2|]. split; [exact H3|].
  exact (proj1 (proj2 (proj2 (rejecting_simple_has_no_effect p H1 H2 H3)))).
Defined.

(** X18.  Teaching through the page works.  When a reachable
    gatekeeper forwards a query, the user clicks "incorrect" and enters
    a reply, the teach panel carries the trimmed query, nothing is
    learnt before the reply is submitted, and afterwards the same
    query is classified simple and answered with the trimmed reply
    (unless the query normalizes to [__proto__]). *)
Theorem teaching_through_the_page (p : Page) (reply : jsstring) :
  Session.reachable (gatekeeper p) ->
  isBotThinking p = false ->
  non_empty (trim (userInput p)) = true ->
  classify (trim (userInput p)) (gatekeeper p) = returns complex ->
  non_empty (trim reply) = true ->
  _normalizeText (trim (userInput p)) <> lit "__proto__" ->
  let userText := trim (userInput p) in
  let p1 := handleSendMessage p in
  let p2 := handleIncorrectFeedback p1 in
  let p3 := handleTeachNewResponse (set_responseInput reply p2) in
  let p4 := handleSendMessage (set_userInput (userInput p) p3) in
  (teach_hidden p2 = false /\ teachQuery p2 = userText
   /\ gatekeeper p2 = gatekeeper p)
  /\ gatekeeper p3
     = after (learnFromFeedback userText simple (Some (trim reply))
                (gatekeeper p))
  /\ responseInput p3 = []
  /\ decision (lastQuery p4) = Some simple
  /\ last (chat p4) = Some {| sender := bot; text := Text (trim reply) |}
  /\ gatekeeper p4 = gatekeeper p3.
Proof.
  intros Hg Hidle Htext Hv Hreply Hkey. cbv zeta.
  assert (Hnone : complex = complex ->
                  ServerLLM.learningInstruction
                    (ServerLLM.getResponse (trim (userInput p))) = None).
  { intros _. apply instruction_only_for_thx. intros Hthx.
    rewrite (thx_is_simple _ _ Hg Hthx) in Hv. discriminate. }
  assert (H1 := send_result p complex Hidle Htext Hv Hnone).
  cbv zeta in H1. rewrite H1. clear H1.
  set (p1 := {| gatekeeper := gatekeeper p; lastQuery := _ |}).
  assert (H2 : handleIncorrectFeedback p1 = showTeachPanel (hideAllPanels p1))
    by reflexivity.
  rewrite H2. clear H2.
  set (p2 := showTeachPanel _).
  split; [by unfold p2, p1; page_fields|].
  destruct (learn_returns (trim (userInput p)) simple (Some (trim reply))
              (gatekeeper p) (reachable_vocab_found _ Hg)) as [_ Hreturns].
  assert (H3 : handleTeachNewResponse (set_responseInput reply p2)
    = set_responseInput []
        (set_gatekeeper
           (after (learnFromFeedback (trim (userInput p)) simple
                     (Some (trim reply)) (gatekeeper p)))
           (appendMessage system
              (Text (lit "Got it! Learning a new response for the phrase: "
                     ++ [0x22] ++ trim (userInput p) ++ [0x22]))
              (hideAllPanels (set_responseInput reply p2))))).
  { unfold handleTeachNewResponse.
    cbn [responseInput set_responseInput]. rewrite Hreply. cbn [negb].
    unfold p2, p1. page_fields. by rewrite Hreturns. }
  rewrite H3. clear H3.
  set (p3 := set_responseInput [] _).
  assert (Hg3 : gatekeeper p3
    = after (learnFromFeedback (trim (userInput p)) simple (Some (trim reply))
               (gatekeeper p))) by (unfold p3; page_fields; reflexivity).
  split; [exact Hg3|]. split; [by unfold p3; page_fields|].
  assert (Hv4 : classify (trim (userInput (set_userInput (userInput p) p3)))
                  (gatekeeper (set_userInput (userInput p) p3))
                = returns simple).
  { cbn [userInput gatekeeper set_userInput]. rewrite Hg3.
    apply learn_simple_then_classify;
      [by apply reachable_initialized|by apply reachable_responses_found]. }
  assert (Hidle3 : isBotThinking (set_userInput (userInput p) p3) = false)
    by (unfold p3, p2, p1; page_fields; reflexivity).
  assert (H4 := send_result (set_userInput (userInput p) p3) simple Hidle3
                  Htext Hv4 ltac:(congruence)).
  cbv zeta in H4. rewrite H4. clear H4.
  cbn [gatekeeper lastQuery chat decision userInput set_userInput].
  split; [reflexivity|]. split; [|reflexivity].
  rewrite last_pair, Hg3. do 2 f_equal.
  apply learn_simple_then_response; [done|by left].
Qed.

Lemma teaching_through_the_page_witness :
  let p :=
    {| gatekeeper := Session.seed_state;
       lastQuery := {| query_text := []; decision := None |};
       isBotThinking := false; userInput := lit " Good morning! ";
       responseInput := []; sendBtn_disabled := false; chat := [];
       feedback_hidden := true; teach_hidden := true;
       feedbackQuery := []; feedbackDecision := []; teachQuery := [] |} in
  Session.reachable (gatekeeper p)
  /\ isBotThinking p = false
  /\ non_empty (trim (userInput p)) = true
  /\ classify (trim (userInput p)) (gatekeeper p) = returns complex
  /\ non_empty (trim (lit " Morning! ")) = true
  /\ _normalizeText (trim (userInput p)) <> lit "__proto__"
  /\ last (chat
       (handleSendMessage
          (set_userInput (userInput p)
             (handleTeachNewResponse
                (set_responseInput (lit " Morning! ")
                   (handleIncorrectFeedback (handleSendMessage p)))))))
     = Some {| sender := bot; text := Text (trim (lit " Morning! ")) |}.
Proof.
  intros p.
  assert (H1 : Session.reachable (gatekeeper p)) by exact Session.reach_seed.
  assert (H2 : isBotThinking p = false) by reflexivity.
  assert (H3 : non_empty (trim (userInput p)) = true) by reflexivity.
  assert (H4 : classify (trim (userInput p)) (gatekeeper p) = returns complex)
    by (vm_compute; reflexivity).
  assert (H5 : non_empty (trim (lit " Morning! ")) = true) by reflexivity.
  assert (H6 : _normalizeText (trim (userInput p)) <> lit "__proto__")
    by (vm_compute; discriminate).
  split; [exact H1|]. split; [exact H2|]. split; [exact H3|].
  split; [exact H4|]. split; [exact H5|]. split; [exact H6|].
  pose proof (teaching_through_the_page p (lit " Morning! ")
                H1 H2 H3 H4 H5 H6) as H.
  cbv zeta in H. exact (proj1 (proj2 (proj2 (proj2 (proj2 H))))).
Defined.

(** * Tensors from nested arrays *)

Lemma size_of_shape_cons n shape :
  Tensor.size_of_shape (n :: shape) = n * Tensor.size_of_shape shape.
Proof.
  unfold Tensor.size_of_shape. cbn [fold_left]. rewrite N.mul_1_l.
  generalize n. induction shape as [|m shape IH]; intros a; cbn [fold_left].
  - by rewrite N.mul_1_r.
  - rewrite (IH (a * m)), N.mul_1_l, (IH m). lia.
Qed.

Lemma flatten_items_length {A} (items : list (Tensor.nested A)) (size : N) :
  Forall (fun t => N.of_nat (length (Tensor.flatten t)) = size) items ->
  N.of_nat (length (flat_map Tensor.flatten items))
  = N.of_nat (length items) * size.
Proof.
  induction 1 as [|t items Ht _ IH]; [done|].
  cbn [flat_map length]. rewrite length_app. lia.
Qed.

(** X19.  For a regular nested array (every level of the length the
    shape gives, none empty) [_inferShapeAndFlatten] finds exactly that
    shape, and the number of flattened values is the product of the
    shape, the size [Tensor.zeros] allocates for it. *)
Theorem regular_array_shape {A} (shape : list N)
    (arr : list (Tensor.nested A)) :
  regular shape (Tensor.Arr arr) ->
  snd (Tensor._inferShapeAndFlatten arr) = shape
  /\ N.of_nat (length (fst (Tensor._inferShapeAndFlatten arr)))
     = Tensor.size_of_shape shape.
Proof.
  unfold Tensor._inferShapeAndFlatten. cbn [fst snd].
  generalize (Tensor.Arr arr). clear arr. revert shape.
  induction shape as [|n shape IH]; intros t Hreg.
  - destruct Hreg as [a ->]. done.
  - destruct Hreg as (items & -> & Hlen & Hn & Hitems).
    rewrite size_of_shape_cons.
    destruct items as [|first rest]; [simpl in Hlen; lia|].
    split.
    + cbn [Tensor.infer_shape]. rewrite Hlen. f_equal.
      apply Forall_cons in Hitems as [Hfirst _]. by apply IH.
    + cbn [Tensor.flatten]. rewrite <- Hlen.
      apply flatten_items_length.
      eapply Forall_impl; [exact Hitems|]. intros t Ht. by apply IH.
Qed.

Lemma regular_array_shape_witness :
  regular [2; 3]
    (Tensor.Arr
       [Tensor.Arr [Tensor.Item 1; Tensor.Item 2; Tensor.Item 3];
        Tensor.Arr [Tensor.Item 4; Tensor.Item 5; Tensor.Item 6]])
  /\ snd (Tensor._inferShapeAndFlatten
            [Tensor.Arr [Tensor.Item 1; Tensor.Item 2; Tensor.Item 3];
             Tensor.Arr [Tensor.Item 4; Tensor.Item 5; Tensor.Item 6]])
     = [2; 3]
  /\ N.of_nat (length (fst (Tensor._inferShapeAndFlatten
            [Tensor.Arr [Tensor.Item 1; Tensor.Item 2; Tensor.Item 3];
             Tensor.Arr [Tensor.Item 4; Tensor.Item 5; Tensor.Item 6]])))
     = Tensor.size_of_shape [2; 3].
Proof.
  assert (H : regular [2; 3]
    (Tensor.Arr
       [Tensor.Arr [Tensor.Item 1; Tensor.Item 2; Tensor.Item 3];
        Tensor.Arr [Tensor.Item 4; Tensor.Item 5; Tensor.Item 6]])).
  { eexists. split; [reflexivity|]. split; [reflexivity|]. split; [done|].
    repeat constructor;
      (eexists; split; [reflexivity|]; split; [reflexivity|]; split; [done|];
       repeat constructor; by eexists). }
  split; [exact H|]. exact (regular_array_shape [2; 3] _ H).
Defined.

(** The shape is read off the first element of each level only, and
    an empty array ends it: a ragged array gets the shape of its first
    row, and the empty array the shape of a scalar. *)
Example irregular_arrays :
  Tensor._inferShapeAndFlatten
    [Tensor.Arr [Tensor.Item 1; Tensor.Item 2]; Tensor.Arr [Tensor.Item 3]]
  = ([1; 2; 3], [2; 2])
  /\ Tensor._inferShapeAndFlatten (A := N) [] = ([], [])
  /\ Tensor.size_of_shape [] = 1.
Proof. repeat split. Qed.

(** * The log and the registry *)

Lemma fold_learn_memory_keeps events : forall g n,
  n ∈ input <$> memory (brain g) ->
  n ∈ input <$> memory (brain (fold_left Session.learn events g)).
Proof.
  intros g n Hn.
  destruct (fold_learn_memory_grows events g) as [rest ->].
  rewrite fmap_app. apply elem_of_app. by left.
Qed.

(** X20.  Every phrase ever fed back is in the log: after any run of
    feedback, from any state whose [vocab] does not hide the method
    [hasOwnProperty], [memory] holds a record whose input is the
    normalized text of each call, whatever its label. *)
Theorem memory_logs_every_phrase (events : list Session.Feedback)
    (g : State) (e : Session.Feedback) :
  JsObject.own (vocab (brain g)) !! lit "hasOwnProperty" = None ->
  e ∈ events ->
  _normalizeText (Session.fb_text e)
    ∈ input <$> memory (brain (fold_left Session.learn events g)).
Proof.
  revert g. induction events as [|e' events IH]; intros g Hfound He;
    [by apply elem_of_nil in He|].
  cbn [fold_left]. apply elem_of_cons in He as [->|He].
  - apply fold_learn_memory_keeps, memory_has_input.
    apply learn_memory_has.
    by destruct (learn_returns (Session.fb_text e') (Session.fb_category e')
                   (Session.fb_response e') g Hfound).
  - apply IH; [|done]. by apply learn_vocab_found.
Qed.

Lemma memory_logs_every_phrase_witness :
  JsObject.own (vocab (brain Session.seed_state)) !! lit "hasOwnProperty"
  = None
  /\ {| Session.fb_text := lit "Tell me MORE!";
        Session.fb_category := complex;
        Session.fb_response := None |}
       ∈ [{| Session.fb_text := lit "Tell me MORE!";
             Session.fb_category := complex; Session.fb_response := None |}]
  /\ _normalizeText (lit "Tell me MORE!")
       ∈ input <$> memory (brain (fold_left Session.learn
           [{| Session.fb_text := lit "Tell me MORE!";
               Session.fb_category := complex; Session.fb_response := None |}]
           Session.seed_state)).
Proof.
  assert (H0 : JsObject.own (vocab (brain Session.seed_state))
                 !! lit "hasOwnProperty" = None)
    by (vm_compute; reflexivity).
  assert (H : {| Session.fb_text := lit "Tell me MORE!";
                 Session.fb_category := complex;
                 Session.fb_response := None |}
    ∈ [{| Session.fb_text := lit "Tell me MORE!";
          Session.fb_category := complex; Session.fb_response := None |}])
    by (apply list_elem_of_singleton; reflexivity).
  split; [exact H0|]. split; [exact H|].
  exact (memory_logs_every_phrase _ Session.seed_state _ H0 H).
Defined.

(** Where [vocab] hides the method the call throws before the log is
    reached: the phrase is not recorded and nothing is saved. *)
Example feedback_not_logged :
  let g :=
    after (init (on_page_load (Some
      {| stored_vocab :=
           JsObject.set JsObject.empty (lit "hasOwnProperty") 0;
         stored_simpleVocab := Some [];
         stored_simpleNgrams := Some [];
         stored_categories := [simple; complex];
         stored_simpleResponses := JsObject.empty;
         stored_memory := [] |}))) in
  let called := learnFromFeedback (lit "Tell me MORE!") complex None g in
  outcome called = throws TypeError /\ after called = g.
Proof. vm_compute. done. Qed.

(** X21.  On a [vocab] that does not hide the method
    [hasOwnProperty], [learnFromFeedback] registers every word of the
    normalized text, under either label, with one exception: the word
    [__proto__] is never registered, because the assignment that would
    create it is ignored. *)
Theorem vocab_registers_words (text : jsstring) (c : Category)
    (r : option jsstring) (g : State) (w : jsstring) :
  JsObject.own (vocab (brain g)) !! lit "hasOwnProperty" = None ->
  w ∈ split_words (_normalizeText text) ->
  let g' := after (learnFromFeedback text c r g) in
  (w <> lit "__proto__" -> is_Some (JsObject.own (vocab (brain g')) !! w))
  /\ (JsObject.own (vocab (brain g)) !! lit "__proto__" = None ->
      JsObject.own (vocab (brain g')) !! lit "__proto__" = None).
Proof.
  intros Hfound Hw g'. subst g'. rewrite learn_vocab.
  rewrite (proj2 (shadowed_false _) Hfound). split.
  - intros Hne.
    apply list_elem_of_In, filter_In in Hw as [Hin Hnon].
    pose proof (fold_registered_settles
                  (split_whitespace (_normalizeText text)) (vocab (brain g)))
      as Hall.
    rewrite List.Forall_forall in Hall.
    destruct (Hall w Hin) as [Hempty|[Hsome|[Hproto _]]];
      [congruence|done|done].
  - intros Hnone.
    assert (Hs : settled (vocab (brain g)) (lit "__proto__"))
      by (right; right; done).
    destruct (settled_fold (split_whitespace (_normalizeText text)) _ _ Hs)
      as [Hempty|[[v Hsome]|[_ Hstill]]]; [done| |done].
    exfalso. revert Hsome. generalize (vocab (brain g)) Hnone.
    induction (split_whitespace (_normalizeText text)) as [|x l IH];
      intros o Ho Hsome; cbn [fold_left] in Hsome; [congruence|].
    apply (IH (registered o x)); [|done].
    unfold registered. destruct (_ && _); [|done].
    destruct (decide (x = lit "__proto__")) as [->|Hx].
    + unfold JsObject.set. rewrite Ho. by rewrite bool_decide_eq_true_2.
    + by rewrite set_lookup_other.
Qed.

Lemma vocab_registers_words_witness :
  JsObject.own (vocab (brain Session.seed_state)) !! lit "hasOwnProperty"
  = None
  /\ lit "__proto__" ∈ split_words (_normalizeText (lit "my __proto__"))
  /\ lit "my" ∈ split_words (_normalizeText (lit "my __proto__"))
  /\ is_Some
       (JsObject.own
          (vocab (brain (after (learnFromFeedback (lit "my __proto__")
                                  complex None Session.seed_state))))
          !! lit "my")
  /\ JsObject.own
       (vocab (brain (after (learnFromFeedback (lit "my __proto__") complex
                               None Session.seed_state))))
       !! lit "__proto__" = None.
Proof.
  assert (H0 : JsObject.own (vocab (brain Session.seed_state))
                 !! lit "hasOwnProperty" = None)
    by (vm_compute; reflexivity).
  assert (H1 : lit "__proto__"
                 ∈ split_words (_normalizeText (lit "my __proto__")))
    by (apply (bool_decide_eq_true_1 _); vm_compute; reflexivity).
  assert (H2 : lit "my" ∈ split_words (_normalizeText (lit "my __proto__")))
    by (apply (bool_decide_eq_true_1 _); vm_compute; reflexivity).
  split; [exact H0|]. split; [exact H1|]. split; [exact H2|]. split.
  - apply (proj1 (vocab_registers_words (lit "my __proto__") complex None
                    Session.seed_state (lit "my") H0 H2)).
    vm_compute. discriminate.
  - apply (proj2 (vocab_registers_words (lit "my __proto__") complex None
                    Session.seed_state (lit "__proto__") H0 H1)).
    apply (bool_decide_eq_true_1 _). vm_compute. reflexivity.
Defined.

(** * Exceptions *)

(** X22.  On an initialized gatekeeper [classify] throws exactly when
    [simpleResponses] has an own property named [hasOwnProperty]; the
    exception is the TypeError of calling the stored string.  No other
    step of [classify] throws. *)
Theorem classify_throws_iff (text : jsstring) (g : State) :
  isInitialized g = true ->
  classify text g = throws TypeError
  <-> is_Some
        (JsObject.own (simpleResponses (brain g)) !! lit "hasOwnProperty").
Proof.
  intros Hinit. unfold classify. rewrite Hinit. cbn [negb].
  rewrite hasOwnProperty_shadowed. unfold shadowed.
  change (lit "hasOwnProperty") with method_name.
  case_bool_decide as Hs; [done|]. split; [|done].
  destruct (bool_decide _); [done|].
  destruct (length _ =? 0)%nat; [done|].
  destruct (unknown_word_loop _ _); [done|].
  by destruct (if (1 <? _)%nat then _ else _).
Qed.

Lemma classify_throws_iff_witness :
  let g :=
    after (init (on_page_load (Some
      {| stored_vocab := JsObject.empty;
         stored_simpleVocab := Some [lit "hello"];
         stored_simpleNgrams := Some [];
         stored_categories := [simple; complex];
         stored_simpleResponses :=
           JsObject.set JsObject.empty (lit "hasOwnProperty") (lit "Hi!");
         stored_memory := [] |}))) in
  isInitialized g = true
  /\ is_Some
       (JsObject.own (simpleResponses (brain g)) !! lit "hasOwnProperty")
  /\ classify (lit "hello") g = throws TypeError.
Proof.
  intros g.
  assert (H1 : isInitialized g = true) by reflexivity.
  assert (H2 : is_Some
    (JsObject.own (simpleResponses (brain g)) !! lit "hasOwnProperty"))
    by (apply (bool_decide_eq_true_1 _); vm_compute; reflexivity).
  split; [exact H1|]. split; [exact H2|].
  exact (proj2 (classify_throws_iff (lit "hello") g H1) H2).
Defined.








